(** * Diet API (C implementation): dispatch, body collection, handlers, database handle

    A shallow embedding of [src/main.c], [src/routes.c], [src/http_helpers.c],
    [src/config.c] and [db.c].  C strings are [string], [int]/[long]/[size_t]
    are [Z] with their wrap-around written out, the MySQL client library and
    cJSON are modelled at the interface the handlers use. *)

From Stdlib Require Import ZArith List String Ascii Bool Lia.
From Stdlib Require Import Numbers.DecimalString.
Import ListNotations.

Set Warnings "-register-all".

Local Open Scope string_scope.
Local Open Scope list_scope.
Local Open Scope Z_scope.

(* ===================================================================== *)
(** * libc: the string and number routines the server calls               *)
(* ===================================================================== *)

Module LibC.

Definition LONG_MAX : Z := 2 ^ 63 - 1.
Definition LONG_MIN : Z := - 2 ^ 63.
Definition SIZE_MODULUS : Z := 2 ^ 64.

(** [(int) x]: conversion of a wider integer to a 32-bit [int]. *)
Definition to_int (x : Z) : Z :=
  (x + 2 ^ 31) mod 2 ^ 32 - 2 ^ 31.

(** Arithmetic on [size_t] wraps modulo 2^64. *)
Definition size_add (a b : Z) : Z := (a + b) mod SIZE_MODULUS.

Definition code (c : ascii) : Z := Z.of_N (N_of_ascii c).

Definition isspace (c : ascii) : bool :=
  (code c =? 32) || ((9 <=? code c) && (code c <=? 13)).

Definition isdigit (c : ascii) : bool :=
  (48 <=? code c) && (code c <=? 57).

Definition digit_value (c : ascii) : Z := code c - 48.

(** [strcmp(a, b) == 0] *)
Definition streq (a b : string) : bool := String.eqb a b.

(** [strncmp(s, p, strlen(p)) == 0] *)
Definition has_prefix (p s : string) : bool := String.prefix p s.

(** [s + strlen(p)], meaningful once [has_prefix p s] holds. *)
Definition after_prefix (p s : string) : string :=
  substring (String.length p) (String.length s - String.length p) s.

Fixpoint skip_spaces (s : string) : string :=
  match s with
  | String c s' => if isspace c then skip_spaces s' else s
  | EmptyString => s
  end.

(** The digit loop of [strtol]: the accumulated magnitude (not yet
    clamped), the number of digits read and the unread rest. *)
Fixpoint read_digits (acc : Z) (n : nat) (s : string) : Z * nat * string :=
  match s with
  | String c s' =>
      if isdigit c then read_digits (10 * acc + digit_value c) (S n) s'
      else (acc, n, s)
  | EmptyString => (acc, n, s)
  end.

Definition clamp_long (x : Z) : Z := Z.max LONG_MIN (Z.min LONG_MAX x).

(** What [strtol(nptr, &endptr, 10)] reports. [converted = false] is the
    case [endptr == nptr] (no digits were found); [endstr] is then the
    whole input. Out-of-range magnitudes saturate at LONG_MIN/LONG_MAX. *)
Record strtol_result : Type := mk_strtol
  { value : Z; converted : bool; endstr : string }.

Definition strtol (nptr : string) : strtol_result :=
  let s := skip_spaces nptr in
  let '(negative, body) :=
    match s with
    | String c s' =>
        if Ascii.eqb c "-" then (true, s')
        else if Ascii.eqb c "+" then (false, s')
        else (false, s)
    | EmptyString => (false, s)
    end in
  let '(magnitude, ndigits, rest) := read_digits 0 0 body in
  match ndigits with
  | O => mk_strtol 0 false nptr
  | S _ =>
      mk_strtol (clamp_long (if negative then - magnitude else magnitude))
                true rest
  end.

(** [atoi(s)] is [(int) strtol(s, NULL, 10)]. *)
Definition atoi (s : string) : Z := to_int (value (strtol s)).

(** The text [printf("%d", x)] produces. *)
Definition fmt_d (x : Z) : string := NilZero.string_of_int (Z.to_int x).

(** [snprintf(buf, size, ...)] keeps at most [size - 1] characters of
    the formatted text. *)
Definition snprintf (size : nat) (text : string) : string :=
  substring 0 (size - 1) text.

End LibC.

(* ===================================================================== *)
(** * cJSON: the document tree the handlers build and read               *)
(* ===================================================================== *)

Module CJson.

(** A cJSON node. [Number] carries [valueint] (the field the handlers
    read, and the value of every [cJSON_AddNumberToObject] call that is
    given an [int]); [Real text] is a number node whose value is the
    double [atof(text)], kept as its source text: the handlers create
    such nodes for their responses and never read them back. *)
Inductive cJSON : Type :=
| Null
| Bool (b : bool)
| Number (valueint : Z)
| Real (text : string)
| Str (valuestring : string)
| Array (children : list cJSON)
| Object (members : list (string * cJSON)).

Definition tolower (c : ascii) : ascii :=
  if (65 <=? LibC.code c) && (LibC.code c <=? 90)
  then ascii_of_N (N_of_ascii c + 32) else c.

Fixpoint lower (s : string) : string :=
  match s with
  | String c s' => String (tolower c) (lower s')
  | EmptyString => EmptyString
  end.

(** cJSON compares member names without regard to case. *)
Definition same_name (a b : string) : bool := String.eqb (lower a) (lower b).

Fixpoint find_member (name : string) (ms : list (string * cJSON)) : option cJSON :=
  match ms with
  | (k, v) :: ms' => if same_name name k then Some v else find_member name ms'
  | [] => None
  end.

(** [cJSON_GetObjectItem(object, name)]; [None] is the NULL pointer. The
    children of an array carry no name, so nothing is found there. *)
Definition cJSON_GetObjectItem (object : option cJSON) (name : string) : option cJSON :=
  match object with
  | Some (Object ms) => find_member name ms
  | _ => None
  end.

Definition cJSON_IsNumber (item : option cJSON) : bool :=
  match item with
  | Some (Number _) | Some (Real _) => true
  | _ => false
  end.

Definition cJSON_IsArray (item : option cJSON) : bool :=
  match item with
  | Some (Array _) => true
  | _ => false
  end.

(** [cJSON_GetArraySize] counts the children in a [size_t] and returns
    the count converted to [int]. *)
Definition cJSON_GetArraySize (array : option cJSON) : Z :=
  match array with
  | Some (Array l) => LibC.to_int (Z.of_nat (List.length l))
  | Some (Object ms) => LibC.to_int (Z.of_nat (List.length ms))
  | _ => 0
  end.

Definition cJSON_GetArrayItem (array : option cJSON) (index : nat) : option cJSON :=
  match array with
  | Some (Array l) => nth_error l index
  | Some (Object ms) => option_map snd (nth_error ms index)
  | _ => None
  end.

(** [item->valueint] of a number node. The handlers read it only from
    documents returned by [cJSON_Parse], whose numbers are [Number] nodes;
    the integer part of a [Real] node is not modelled. *)
Definition valueint (item : option cJSON) : Z :=
  match item with
  | Some (Number n) => n
  | _ => 0
  end.

(** The children of an array node, none for anything else. *)
Definition children_of (array : option cJSON) : list cJSON :=
  match array with
  | Some (Array l) => l
  | _ => []
  end.

Fixpoint replace_member (name : string) (item : cJSON) (ms : list (string * cJSON))
  : list (string * cJSON) :=
  match ms with
  | (k, v) :: ms' =>
      if same_name name k then (k, item) :: ms'
      else (k, v) :: replace_member name item ms'
  | [] => []
  end.

(** The effect, seen from the parent, of mutating in place the member
    that [cJSON_GetObjectItem(object, name)] points to. *)
Definition set_member (object : cJSON) (name : string) (item : cJSON) : cJSON :=
  match object with
  | Object ms => Object (replace_member name item ms)
  | other => other
  end.

Fixpoint set_nth {A : Type} (i : nat) (x : A) (l : list A) : list A :=
  match l, i with
  | [], _ => []
  | _ :: l', O => x :: l'
  | y :: l', S i' => y :: set_nth i' x l'
  end.

End CJson.

(* ===================================================================== *)
(** * db.c: the shared database handle                                   *)
(* ===================================================================== *)

Module Db.

(** A fetched row: one nullable text cell per selected column. Reading a
    column the row does not have is treated like reading NULL. *)
Definition MYSQL_ROW : Type := list (option string).

(** A stored result set, read front to back by [mysql_fetch_row]. *)
Definition MYSQL_RES : Type := list MYSQL_ROW.

(** The client library behind [db_conn]. [MYSQL] is the state of one
    session; every call may change it. [mysql_query] answers [true] when
    the C function returns 0. [mysql_affected_rows] is a [my_ulonglong]. *)
Class MySQL : Type := {
  MYSQL : Type;
  mysql_query : MYSQL -> string -> bool * MYSQL;
  mysql_store_result : MYSQL -> option MYSQL_RES * MYSQL;
  mysql_affected_rows : MYSQL -> Z
}.

Section Handle.
Context {lib : MySQL}.

(** The static [db_conn]: [None] is the null handle left behind when
    [db_init] failed or after [db_cleanup]. *)
Definition db_state : Type := option MYSQL.

(** A computation over the handle. The outer [None] is a run that
    dereferences a null pointer (undefined behaviour). *)
Definition Prog (A : Type) : Type := db_state -> option (A * db_state).

Definition ret {A} (a : A) : Prog A := fun st => Some (a, st).

Definition bind {A B} (m : Prog A) (k : A -> Prog B) : Prog B :=
  fun st =>
    match m st with
    | Some (a, st') => k a st'
    | None => None
    end.

Definition crash {A} : Prog A := fun _ => None.

Definition lift {A} (o : option A) : Prog A :=
  match o with
  | Some a => ret a
  | None => crash
  end.

(** [db_query] as one uninterrupted call: NULL ([None]) when not
    connected, when the query fails, or when the library stores no
    result. The lock and unlock of [db_mutex] around these statements
    are modelled in [DbLock]. *)
Definition db_query (query : string) : Prog (option MYSQL_RES) :=
  fun db_conn =>
    match db_conn with
    | None => Some (None, None)
    | Some conn =>
        let (ok, conn1) := mysql_query conn query in
        if ok then
          let (result, conn2) := mysql_store_result conn1 in
          Some (result, Some conn2)
        else Some (None, Some conn1)
    end.

(** [db_execute]: -1 when not connected or when the query fails, else
    [(int) mysql_affected_rows(db_conn)]. *)
Definition db_execute (query : string) : Prog Z :=
  fun db_conn =>
    match db_conn with
    | None => Some (-1, None)
    | Some conn =>
        let (ok, conn1) := mysql_query conn query in
        if ok then Some (LibC.to_int (mysql_affected_rows conn1), Some conn1)
        else Some (-1, Some conn1)
    end.

End Handle.

Declare Scope prog_scope.
Delimit Scope prog_scope with prog.
Notation "x <- m ;; k" := (bind m (fun x => k))
  (at level 61, m at next level, right associativity) : prog_scope.

End Db.

(* ===================================================================== *)
(** * http_helpers.c: responses                                          *)
(* ===================================================================== *)

Module Http.

(** What is handed to [MHD_create_response_from_buffer]: either literal
    text, or [cJSON_PrintUnformatted] of a tree. *)
Inductive Body : Type :=
| Text (s : string)
| Printed (root : CJson.cJSON).

Record Response : Type := mk_response { status : Z; body : Body }.

Definition send_json_response (status_code : Z) (json_body : Body) : Response :=
  mk_response status_code json_body.

Definition dquote : string := String (ascii_of_nat 34) EmptyString.

Definition send_error_response (status_code : Z) (error_message : string) : Response :=
  send_json_response status_code
    (Text (LibC.snprintf 512
       ("{" ++ dquote ++ "success" ++ dquote ++ ": false, "
            ++ dquote ++ "error" ++ dquote ++ ": "
            ++ dquote ++ error_message ++ dquote ++ "}"))).

End Http.

(* ===================================================================== *)
(** * routes.c: the endpoint handlers                                    *)
(* ===================================================================== *)

Module Routes.
Import CJson Db Http.
Local Open Scope prog_scope.

(** [row[i]] *)
Definition cell (row : MYSQL_ROW) (i : nat) : option string := nth i row None.

(** [row[i] ? row[i] : ""] as a string node. *)
Definition text_cell (row : MYSQL_ROW) (i : nat) : cJSON :=
  Str (match cell row i with Some s => s | None => "" end).

(** [row[i] ? atoi(row[i]) : 0] as a number node. *)
Definition int_cell (row : MYSQL_ROW) (i : nat) : cJSON :=
  Number (match cell row i with Some s => LibC.atoi s | None => 0 end).

(** [row[i] ? atof(row[i]) : 0] as a number node. *)
Definition real_cell (row : MYSQL_ROW) (i : nat) : cJSON :=
  match cell row i with Some s => Real s | None => Number 0 end.

(** [atoi(row[0])], which is not guarded: a NULL cell is dereferenced. *)
Definition id_cell (row : MYSQL_ROW) : option Z := option_map LibC.atoi (cell row 0).

(** [while ((row = mysql_fetch_row(result)) != NULL) { ... append ... }] *)
Fixpoint fetch_all (make : MYSQL_ROW -> option cJSON) (result : MYSQL_RES)
  (array : list cJSON) : option (list cJSON) :=
  match result with
  | [] => Some array
  | row :: result' =>
      match make row with
      | Some item => fetch_all make result' (array ++ [item])
      | None => None
      end
  end.

Definition handle_health : Response :=
  send_json_response 200
    (Printed (Object [("status", Str "ok"); ("service", Str "diet-api-c")])).

Definition category_members (row : MYSQL_ROW) : option (list (string * cJSON)) :=
  match id_cell row with
  | Some id =>
      Some [("id", Number id); ("name", text_cell row 1); ("icon", text_cell row 2);
            ("color", text_cell row 3); ("sort_order", int_cell row 4)]
  | None => None
  end.

Definition food_members (row : MYSQL_ROW) : option (list (string * cJSON)) :=
  match id_cell row with
  | Some id =>
      Some [("id", Number id); ("name", text_cell row 1);
            ("category_id", int_cell row 2); ("calories", real_cell row 3);
            ("protein", real_cell row 4); ("carbs", real_cell row 5);
            ("fat", real_cell row 6)]
  | None => None
  end.

Definition list_response (key : string) (items : list cJSON) : Response :=
  send_json_response 200
    (Printed (Object [("success", Bool true); (key, Array items);
                      ("count", Number (cJSON_GetArraySize (Some (Array items))))])).

Section Handlers.
Context {lib : MySQL}.

Definition handle_list_categories : Prog Response :=
  result <- db_query ("SELECT id, name, icon, color, sort_order "
                      ++ "FROM food_categories ORDER BY sort_order") ;;
  match result with
  | None => ret (send_error_response 500 "Database error")
  | Some rows =>
      categories <- lift (fetch_all (fun row => option_map Object (category_members row)) rows []) ;;
      ret (list_response "categories" categories)
  end.

Definition handle_get_category (id : Z) : Prog Response :=
  let query := LibC.snprintf 256
      ("SELECT id, name, icon, color, sort_order "
       ++ "FROM food_categories WHERE id = " ++ LibC.fmt_d id) in
  result <- db_query query ;;
  match result with
  | None => ret (send_error_response 500 "Database error")
  | Some [] => ret (send_error_response 404 "Category not found")
  | Some (row :: _) =>
      category <- lift (category_members row) ;;
      ret (send_json_response 200
             (Printed (Object [("success", Bool true); ("category", Object category)])))
  end.

(** The [limit] query parameter of GET /api/foods. *)
Definition foods_limit (limit_str : option string) : Z :=
  match limit_str with
  | None => 100
  | Some s =>
      let limit := LibC.atoi s in
      if (limit <=? 0) || (limit >? 1000) then 100 else limit
  end.

Definition foods_where (category_id_str search : option string) : string :=
  let where_clause :=
    match category_id_str with
    | Some s => LibC.snprintf 512 (" WHERE category_id = " ++ LibC.fmt_d (LibC.atoi s))
    | None => ""
    end in
  let has_where := match category_id_str with Some _ => true | None => false end in
  match search with
  | Some pat =>
      if (0 <? Z.of_nat (String.length pat)) then
        if has_where then
          where_clause ++
            LibC.snprintf (512 - String.length where_clause)
              (" AND name LIKE '%" ++ pat ++ "%'")
        else LibC.snprintf 512 (" WHERE name LIKE '%" ++ pat ++ "%'")
      else where_clause
  | None => where_clause
  end.

Definition foods_query (category_id_str search limit_str : option string) : string :=
  LibC.snprintf 1024
    ("SELECT id, name, category_id, calories_per_100g, protein_per_100g, "
     ++ "carbs_per_100g, fat_per_100g FROM food_items"
     ++ foods_where category_id_str search
     ++ " ORDER BY name LIMIT " ++ LibC.fmt_d (foods_limit limit_str)).

(** [args] is [MHD_lookup_connection_value(connection,
    MHD_GET_ARGUMENT_KIND, key)]; [None] is NULL. *)
Definition handle_list_foods (args : string -> option string) : Prog Response :=
  let category_id_str := args "category_id" in
  let search := args "search" in
  let limit_str := args "limit" in
  result <- db_query (foods_query category_id_str search limit_str) ;;
  match result with
  | None => ret (send_error_response 500 "Database error")
  | Some rows =>
      foods <- lift (fetch_all (fun row => option_map Object (food_members row)) rows []) ;;
      ret (list_response "foods" foods)
  end.

Definition handle_get_food (id : Z) : Prog Response :=
  let query := LibC.snprintf 256
      ("SELECT id, name, category_id, calories_per_100g, protein_per_100g, "
       ++ "carbs_per_100g, fat_per_100g FROM food_items WHERE id = " ++ LibC.fmt_d id) in
  result <- db_query query ;;
  match result with
  | None => ret (send_error_response 500 "Database error")
  | Some [] => ret (send_error_response 404 "Food not found")
  | Some (row :: _) =>
      food <- lift (food_members row) ;;
      ret (send_json_response 200
             (Printed (Object [("success", Bool true); ("food", Object food)])))
  end.


(** ** GET /api/templates/{id}/full *)

Definition template_members (row : MYSQL_ROW) : option (list (string * cJSON)) :=
  match id_cell row with
  | Some id =>
      Some [("id", Number id); ("code", text_cell row 1); ("name", text_cell row 2);
            ("description", text_cell row 3); ("segment", text_cell row 4);
            ("type", text_cell row 5); ("duration_days", int_cell row 6);
            ("calories_target", int_cell row 7)]
  | None => None
  end.

(** A day as the first loop leaves it: its own columns and an empty
    ["meals"] array. The pair carries [day_ids[day_count]]. *)
Definition day_object (row : MYSQL_ROW) : option (Z * cJSON) :=
  match id_cell row with
  | Some id =>
      Some (id, Object [("id", Number id); ("day_number", int_cell row 1);
                        ("day_name", text_cell row 2); ("meals", Array [])])
  | None => None
  end.

Definition meal_object (row : MYSQL_ROW) : option (Z * cJSON) :=
  match id_cell row with
  | Some id =>
      Some (id, Object [("id", Number id); ("meal_type", text_cell row 1);
                        ("meal_order", int_cell row 2);
                        ("time_suggestion", text_cell row 3); ("items", Array [])])
  | None => None
  end.

Definition item_object (row : MYSQL_ROW) : option cJSON :=
  match id_cell row with
  | Some id =>
      Some (Object [("id", Number id); ("food_item_id", int_cell row 1);
                    ("food_name", text_cell row 2);
                    ("portion_grams_min", int_cell row 3);
                    ("portion_grams_max", int_cell row 4)])
  | None => None
  end.

(** [while ((row = mysql_fetch_row(result)) != NULL && count < bound)]:
    the loop that fills [days_arr]/[day_ids] (bound 100) and
    [meals_arr]/[meal_ids] (bound 50). *)
Fixpoint collect (bound : nat) (make : MYSQL_ROW -> option (Z * cJSON))
  (result : MYSQL_RES) (count : nat) (array : list cJSON) (ids : list Z)
  : option (list cJSON * list Z * nat) :=
  match result with
  | [] => Some (array, ids, count)
  | row :: result' =>
      if Nat.ltb count bound then
        match make row with
        | Some (id, obj) => collect bound make result' (S count) (array ++ [obj]) (ids ++ [id])
        | None => None
        end
      else Some (array, ids, count)
  end.

(** [for (int i = start; i < start + remaining; i++) body], the body
    acting on the array the loop walks. *)
Fixpoint for_loop (remaining : nat) (i : nat)
  (body : nat -> list cJSON -> Prog (list cJSON)) (array : list cJSON)
  : Prog (list cJSON) :=
  match remaining with
  | O => ret array
  | S remaining' =>
      array' <- body i array ;;
      for_loop remaining' (S i) body array'
  end.

(** The parent array after the child array [name] of its element [index]
    has been filled in place. *)
Definition store_children (array : list cJSON) (index : nat) (element : option cJSON)
  (name : string) (children : list cJSON) : list cJSON :=
  match element with
  | Some obj => set_nth index (set_member obj name (Array children)) array
  | None => array
  end.

Definition items_sql (meal_id : Z) : string :=
  LibC.snprintf 512
    ("SELECT mi.id, mi.food_item_id, f.name, mi.portion_grams_min, mi.portion_grams_max "
     ++ "FROM diet_meal_items mi "
     ++ "JOIN food_items f ON mi.food_item_id = f.id "
     ++ "WHERE mi.meal_id = " ++ LibC.fmt_d meal_id ++ " ORDER BY mi.sort_order").

Definition meals_sql (day_id : Z) : string :=
  LibC.snprintf 512
    ("SELECT id, meal_type, meal_order, time_suggestion "
     ++ "FROM diet_meals WHERE day_id = " ++ LibC.fmt_d day_id ++ " ORDER BY meal_order").

Definition days_sql (id : Z) : string :=
  LibC.snprintf 512
    ("SELECT id, day_number, day_name FROM diet_days WHERE template_id = "
     ++ LibC.fmt_d id ++ " ORDER BY day_number").

Definition template_sql (id : Z) : string :=
  LibC.snprintf 512
    ("SELECT id, code, name, description, segment, type, duration_days, calories_target "
     ++ "FROM diet_templates WHERE id = " ++ LibC.fmt_d id).

(** Body of the inner loop: the items of meal [j]. *)
Definition meal_body (meal_ids : list Z) (j : nat) (meals_arr : list cJSON)
  : Prog (list cJSON) :=
  let meal_obj := cJSON_GetArrayItem (Some (Array meals_arr)) j in
  let items_arr := cJSON_GetObjectItem meal_obj "items" in
  result <- db_query (items_sql (nth j meal_ids 0)) ;;
  match result with
  | None => ret meals_arr
  | Some rows =>
      items <- lift (fetch_all item_object rows (children_of items_arr)) ;;
      ret (store_children meals_arr j meal_obj "items" items)
  end.

(** Body of the outer loop: the meals of day [i], then their items. *)
Definition day_body (day_ids : list Z) (i : nat) (days_arr : list cJSON)
  : Prog (list cJSON) :=
  let day_obj := cJSON_GetArrayItem (Some (Array days_arr)) i in
  let meals_arr := cJSON_GetObjectItem day_obj "meals" in
  result <- db_query (meals_sql (nth i day_ids 0)) ;;
  match result with
  | None => ret days_arr
  | Some rows =>
      collected <- lift (collect 50 meal_object rows 0 (children_of meals_arr) []) ;;
      let '(meals, meal_ids, meal_count) := collected in
      meals' <- for_loop meal_count 0 (meal_body meal_ids) meals ;;
      ret (store_children days_arr i day_obj "meals" meals')
  end.

Definition template_response (template : list (string * cJSON)) (days : list cJSON)
  : Response :=
  send_json_response 200
    (Printed (Object [("success", Bool true);
                      ("template", Object (template ++ [("days", Array days)]))])).

Definition handle_get_template_full (id : Z) : Prog Response :=
  result <- db_query (template_sql id) ;;
  match result with
  | None => ret (send_error_response 500 "Database error")
  | Some [] => ret (send_error_response 404 "Template not found")
  | Some (row :: _) =>
      template <- lift (template_members row) ;;
      result <- db_query (days_sql id) ;;
      match result with
      | None => ret (send_error_response 500 "Database error")
      | Some rows =>
          collected <- lift (collect 100 day_object rows 0 [] []) ;;
          let '(days, day_ids, day_count) := collected in
          days' <- for_loop day_count 0 (day_body day_ids) days ;;
          ret (template_response template days')
      end
  end.

(** ** POST /api/benchmark/bulk-insert *)

Definition insert_sql (meal_id food_id portion_min portion_max sort_order : Z) : string :=
  LibC.snprintf 1024
    ("INSERT INTO diet_meal_items (meal_id, food_item_id, portion_grams_min, "
     ++ "portion_grams_max, sort_order) "
     ++ "VALUES (" ++ LibC.fmt_d meal_id ++ ", " ++ LibC.fmt_d food_id ++ ", "
     ++ LibC.fmt_d portion_min ++ ", " ++ LibC.fmt_d portion_max ++ ", "
     ++ LibC.fmt_d sort_order ++ ")").

(** An entry passes the check in the loop when its three required
    members are number nodes. *)
Definition item_is_valid (item : option cJSON) : bool :=
  cJSON_IsNumber (cJSON_GetObjectItem item "food_item_id")
  && cJSON_IsNumber (cJSON_GetObjectItem item "portion_grams_min")
  && cJSON_IsNumber (cJSON_GetObjectItem item "portion_grams_max").

Definition item_sql (meal_id : Z) (i : nat) (item : option cJSON) : string :=
  let sort_order := cJSON_GetObjectItem item "sort_order" in
  insert_sql meal_id
    (valueint (cJSON_GetObjectItem item "food_item_id"))
    (valueint (cJSON_GetObjectItem item "portion_grams_min"))
    (valueint (cJSON_GetObjectItem item "portion_grams_max"))
    (if cJSON_IsNumber sort_order then valueint sort_order else Z.of_nat i).

(** One turn of the insert loop; [inserted] is the running counter. *)
Definition insert_body (meal_id : Z) (items_arr : option cJSON) (i : nat) (inserted : Z)
  : Prog Z :=
  let item := cJSON_GetArrayItem items_arr i in
  if item_is_valid item then
    affected <- db_execute (item_sql meal_id i item) ;;
    if affected >=? 0 then ret (inserted + 1) else ret inserted
  else ret inserted.

Fixpoint insert_loop (remaining : nat) (i : nat) (meal_id : Z)
  (items_arr : option cJSON) (inserted : Z) : Prog Z :=
  match remaining with
  | O => ret inserted
  | S remaining' =>
      inserted' <- insert_body meal_id items_arr i inserted ;;
      insert_loop remaining' (S i) meal_id items_arr inserted'
  end.

Definition inserted_response (inserted : Z) : Response :=
  send_json_response 201
    (Printed (Object [("success", Bool true); ("inserted_count", Number inserted)])).

(** [cJSON_Parse] is the library's parser; [None] is its NULL. *)
Definition handle_bulk_insert (cJSON_Parse : string -> option cJSON)
  (post_data : option string) : Prog Response :=
  match post_data with
  | None => ret (send_error_response 400 "Missing request body")
  | Some text =>
      match cJSON_Parse text with
      | None => ret (send_error_response 400 "Invalid JSON")
      | Some json_input =>
          let meal_id_json := cJSON_GetObjectItem (Some json_input) "meal_id" in
          let items_arr := cJSON_GetObjectItem (Some json_input) "items" in
          if negb (cJSON_IsNumber meal_id_json) || negb (cJSON_IsArray items_arr) then
            ret (send_error_response 400 "Invalid request format")
          else
            let meal_id := valueint meal_id_json in
            let items_count := cJSON_GetArraySize items_arr in
            inserted <- insert_loop (Z.to_nat items_count) 0 meal_id items_arr 0 ;;
            ret (inserted_response inserted)
      end
  end.

End Handlers.
End Routes.

(* ===================================================================== *)
(** * main.c: path parameters, body collection and dispatch              *)
(* ===================================================================== *)

Module Main.
Import CJson Db Http.

Definition extract_id_from_path (url prefix : string) : Z :=
  if negb (LibC.has_prefix prefix url) then -1
  else
    let id_str := LibC.after_prefix prefix url in
    match id_str with
    | EmptyString => -1
    | _ => LibC.atoi id_str
    end.

Definition MAX_POST_SIZE : Z := 1024 * 1024.

(** [struct connection_info]; [post_data = None] is the NULL buffer that
    [calloc] leaves. *)
Record connection_info : Type := mk_connection_info
  { post_data : option string; post_data_len : Z }.

Definition extract_template_id (url : string) : Z :=
  let prefix := "/api/templates/" in
  if negb (LibC.has_prefix prefix url) then -1
  else
    let id_start := LibC.after_prefix prefix url in
    let parsed := LibC.strtol id_start in
    if negb (LibC.converted parsed) || negb (LibC.streq (LibC.endstr parsed) "/full")
    then -1
    else LibC.to_int (LibC.value parsed).

(** What one invocation of [request_handler] does, before the chosen
    route handler runs: hand a response of its own to
    [send_json_response]/[send_error_response] and return what that
    returns ([Send]), return [MHD_YES] or [MHD_NO] with nothing queued,
    or call one of the route handlers. What libmicrohttpd does with a
    queued response lies outside this model. *)
Inductive Action : Type :=
| Send (r : Response)
| Yes
| No
| Health
| ListCategories
| GetCategory (id : Z)
| ListFoods
| GetFood (id : Z)
| GetTemplateFull (id : Z)
| BulkInsert (post_data : string) (post_data_size : Z).

(** The bytes a C-string reader sees in a buffer: up to the first NUL. *)
Fixpoint c_string (buffer : string) : string :=
  match buffer with
  | String c rest => if (LibC.code c =? 0) then EmptyString else String c (c_string rest)
  | EmptyString => EmptyString
  end.

(** The routing of a completed POST body. *)
Definition route_post (url : string) (con_info : connection_info) : Action :=
  if LibC.streq url "/api/benchmark/bulk-insert" then
    BulkInsert (match post_data con_info with
                | Some data => c_string data
                | None => ""
                end)
               (post_data_len con_info)
  else Send (send_error_response 404 "Not found").

(** The routes tried, in order, for a request that is neither OPTIONS nor
    POST. A parameterized route whose id is not positive falls through
    to the routes after it. *)
Definition route_other (method url : string) : Action :=
  let is_get := LibC.streq method "GET" in
  if LibC.streq url "/health" && is_get then Health
  else if LibC.streq url "/api/categories" && is_get then ListCategories
  else
    let category :=
      if LibC.has_prefix "/api/categories/" url && is_get then
        let id := extract_id_from_path url "/api/categories/" in
        if id >? 0 then Some (GetCategory id) else None
      else None in
    match category with
    | Some action => action
    | None =>
        if LibC.streq url "/api/foods" && is_get then ListFoods
        else
          let food :=
            if LibC.has_prefix "/api/foods/" url && is_get then
              let id := extract_id_from_path url "/api/foods/" in
              if id >? 0 then Some (GetFood id) else None
            else None in
          match food with
          | Some action => action
          | None =>
              let template :=
                if is_get then
                  let template_id := extract_template_id url in
                  if template_id >? 0 then Some (GetTemplateFull template_id) else None
                else None in
              match template with
              | Some action => action
              | None => Send (send_error_response 404 "Not found")
              end
          end
    end.

(** One invocation of [request_handler] up to the choice of action.
    [upload_data] holds the [*upload_data_size] bytes MHD presents;
    [alloc_ok] tells whether the [calloc]/[realloc] of this invocation
    succeeds. Returns the action, the new [*con_cls] and the new
    [*upload_data_size]. *)
Definition dispatch (method url upload_data : string) (alloc_ok : bool)
  (con_cls : option connection_info)
  : Action * option connection_info * Z :=
  let upload_data_size := Z.of_nat (String.length upload_data) in
  if LibC.streq method "OPTIONS" then
    (Send (send_json_response 200 (Text "{}")), con_cls, upload_data_size)
  else if LibC.streq method "POST" then
    match con_cls with
    | None =>
        if alloc_ok
        then (Yes, Some (mk_connection_info None 0), upload_data_size)
        else (No, None, upload_data_size)
    | Some con_info =>
        if upload_data_size >? 0 then
          if LibC.size_add (post_data_len con_info) upload_data_size >? MAX_POST_SIZE then
            (Send (send_error_response 413 "Request body too large"), None, upload_data_size)
          else if alloc_ok then
            let old := match post_data con_info with Some d => d | None => "" end in
            (Yes,
             Some (mk_connection_info
                     (Some (old ++ upload_data)%string)
                     (LibC.size_add (post_data_len con_info) upload_data_size)),
             0)
          else (No, None, upload_data_size)
        else (route_post url con_info, None, upload_data_size)
    end
  else (route_other method url, con_cls, upload_data_size).

Section Serve.
Context {lib : MySQL}.
Variable cJSON_Parse : string -> option cJSON.
Variable args : string -> option string.

(** The outcome of an invocation: a queued response, or a bare
    [MHD_YES]/[MHD_NO]. *)
Inductive Outcome : Type :=
| Queued (r : Response)
| Continue
| Abort.

Definition perform (action : Action) : Prog Outcome :=
  match action with
  | Send r => ret (Queued r)
  | Yes => ret Continue
  | No => ret Abort
  | Health => ret (Queued Routes.handle_health)
  | ListCategories => bind Routes.handle_list_categories (fun r => ret (Queued r))
  | GetCategory id => bind (Routes.handle_get_category id) (fun r => ret (Queued r))
  | ListFoods => bind (Routes.handle_list_foods args) (fun r => ret (Queued r))
  | GetFood id => bind (Routes.handle_get_food id) (fun r => ret (Queued r))
  | GetTemplateFull id => bind (Routes.handle_get_template_full id) (fun r => ret (Queued r))
  | BulkInsert data _ =>
      bind (Routes.handle_bulk_insert cJSON_Parse (Some data)) (fun r => ret (Queued r))
  end.

Definition request_handler (method url upload_data : string) (alloc_ok : bool)
  (con_cls : option connection_info)
  : Prog (Outcome * option connection_info * Z) :=
  let '(action, con_cls', size') := dispatch method url upload_data alloc_ok con_cls in
  bind (perform action) (fun outcome => ret (outcome, con_cls', size')).

End Serve.

(** libmicrohttpd's calling sequence for one request: the handler is
    invoked with no data when the headers are in, then once per body
    chunk, then once more with no data; the sequence ends at the first
    invocation that does not return a bare [MHD_YES]. [calls] pairs each
    invocation's data with its allocation outcome. Returns the actions
    taken and the final [*con_cls]. *)
Fixpoint run_calls (method url : string) (calls : list (string * bool))
  (con_cls : option connection_info) : list Action * option connection_info :=
  match calls with
  | [] => ([], con_cls)
  | (data, alloc_ok) :: calls' =>
      let '(action, con_cls', _) := dispatch method url data alloc_ok con_cls in
      match action with
      | Yes =>
          let (trace, final) := run_calls method url calls' con_cls' in
          (action :: trace, final)
      | _ => ([action], con_cls')
      end
  end.

(** The invocations of one request, numbered from [n]; [alloc] tells for
    each number whether that invocation's allocation succeeds. *)
Fixpoint number_calls (n : nat) (alloc : nat -> bool) (datas : list string)
  : list (string * bool) :=
  match datas with
  | [] => []
  | data :: datas' => (data, alloc n) :: number_calls (S n) alloc datas'
  end.

Definition exchange (method url : string) (chunks : list string) (alloc : nat -> bool)
  : list Action * option connection_info :=
  run_calls method url (number_calls 0 alloc ("" :: chunks ++ [""])) None.

End Main.

(* ===================================================================== *)
(** * db.c under threads: [db_mutex] around [db_query] and [db_execute]  *)
(* ===================================================================== *)

Module DbLock.
Import Db.

Inductive operation : Type := Query | Execute.

(** What a call hands back: the result set of [db_query] or the [int]
    of [db_execute]. *)
Inductive returned : Type :=
| Rows (result : option MYSQL_RES)
| Affected (n : Z).

Definition failure (op : operation) : returned :=
  match op with
  | Query => Rows None
  | Execute => Affected (-1)
  end.

(** Where a worker thread stands with respect to [db_query]/[db_execute]:
    outside of both (with what its last call returned), or inside one of
    them just before the named statement. *)
Inductive point : Type :=
| Outside (last : option returned)
| AtLock (op : operation) (query : string)
| AtCheck (op : operation) (query : string)
| AtSend (op : operation) (query : string)
| AtFetch (op : operation)
| AtUnlock (ret : returned).

(** Between [pthread_mutex_lock] returning and [pthread_mutex_unlock]. *)
Definition in_section (p : point) : bool :=
  match p with
  | AtCheck _ _ | AtSend _ _ | AtFetch _ | AtUnlock _ => true
  | Outside _ | AtLock _ _ => false
  end.

(** What happens on the MySQL session. *)
Inductive event : Type :=
| Sent (thread : nat) (ok : bool)
| Fetched (thread : nat).

Section Machine.
Context {lib : MySQL}.

Record world : Type := mk_world
  { mutex : option nat;          (* the thread that holds [db_mutex] *)
    db_conn : db_state;
    at_point : nat -> point }.

Definition move (w : world) (t : nat) (p : point) : nat -> point :=
  fun u => if Nat.eqb u t then p else at_point w u.

(** One statement of thread [t]. A thread at [pthread_mutex_lock] while
    the mutex is held does not move. *)
Definition step (w : world) (t : nat) : world * list event :=
  match at_point w t with
  | Outside _ => (w, [])
  | AtLock op q =>
      match mutex w with
      | None => (mk_world (Some t) (db_conn w) (move w t (AtCheck op q)), [])
      | Some _ => (w, [])
      end
  | AtCheck op q =>
      match db_conn w with
      | None => (mk_world (mutex w) (db_conn w) (move w t (AtUnlock (failure op))), [])
      | Some _ => (mk_world (mutex w) (db_conn w) (move w t (AtSend op q)), [])
      end
  | AtSend op q =>
      match db_conn w with
      | None => (w, [])
      | Some conn =>
          let (ok, conn1) := mysql_query conn q in
          (mk_world (mutex w) (Some conn1)
             (move w t (if ok then AtFetch op else AtUnlock (failure op))),
           [Sent t ok])
      end
  | AtFetch op =>
      match db_conn w with
      | None => (w, [])
      | Some conn =>
          match op with
          | Query =>
              let (result, conn2) := mysql_store_result conn in
              (mk_world (mutex w) (Some conn2) (move w t (AtUnlock (Rows result))),
               [Fetched t])
          | Execute =>
              (mk_world (mutex w) (Some conn)
                 (move w t (AtUnlock (Affected (LibC.to_int (mysql_affected_rows conn))))),
               [Fetched t])
          end
      end
  | AtUnlock ret =>
      (mk_world None (db_conn w) (move w t (Outside (Some ret))), [])
  end.

(** A worker outside the two functions calls one of them. *)
Definition call (w : world) (t : nat) (op : operation) (q : string) : world :=
  match at_point w t with
  | Outside _ => mk_world (mutex w) (db_conn w) (move w t (AtLock op q))
  | _ => w
  end.

(** What the scheduler lets happen next. *)
Inductive turn : Type :=
| Call (thread : nat) (op : operation) (query : string)
| Step (thread : nat).

Fixpoint run (schedule : list turn) (w : world) : world * list event :=
  match schedule with
  | [] => (w, [])
  | Call t op q :: schedule' => run schedule' (call w t op q)
  | Step t :: schedule' =>
      let (w1, e1) := step w t in
      let (w2, e2) := run schedule' w1 in
      (w2, e1 ++ e2)
  end.

(** All workers outside, the mutex free. *)
Definition start (conn : db_state) : world :=
  mk_world None conn (fun _ => Outside None).

(** A sequence of session events in which every successful send is
    followed at once by the fetch of the same thread; [pending] is the
    thread whose send is still waiting for its fetch. *)
Fixpoint serial (pending : option nat) (events : list event) : bool :=
  match events with
  | [] => true
  | Sent t ok :: events' =>
      match pending with
      | None => serial (if ok then Some t else None) events'
      | Some _ => false
      end
  | Fetched t :: events' =>
      match pending with
      | Some u => Nat.eqb t u && serial None events'
      | None => false
      end
  end.

(** The mutex is held exactly by the one thread that is between lock and
    unlock, and by nobody when no thread is. *)
Definition exclusive (w : world) : Prop :=
  match mutex w with
  | None => forall t, in_section (at_point w t) = false
  | Some holder => forall t, in_section (at_point w t) = true <-> t = holder
  end.

(** [pending] names the thread that has sent and not yet fetched. *)
Definition awaiting (w : world) (pending : option nat) : Prop :=
  forall t, (exists op, at_point w t = AtFetch op) <-> pending = Some t.

(** What a call hands back when it runs with the mutex free and nobody
    else moving, against what the sequential function computes. *)
Definition sequential (op : operation) (q : string) (st : db_state)
  : option (returned * db_state) :=
  match op with
  | Query => option_map (fun r => (Rows (fst r), snd r)) (db_query q st)
  | Execute => option_map (fun r => (Affected (fst r), snd r)) (db_execute q st)
  end.

(** Thread [t] is back outside with [ret] in hand, the mutex is free and
    the session is [st]. *)
Definition finished (w : world) (t : nat) (ret : returned) (st : db_state) : Prop :=
  at_point w t = Outside (Some ret) /\ mutex w = None /\ db_conn w = st.

End Machine.
End DbLock.

(* ===================================================================== *)
(** * Vocabulary of the properties                                       *)
(* ===================================================================== *)

Module Spec.
Import CJson Db Http.

(** Every character of [s] satisfies [p]. *)
Fixpoint all_chars (p : ascii -> bool) (s : string) : bool :=
  match s with
  | String c s' => p c && all_chars p s'
  | EmptyString => true
  end.

(** The number a run of decimal digits denotes, continuing from [acc]. *)
Fixpoint decimal (acc : Z) (digits : string) : Z :=
  match digits with
  | String c s' => decimal (10 * acc + LibC.digit_value c) s'
  | EmptyString => acc
  end.

(** Whether [s] begins with a character satisfying [p]. *)
Definition starts_with (p : ascii -> bool) (s : string) : bool :=
  match s with
  | String c _ => p c
  | EmptyString => false
  end.

Definition is_sign (s : string) : bool :=
  String.eqb s "" || String.eqb s "+" || String.eqb s "-".

Definition signed (sign : string) (magnitude : Z) : Z :=
  if String.eqb sign "-" then - magnitude else magnitude.

(** [integer_text t n]: the text [t] is an integer in the form [strtol]
    reads in base 10 (blanks, an optional sign, one digit or more) and
    [n] is the [long] it stands for, saturated at the ends of the range. *)
Inductive integer_text : string -> Z -> Prop :=
| integer_text_intro (blanks sign digits : string) :
    all_chars LibC.isspace blanks = true ->
    is_sign sign = true ->
    digits <> "" ->
    all_chars LibC.isdigit digits = true ->
    integer_text (blanks ++ sign ++ digits)
                 (LibC.clamp_long (signed sign (decimal 0 digits))).

(** A path remainder that is a positive decimal integer and nothing
    else: digits only, at least one, denoting a number above zero. *)
Definition valid_positive_decimal (s : string) : bool :=
  negb (String.eqb s "") && all_chars LibC.isdigit s && (decimal 0 s >? 0).

(** The query arguments [args] with the [limit] argument replaced. *)
Definition with_limit (args : string -> option string) (limit : option string)
  : string -> option string :=
  fun key => if String.eqb key "limit" then limit else args key.

(** ** The template aggregate *)

(** The row has a value in its first column. *)
Definition has_id (row : MYSQL_ROW) : bool :=
  match Routes.cell row 0 with Some _ => true | None => false end.

Definition the_id (row : MYSQL_ROW) : Z :=
  match Routes.id_cell row with Some id => id | None => 0 end.

(** A day, a meal and an item as their rows describe them; a day and a
    meal start with an empty array for their children. *)
Definition day_node (row : MYSQL_ROW) : cJSON :=
  Object [("id", Number (the_id row)); ("day_number", Routes.int_cell row 1);
          ("day_name", Routes.text_cell row 2); ("meals", Array [])].

Definition meal_node (row : MYSQL_ROW) : cJSON :=
  Object [("id", Number (the_id row)); ("meal_type", Routes.text_cell row 1);
          ("meal_order", Routes.int_cell row 2);
          ("time_suggestion", Routes.text_cell row 3); ("items", Array [])].

Definition item_node (row : MYSQL_ROW) : cJSON :=
  Object [("id", Number (the_id row)); ("food_item_id", Routes.int_cell row 1);
          ("food_name", Routes.text_cell row 2);
          ("portion_grams_min", Routes.int_cell row 3);
          ("portion_grams_max", Routes.int_cell row 4)].

(** What one turn of the items loop may do to the meal [a]: nothing, or
    append to its items one node per row of some result set. *)
Definition meal_step (a b : cJSON) : Prop :=
  b = a
  \/ exists item_rows,
       b = set_member a "items"
             (Array (children_of (cJSON_GetObjectItem (Some a) "items")
                     ++ map item_node item_rows)).

(** A meal of the response, for its row: without items, or with one item
    per row of some result set, however many. *)
Definition meal_filled (row : MYSQL_ROW) (m : cJSON) : Prop :=
  m = meal_node row
  \/ exists item_rows,
       m = set_member (meal_node row) "items" (Array (map item_node item_rows)).

(** What one turn of the meals loop may do to the day [a]: nothing, or
    replace its meals; when the day had none, the new meals stand for
    the first 50 rows of some result set. *)
Definition day_step (a b : cJSON) : Prop :=
  b = a
  \/ exists meal_rows meals,
       b = set_member a "meals" (Array meals)
       /\ (children_of (cJSON_GetObjectItem (Some a) "meals") = [] ->
           Forall2 meal_filled (firstn 50 meal_rows) meals).

(** A day of the response, for its row: without meals, or with meals
    standing for the first 50 rows of some result set. *)
Definition day_filled (row : MYSQL_ROW) (d : cJSON) : Prop :=
  d = day_node row
  \/ exists meal_rows meals,
       d = set_member (day_node row) "meals" (Array meals)
       /\ Forall2 meal_filled (firstn 50 meal_rows) meals.

Section Aggregate.
Context {lib : MySQL}.

(** The database never hands out a row with NULL in its first column
    (every statement of the handler selects a primary key there). *)
Definition rows_have_ids : Prop :=
  forall conn result conn',
    mysql_store_result conn = (Some result, conn') ->
    forallb has_id result = true.

End Aggregate.

(** ** The bulk writer, in the words of its specification *)

Inductive entry_outcome : Type := Skipped | Applied | Failed.

Definition required_members : list string :=
  ["food_item_id"; "portion_grams_min"; "portion_grams_max"].

(** The entry has a numeric food reference, min portion and max portion. *)
Definition has_required_numbers (item : cJSON) : bool :=
  forallb (fun name => cJSON_IsNumber (cJSON_GetObjectItem (Some item) name))
          required_members.

(** A payload with a numeric meal_id and an items array. *)
Definition well_formed_payload (doc : cJSON) : bool :=
  cJSON_IsNumber (cJSON_GetObjectItem (Some doc) "meal_id")
  && cJSON_IsArray (cJSON_GetObjectItem (Some doc) "items").

Definition count_applied (outcomes : list entry_outcome) : Z :=
  Z.of_nat (List.length (filter (fun o => match o with Applied => true | _ => false end)
                                outcomes)).

Section BulkWriter.
Context {lib : MySQL}.

(** An entry lacking a required number is skipped and nothing is sent to
    the database; any other entry is one write of its own, which the
    database accepts or not. *)
Definition apply_entry (meal_id : Z) (i : nat) (item : cJSON) (st : db_state)
  : entry_outcome * db_state :=
  if has_required_numbers item then
    match st with
    | None => (Failed, None)
    | Some conn =>
        let (ok, conn') := mysql_query conn (Routes.item_sql meal_id i (Some item)) in
        (if ok then Applied else Failed, Some conn')
    end
  else (Skipped, st).

(** The entries are handled in order, [i] being the position of the
    first; a failure does not stop the ones after it. *)
Fixpoint apply_batch (meal_id : Z) (i : nat) (items : list cJSON) (st : db_state)
  : list entry_outcome * db_state :=
  match items with
  | [] => ([], st)
  | item :: items' =>
      let (o, st1) := apply_entry meal_id i item st in
      let (os, st2) := apply_batch meal_id (S i) items' st1 in
      (o :: os, st2)
  end.

(** After a statement the session accepted, the affected-row count is a
    row count that fits an [int]. *)
Definition counts_rows : Prop :=
  forall conn q conn',
    mysql_query conn q = (true, conn') ->
    0 <= mysql_affected_rows conn' < 2 ^ 31.

End BulkWriter.

(** ** Sample sessions and payloads *)

(** A session that answers from a table: a statement fails when [fails]
    says so, the stored result of a statement is its [table] entry, and
    every accepted statement affects [affected] rows. The state is the
    text of the last statement. *)
Definition table_engine (fails : string -> bool) (table : string -> option MYSQL_RES)
  (affected : Z) : MySQL :=
  {| MYSQL := string;
     mysql_query := fun _ q => (negb (fails q), q);
     mysql_store_result := fun q => (table q, q);
     mysql_affected_rows := fun _ => affected |}.

(** A session on which every statement succeeds, with no result set. *)
Definition accepting_engine : MySQL :=
  table_engine (fun _ => false) (fun _ => None) 1.

(** A small catalog: template 1 has 101 days, numbered from 1. The
    meals of day 1 cannot be read; day 2 has the meals 7 and 8; meal 7
    has one item and the items of meal 8 cannot be read; the other days
    have no meals. Template 2 does not exist, the statement for template
    3 fails, and the days of template 4 cannot be read. *)
Definition template_row : MYSQL_ROW :=
  [Some "1"; Some "KETO"; Some "Keto"; None; Some "adult"; Some "loss";
   Some "7"; Some "1800"].

Definition day_row (n : nat) : MYSQL_ROW :=
  [Some (LibC.fmt_d (Z.of_nat n)); Some (LibC.fmt_d (Z.of_nat n)); Some "day"].

Definition meal_row (id : string) : MYSQL_ROW :=
  [Some id; Some "lunch"; Some "1"; Some "12:00"].

Definition item_row : MYSQL_ROW :=
  [Some "30"; Some "4"; Some "rice"; Some "100"; Some "150"].

Definition catalog_table (q : string) : option MYSQL_RES :=
  if String.eqb q (Routes.template_sql 1) then Some [template_row]
  else if String.eqb q (Routes.template_sql 4) then Some [template_row]
  else if String.eqb q (Routes.days_sql 1) then Some (map day_row (seq 1 101))
  else if String.eqb q (Routes.meals_sql 2) then Some [meal_row "7"; meal_row "8"]
  else if String.eqb q (Routes.items_sql 7) then Some [item_row]
  else Some [].

Definition catalog_fails (q : string) : bool :=
  String.eqb q (Routes.template_sql 3)
  || String.eqb q (Routes.days_sql 4)
  || String.eqb q (Routes.meals_sql 1)
  || String.eqb q (Routes.items_sql 8).

Definition catalog_engine : MySQL := table_engine catalog_fails catalog_table 1.

(** A crowded catalog: template 1 has 101 days, day 1 has 51 meals,
    numbered from 1, and meal 1 has 60 items; nothing fails. *)
Definition crowded_table (q : string) : option MYSQL_RES :=
  if String.eqb q (Routes.template_sql 1) then Some [template_row]
  else if String.eqb q (Routes.days_sql 1) then Some (map day_row (seq 1 101))
  else if String.eqb q (Routes.meals_sql 1)
       then Some (map (fun n => meal_row (LibC.fmt_d (Z.of_nat n))) (seq 1 51))
  else if String.eqb q (Routes.items_sql 1) then Some (repeat item_row 60)
  else Some [].

Definition crowded_engine : MySQL := table_engine (fun _ => false) crowded_table 1.

Definition quoted (s : string) : string := (dquote ++ s ++ dquote)%string.

Definition entry_text (food_key : string) : string :=
  ("{" ++ quoted food_key ++ ":7," ++ quoted "portion_grams_min" ++ ":50,"
       ++ quoted "portion_grams_max" ++ ":80}")%string.

Definition entry_doc (food_key : string) : cJSON :=
  Object [(food_key, Number 7); ("portion_grams_min", Number 50);
          ("portion_grams_max", Number 80)].

(** A batch of five entries; the second and the fourth name the food
    under a key the handler does not look for. *)
Definition sample_keys : list string :=
  ["food_item_id"; "food"; "food_item_id"; "food"; "food_item_id"].

Definition sample_text : string :=
  ("{" ++ quoted "meal_id" ++ ":3," ++ quoted "items" ++ ":["
       ++ String.concat "," (map entry_text sample_keys) ++ "]}")%string.

Definition sample_doc : cJSON :=
  Object [("meal_id", Number 3); ("items", Array (map entry_doc sample_keys))].

(** [cJSON_Parse] as far as the sample goes. *)
Definition sample_parse (text : string) : option cJSON :=
  if String.eqb text sample_text then Some sample_doc else None.

Definition no_args (_ : string) : option string := None.

(** Two workers calling at the same time, their statements interleaved. *)
Definition contended : list DbLock.turn :=
  [DbLock.Call 0 DbLock.Query "SELECT 1"; DbLock.Call 1 DbLock.Execute "DELETE FROM t";
   DbLock.Step 0; DbLock.Step 1; DbLock.Step 0; DbLock.Step 1; DbLock.Step 0; DbLock.Step 1].

Definition fresh_session : db_state (lib := accepting_engine) := Some ""%string.

(** ** Body chunks *)

Definition chunk_size (c : string) : Z := Z.of_nat (String.length c).

Definition total_size (chunks : list string) : Z :=
  fold_right (fun c n => chunk_size c + n) 0 chunks.

(** A chunk as libmicrohttpd presents it: not empty, and, like every
    object in memory, shorter than half the address space. *)
Definition sized (c : string) : Prop := 0 < chunk_size c < 2 ^ 63.

Definition buffer (ci : Main.connection_info) : string :=
  match Main.post_data ci with Some d => d | None => "" end.

Definition append_chunk (ci : Main.connection_info) (c : string) : Main.connection_info :=
  Main.mk_connection_info (Some (buffer ci ++ c)%string) (Main.post_data_len ci + chunk_size c).

(** The collector's state once [chunks] have been taken in, in order. *)
Definition collected (chunks : list string) : Main.connection_info :=
  fold_left append_chunk chunks (Main.mk_connection_info None 0).

Definition is_bulk_insert (a : Main.Action) : bool :=
  match a with
  | Main.BulkInsert _ _ => true
  | _ => false
  end.

Definition always (_ : nat) : bool := true.

Definition too_large : Main.Action :=
  Main.Send (send_error_response 413 "Request body too large").

(** A chunk of [n] bytes. *)
Fixpoint filler (n : nat) : string :=
  match n with
  | O => EmptyString
  | S n' => String "a" (filler n')
  end.

Definition not_found : Main.Action :=
  Main.Send (send_error_response 404 "Not found").

End Spec.

(* ===================================================================== *)
(** * config.c: configuration from the environment                       *)
(* ===================================================================== *)

Module Config.

(** The [Config] struct once [load_config] has filled it. The strings
    are the copies [strdup] returns, which the source takes as made. *)
Record Config : Type := mk_config
  { db_host : string; db_user : string; db_password : string;
    db_name : string; db_port : Z; server_port : Z }.

Section Environment.
(** [getenv]; [None] is NULL. *)
Variable getenv : string -> option string.

Definition get_env_or_default (name default_val : string) : string :=
  match getenv name with
  | None => default_val
  | Some EmptyString => default_val
  | Some val => val
  end.

Definition get_env_int_or_default (name : string) (default_val : Z) : Z :=
  match getenv name with
  | None => default_val
  | Some EmptyString => default_val
  | Some val => LibC.atoi val
  end.

(** [load_config]: the return value and the global [config]. *)
Definition load_config : Z * Config :=
  (0,
   mk_config (get_env_or_default "DB_HOST" "localhost")
             (get_env_or_default "DB_USER" "root")
             (get_env_or_default "DB_PASSWORD" "")
             (get_env_or_default "DB_NAME" "diet_api")
             (get_env_int_or_default "DB_PORT" 3306)
             (get_env_int_or_default "PORT" 8080)).

End Environment.

(** The environment with every variable that is set to the empty string
    removed. *)
Definition without_empty (getenv : string -> option string) : string -> option string :=
  fun name =>
    match getenv name with
    | Some EmptyString => None
    | other => other
    end.

End Config.

(* ===================================================================== *)
(** * db.c: opening and closing the handle                               *)
(* ===================================================================== *)

Module DbLife.
Import Db.

(** The connecting half of the client library: [mysql_init(NULL)] and
    [mysql_real_connect] with the fields of the configuration; [None] is
    the NULL either returns on failure. *)
Class Connector {lib : MySQL} : Type := {
  mysql_init : option MYSQL;
  mysql_real_connect : MYSQL -> Config.Config -> option MYSQL
}.

Section Life.
Context {lib : MySQL} {connector : Connector}.

(** [db_init]: the return value and the new [db_conn]. A handle that
    fails to connect is closed and forgotten. *)
Definition db_init (config : Config.Config) : Z * db_state :=
  match mysql_init with
  | None => (-1, None)
  | Some handle =>
      match mysql_real_connect handle config with
      | None => (-1, None)
      | Some conn => (0, Some conn)
      end
  end.

Definition db_get_connection (db_conn : db_state) : db_state := db_conn.

(** [db_cleanup]: a live handle is closed and the pointer cleared. *)
Definition db_cleanup (db_conn : db_state) : db_state :=
  match db_conn with
  | Some _ => None
  | None => None
  end.

End Life.
End DbLife.

(* ===================================================================== *)
(** * Vocabulary of the further properties                               *)
(* ===================================================================== *)

Module More.
Import CJson Db Http Spec.

(** ** Responses *)

(** The error envelope, untruncated. *)
Definition error_envelope (message : string) : string :=
  ("{" ++ dquote ++ "success" ++ dquote ++ ": false, "
       ++ dquote ++ "error" ++ dquote ++ ": "
       ++ dquote ++ message ++ dquote ++ "}")%string.

(** ** Rows as nodes *)

Definition category_node (row : MYSQL_ROW) : cJSON :=
  Object [("id", Number (the_id row)); ("name", Routes.text_cell row 1);
          ("icon", Routes.text_cell row 2); ("color", Routes.text_cell row 3);
          ("sort_order", Routes.int_cell row 4)].

Definition food_node (row : MYSQL_ROW) : cJSON :=
  Object [("id", Number (the_id row)); ("name", Routes.text_cell row 1);
          ("category_id", Routes.int_cell row 2); ("calories", Routes.real_cell row 3);
          ("protein", Routes.real_cell row 4); ("carbs", Routes.real_cell row 5);
          ("fat", Routes.real_cell row 6)].

Definition template_node_members (row : MYSQL_ROW) : list (string * cJSON) :=
  [("id", Number (the_id row)); ("code", Routes.text_cell row 1);
   ("name", Routes.text_cell row 2); ("description", Routes.text_cell row 3);
   ("segment", Routes.text_cell row 4); ("type", Routes.text_cell row 5);
   ("duration_days", Routes.int_cell row 6);
   ("calories_target", Routes.int_cell row 7)].

(** ** The statements of the read handlers *)

Definition categories_sql : string :=
  ("SELECT id, name, icon, color, sort_order "
   ++ "FROM food_categories ORDER BY sort_order")%string.

Definition category_sql (id : Z) : string :=
  LibC.snprintf 256
    ("SELECT id, name, icon, color, sort_order "
     ++ "FROM food_categories WHERE id = " ++ LibC.fmt_d id).

Definition food_sql (id : Z) : string :=
  LibC.snprintf 256
    ("SELECT id, name, category_id, calories_per_100g, protein_per_100g, "
     ++ "carbs_per_100g, fat_per_100g FROM food_items WHERE id = " ++ LibC.fmt_d id).

Definition foods_select : string :=
  ("SELECT id, name, category_id, calories_per_100g, protein_per_100g, "
   ++ "carbs_per_100g, fat_per_100g FROM food_items")%string.

Definition category_clause (category_id_str : string) : string :=
  (" WHERE category_id = " ++ LibC.fmt_d (LibC.atoi category_id_str))%string.

Definition single_response (key : string) (node : cJSON) : Response :=
  send_json_response 200 (Printed (Object [("success", Bool true); (key, node)])).

Definition list_of (key : string) (items : list cJSON) : Response :=
  send_json_response 200
    (Printed (Object [("success", Bool true); (key, Array items);
                      ("count", Number (Z.of_nat (List.length items)))])).

(** A small pantry: two categories and two foods; category 1 and food 5
    can be looked up, the statement for category 9 fails, every other
    lookup finds nothing. *)
Definition category_rows : MYSQL_RES :=
  [[Some "1"; Some "Fruit"; Some "apple"; Some "#f00"; Some "1"];
   [Some "2"; Some "Grain"; None; None; None]].

Definition food_rows : MYSQL_RES :=
  [[Some "5"; Some "Oats"; Some "2"; Some "389"; Some "16.9"; Some "66.3"; Some "6.9"];
   [Some "6"; Some "Pear"; Some "1"; Some "57"; None; Some "15"; Some "0.1"]].

Definition pantry_table (q : string) : option MYSQL_RES :=
  if String.eqb q categories_sql then Some category_rows
  else if String.eqb q (category_sql 1) then Some (firstn 1 category_rows)
  else if String.eqb q (food_sql 5) then Some (firstn 1 food_rows)
  else if String.eqb q (Routes.foods_query None None None) then Some food_rows
  else Some [].

Definition pantry_fails (q : string) : bool :=
  String.eqb q (category_sql 9) || String.eqb q (food_sql 9).

Definition pantry : MySQL := table_engine pantry_fails pantry_table 1.

(** ** The body collector *)

(** The collector's state agrees with its buffer and respects the cap. *)
Definition well_tracked (ci : Main.connection_info) : Prop :=
  Main.post_data_len ci = chunk_size (buffer ci)
  /\ Main.post_data_len ci <= Main.MAX_POST_SIZE.

Definition tracked (con_cls : option Main.connection_info) : Prop :=
  match con_cls with
  | Some ci => well_tracked ci
  | None => True
  end.

Definition not_nul (c : ascii) : bool := negb (LibC.code c =? 0).

(** The whole of a chunked body. *)
Definition joined (chunks : list string) : string := fold_right append "" chunks.

(** ** A database that answers by the statement alone *)

Section Table.
Variable fails : string -> bool.
Variable table : string -> option MYSQL_RES.

(** What [db_query] gets for a statement. *)
Definition answer (q : string) : option MYSQL_RES :=
  if fails q then None else table q.

(** Every row of every result set has a value in its first column. *)
Definition table_has_ids : Prop :=
  forall q rows, table q = Some rows -> forallb has_id rows = true.

(** A meal with the items the database has for it; a meal whose items
    cannot be read keeps its empty array. *)
Definition meal_full (row : MYSQL_ROW) : cJSON :=
  match answer (Routes.items_sql (the_id row)) with
  | Some item_rows => set_member (meal_node row) "items" (Array (map item_node item_rows))
  | None => meal_node row
  end.

(** A day with its first 50 meals, each filled. *)
Definition day_full (row : MYSQL_ROW) : cJSON :=
  match answer (Routes.meals_sql (the_id row)) with
  | Some meal_rows =>
      set_member (day_node row) "meals" (Array (map meal_full (firstn 50 meal_rows)))
  | None => day_node row
  end.

(** The whole answer for a template id. *)
Definition template_tree (id : Z) : Response :=
  match answer (Routes.template_sql id) with
  | None => send_error_response 500 "Database error"
  | Some [] => send_error_response 404 "Template not found"
  | Some (row :: _) =>
      match answer (Routes.days_sql id) with
      | None => send_error_response 500 "Database error"
      | Some day_rows =>
          Routes.template_response (template_node_members row)
            (map day_full (firstn 100 day_rows))
      end
  end.

End Table.

(** ** A database that records the statements it is sent *)

(** Every statement is accepted and appended to the log, which is the
    session state; one row is affected each time. *)
Definition recorder : MySQL :=
  {| MYSQL := list string;
     mysql_query := fun log q => (true, log ++ [q]);
     mysql_store_result := fun log => (None, log);
     mysql_affected_rows := fun _ => 1 |}.

(** The statements of a batch, in order: one for each entry that has its
    required numbers, carrying the entry's position [i] in the array. *)
Fixpoint batch_statements (meal_id : Z) (i : nat) (items : list cJSON) : list string :=
  match items with
  | [] => []
  | item :: items' =>
      (if has_required_numbers item
       then [Routes.item_sql meal_id i (Some item)] else [])
      ++ batch_statements meal_id (S i) items'
  end.

Definition count_valid (items : list cJSON) : Z :=
  Z.of_nat (List.length (filter has_required_numbers items)).

(** ** Handlers and the handle *)

Section Keeps.
Context {lib : MySQL}.

(** A computation that leaves the handle connected if it was, and null
    if it was. *)
Definition keeps_handle {A : Type} (m : Prog A) : Prop :=
  forall st a st', m st = Some (a, st') -> (st = None <-> st' = None).

End Keeps.

(** A library that opens a session only for the default port. *)
Definition default_port_only : DbLife.Connector (lib := pantry) :=
  DbLife.Build_Connector pantry
    (Some ""%string)
    (fun _ config => if Config.db_port config =? 3306 then Some "up"%string else None).

(** ** Workers around the mutex *)

(** How many turns of the schedule are statements of thread [t]. *)
Definition steps_of (t : nat) (schedule : list DbLock.turn) : nat :=
  List.length (filter (fun turn => match turn with
                                   | DbLock.Step u => Nat.eqb u t
                                   | DbLock.Call _ _ _ => false
                                   end) schedule).

(** Thread [t] starts no call in the schedule. *)
Definition calls_not (t : nat) (schedule : list DbLock.turn) : bool :=
  forallb (fun turn => match turn with
                       | DbLock.Call u _ _ => negb (Nat.eqb u t)
                       | DbLock.Step _ => true
                       end) schedule.

(** The statements a thread at point [p] still has before it is outside
    again, at most. *)
Definition need (p : DbLock.point) : nat :=
  match p with
  | DbLock.Outside _ => 0
  | DbLock.AtLock _ _ => 5
  | DbLock.AtCheck _ _ => 4
  | DbLock.AtSend _ _ => 3
  | DbLock.AtFetch _ => 2
  | DbLock.AtUnlock _ => 1
  end.

Section OnTrack.
Context {lib : MySQL}.

(** Thread [t], inside the section or just out of it, is on its way to
    hand back [ret]. *)
Definition on_track (w : DbLock.world) (t : nat) (ret : DbLock.returned) : Prop :=
  match DbLock.at_point w t with
  | DbLock.AtCheck op q =>
      exists st', DbLock.sequential op q (DbLock.db_conn w) = Some (ret, st')
  | DbLock.AtSend op q =>
      exists conn st',
        DbLock.db_conn w = Some conn
        /\ DbLock.sequential op q (Some conn) = Some (ret, st')
  | DbLock.AtFetch op =>
      exists conn,
        DbLock.db_conn w = Some conn
        /\ ret = match op with
                 | DbLock.Query => DbLock.Rows (fst (mysql_store_result conn))
                 | DbLock.Execute =>
                     DbLock.Affected (LibC.to_int (mysql_affected_rows conn))
                 end
  | DbLock.AtUnlock r => r = ret
  | DbLock.Outside (Some r) => r = ret
  | _ => False
  end.

(** While thread [t] is inside the section, the mutex discipline holds. *)
Definition guarded (w : DbLock.world) (t : nat) : Prop :=
  DbLock.in_section (DbLock.at_point w t) = true -> DbLock.exclusive w.

End OnTrack.

End More.

(* ===================================================================== *)
(** * Properties of libc's routines                                      *)
(* ===================================================================== *)

Module LibCFacts.
Import LibC Spec.

Lemma substring_all (s : string) : substring 0 (String.length s) s = s.
Proof.
  induction s as [|c s IH]; simpl; [reflexivity|].
  now rewrite IH.
Qed.

Lemma after_prefix_app (p r : string) : after_prefix p (p ++ r) = r.
Proof.
  unfold after_prefix.
  induction p as [|c p IH]; simpl.
  - rewrite Nat.sub_0_r. apply substring_all.
  - exact IH.
Qed.

Lemma has_prefix_app (p r : string) : has_prefix p (p ++ r) = true.
Proof.
  unfold has_prefix.
  induction p as [|c p IH]; simpl.
  - now destruct r.
  - destruct (ascii_dec c c) as [_|ne]; [exact IH | now elim ne].
Qed.

Lemma to_int_small (x : Z) : - 2 ^ 31 <= x < 2 ^ 31 -> to_int x = x.
Proof.
  intros H. unfold to_int.
  rewrite Z.mod_small by lia. lia.
Qed.

Lemma length_append (a b : string) :
  String.length (a ++ b) = (String.length a + String.length b)%nat.
Proof. induction a as [|x a IH]; simpl; [reflexivity | now rewrite IH]. Qed.

Lemma append_assoc (a b c : string) : ((a ++ b) ++ c = a ++ (b ++ c))%string.
Proof. induction a as [|x a IH]; simpl; [reflexivity | now rewrite IH]. Qed.

Lemma digit_is_plain (c : ascii) :
  isdigit c = true ->
  isspace c = false /\ Ascii.eqb c "-" = false /\ Ascii.eqb c "+" = false.
Proof.
  unfold isdigit, isspace. intros H.
  apply andb_true_iff in H as [lo hi].
  apply Z.leb_le in lo. apply Z.leb_le in hi.
  repeat split.
  - apply orb_false_iff. split.
    + apply Z.eqb_neq. lia.
    + apply andb_false_iff. right. apply Z.leb_gt. lia.
  - destruct (Ascii.eqb_spec c "-") as [->|]; [|reflexivity].
    compute in lo. now elim lo.
  - destruct (Ascii.eqb_spec c "+") as [->|]; [|reflexivity].
    compute in lo. now elim lo.
Qed.

Lemma skip_spaces_app (blanks rest : string) :
  all_chars isspace blanks = true ->
  starts_with isspace rest = false ->
  skip_spaces (blanks ++ rest) = rest.
Proof.
  intros Hb Hr.
  induction blanks as [|c b IH]; cbn [append all_chars skip_spaces] in *.
  - destruct rest as [|c r]; [reflexivity|].
    cbn [starts_with skip_spaces] in *. now rewrite Hr.
  - apply andb_true_iff in Hb as [Hc Hb]. rewrite Hc. now apply IH.
Qed.

Lemma skip_spaces_inv (s : string) :
  exists blanks,
    s = (blanks ++ skip_spaces s)%string
    /\ all_chars isspace blanks = true
    /\ starts_with isspace (skip_spaces s) = false.
Proof.
  induction s as [|c s (b & E & Hb & Hs)].
  - now exists "".
  - cbn [skip_spaces]. destruct (isspace c) eqn:Hc.
    + exists (String c b). cbn [append all_chars]. rewrite Hc, Hb, <- E. auto.
    + exists "". cbn [append all_chars starts_with]. auto.
Qed.

Lemma read_digits_app (digits rest : string) (acc : Z) (n : nat) :
  all_chars isdigit digits = true ->
  starts_with isdigit rest = false ->
  read_digits acc n (digits ++ rest) = (decimal acc digits, (n + String.length digits)%nat, rest).
Proof.
  revert acc n.
  induction digits as [|c d IH]; intros acc n Hd Hr;
    cbn [append all_chars read_digits decimal String.length] in *.
  - rewrite Nat.add_0_r.
    destruct rest as [|c r]; [reflexivity|].
    cbn [starts_with read_digits] in *. now rewrite Hr.
  - apply andb_true_iff in Hd as [Hc Hd]. rewrite Hc.
    rewrite IH by assumption. now rewrite Nat.add_succ_r.
Qed.

Lemma read_digits_inv (s : string) (acc : Z) (n : nat) :
  exists digits rest,
    s = (digits ++ rest)%string
    /\ all_chars isdigit digits = true
    /\ starts_with isdigit rest = false
    /\ read_digits acc n s = (decimal acc digits, (n + String.length digits)%nat, rest).
Proof.
  revert acc n. induction s as [|c s IH]; intros acc n.
  - exists "", "". simpl. now rewrite Nat.add_0_r.
  - cbn [read_digits]. destruct (isdigit c) eqn:Hc.
    + destruct (IH (10 * acc + digit_value c) (S n)) as (d & r & E & Hd & Hr & Hrd).
      exists (String c d), r. cbn [append all_chars decimal String.length].
      rewrite Hc, Hd, Hrd, Nat.add_succ_r, <- E. auto.
    + exists "", (String c s).
      cbn [append all_chars decimal String.length starts_with].
      rewrite Nat.add_0_r. auto.
Qed.

(** [strtol] reads an integer text and stops where it ends. *)
Lemma strtol_sound (t rest : string) (n : Z) :
  integer_text t n ->
  starts_with isdigit rest = false ->
  strtol (t ++ rest) = mk_strtol n true rest.
Proof.
  intros [blanks sign digits Hb Hs Hne Hd] Hr.
  destruct digits as [|d ds]; [now elim Hne|].
  pose proof Hd as Hd'. cbn [all_chars] in Hd'.
  apply andb_true_iff in Hd' as [Hdig _].
  destruct (digit_is_plain d Hdig) as (Hsp & Hminus & Hplus).
  unfold strtol.
  rewrite !append_assoc.
  assert (Hcases : sign = "" \/ sign = "+" \/ sign = "-").
  { unfold is_sign in Hs.
    apply orb_true_iff in Hs as [Hs|Hs]; [apply orb_true_iff in Hs as [Hs|Hs]|];
      apply String.eqb_eq in Hs; auto. }
  destruct Hcases as [-> | [-> | ->]].
  - rewrite skip_spaces_app by (assumption || (cbn [append starts_with]; assumption)).
    cbn [append]. rewrite Hminus, Hplus.
    change (String d (ds ++ rest)) with (String d ds ++ rest)%string.
    rewrite read_digits_app by assumption. reflexivity.
  - rewrite skip_spaces_app by (assumption || reflexivity).
    cbn [append]. change (Ascii.eqb "+" "-") with false. change (Ascii.eqb "+" "+") with true.
    cbv iota.
    change (String d (ds ++ rest)) with (String d ds ++ rest)%string.
    rewrite read_digits_app by assumption. reflexivity.
  - rewrite skip_spaces_app by (assumption || reflexivity).
    cbn [append]. change (Ascii.eqb "-" "-") with true.
    cbv iota.
    change (String d (ds ++ rest)) with (String d ds ++ rest)%string.
    rewrite read_digits_app by assumption. reflexivity.
Qed.

(** Whatever [strtol] converts is an integer text followed by [endstr]. *)
Lemma strtol_complete (s : string) :
  converted (strtol s) = true ->
  exists t,
    s = (t ++ endstr (strtol s))%string
    /\ integer_text t (value (strtol s))
    /\ starts_with isdigit (endstr (strtol s)) = false.
Proof.
  unfold strtol.
  destruct (skip_spaces_inv s) as (blanks & E & Hb & Hs).
  set (s1 := skip_spaces s) in *.
  assert (main : forall sign body,
    is_sign sign = true -> s1 = (sign ++ body)%string ->
    let '(magnitude, ndigits, rest) := read_digits 0 0 body in
    converted (match ndigits with
               | O => mk_strtol 0 false s
               | S _ => mk_strtol (clamp_long (signed sign magnitude)) true rest
               end) = true ->
    exists t,
      s = (t ++ endstr (match ndigits with
                        | O => mk_strtol 0 false s
                        | S _ => mk_strtol (clamp_long (signed sign magnitude)) true rest
                        end))%string
      /\ integer_text t (value (match ndigits with
                        | O => mk_strtol 0 false s
                        | S _ => mk_strtol (clamp_long (signed sign magnitude)) true rest
                        end))
      /\ starts_with isdigit (endstr (match ndigits with
                        | O => mk_strtol 0 false s
                        | S _ => mk_strtol (clamp_long (signed sign magnitude)) true rest
                        end)) = false).
  { intros sign body Hsign Es1.
    destruct (read_digits_inv body 0 0) as (ds & rest & Eb & Hd & Hr & Hrd).
    rewrite Hrd. destruct ds as [|d ds]; simpl String.length; cbn [Nat.add].
    - simpl. discriminate.
    - intros _. cbn [endstr value].
      exists (blanks ++ sign ++ String d ds)%string. split; [|split].
      + rewrite E, Es1, Eb. now rewrite !append_assoc.
      + apply integer_text_intro; [exact Hb | exact Hsign | discriminate | exact Hd].
      + assumption. }
  destruct s1 as [|c s'] eqn:Es1.
  - exact (main "" ""%string eq_refl eq_refl).
  - destruct (Ascii.eqb_spec c "-") as [->|Hm].
    + specialize (main "-"%string s' eq_refl eq_refl).
      destruct (read_digits 0 0 s') as [[magnitude ndigits] rest]. exact main.
    + destruct (Ascii.eqb_spec c "+") as [->|Hp].
      * specialize (main "+"%string s' eq_refl eq_refl).
        destruct (read_digits 0 0 s') as [[magnitude ndigits] rest]. exact main.
      * specialize (main ""%string (String c s') eq_refl eq_refl).
        destruct (read_digits 0 0 (String c s')) as [[magnitude ndigits] rest].
        exact main.
Qed.

End LibCFacts.

(* ===================================================================== *)
(** * Lists                                                              *)
(* ===================================================================== *)

Module ListFacts.
Import CJson.

Lemma nth_error_middle {A : Type} (done : list A) (x : A) (rest : list A) :
  nth_error (done ++ x :: rest) (List.length done) = Some x.
Proof. induction done as [|y done IH]; [reflexivity | exact IH]. Qed.

Lemma set_nth_middle {A : Type} (pre : list A) (a b : A) (rest : list A) :
  set_nth (List.length pre) b (pre ++ a :: rest) = pre ++ b :: rest.
Proof. induction pre as [|x pre IH]; cbn; [reflexivity | now rewrite IH]. Qed.

Lemma forallb_firstn {A : Type} (p : A -> bool) (n : nat) (l : list A) :
  forallb p l = true -> forallb p (firstn n l) = true.
Proof.
  revert n. induction l as [|x l IH]; intros n H.
  - now rewrite firstn_nil.
  - destruct n as [|n]; [reflexivity|]. cbn [firstn forallb] in *.
    apply andb_true_iff in H as [Hx Hl]. now rewrite Hx, IH.
Qed.

End ListFacts.

(* ===================================================================== *)
(** * Routing of GET requests                                            *)
(* ===================================================================== *)

Module RouterFacts.
Import LibC LibCFacts Main Spec.

Lemma extract_id_from_path_app (p r : string) :
  extract_id_from_path (p ++ r) p = if String.eqb r "" then -1 else atoi r.
Proof.
  unfold extract_id_from_path.
  rewrite has_prefix_app, after_prefix_app. simpl.
  now destruct r.
Qed.

Lemma append_empty_r (s : string) : (s ++ "")%string = s.
Proof. induction s as [|c s IH]; simpl; [reflexivity | now rewrite IH]. Qed.

(** On a run of digits [atoi] is the decimal value, cut to the range of
    a [long] and then to an [int]. *)
Lemma atoi_of_digits (s : string) :
  s <> "" -> all_chars isdigit s = true ->
  atoi s = to_int (clamp_long (decimal 0 s)).
Proof.
  intros Hne Hd.
  pose proof (strtol_sound s "" _ (integer_text_intro "" "" s eq_refl eq_refl Hne Hd)
                eq_refl) as H.
  rewrite append_empty_r in H. unfold atoi. now rewrite H.
Qed.

(** A remainder that is a positive decimal integer below 2^31 selects
    the category with that id. *)
Lemma plain_id_is_matched (r : string) :
  valid_positive_decimal r = true -> decimal 0 r < 2 ^ 31 ->
  atoi r = decimal 0 r /\ atoi r > 0.
Proof.
  unfold valid_positive_decimal. intros H Hsmall.
  apply andb_true_iff in H as [H Hpos]. apply andb_true_iff in H as [Hne Hd].
  rewrite Z.gtb_ltb in Hpos. apply Z.ltb_lt in Hpos.
  assert (Hr : r <> "") by (intros ->; discriminate).
  rewrite (atoi_of_digits r Hr Hd).
  unfold clamp_long, LONG_MIN, LONG_MAX.
  rewrite Z.min_r by lia. rewrite Z.max_r by lia.
  rewrite to_int_small by lia. lia.
Qed.

(** C4, as the claim states it, fails: the remainder [12abc] is not a
    decimal integer, yet GET /api/categories/12abc is dispatched to the
    category handler with id 12 (and likewise for /api/foods/). *)
Lemma id_route_accepts_trailing_text :
  valid_positive_decimal "12abc" = false
  /\ route_other "GET" "/api/categories/12abc" = GetCategory 12
  /\ route_other "GET" "/api/foods/12abc" = GetFood 12.
Proof. repeat split; reflexivity. Qed.

(** Under either id prefix the router goes by what [atoi] makes of the
    remainder. *)
Lemma id_route_by_atoi (r : string) :
  route_other "GET" ("/api/categories/" ++ r)
    = (if atoi r >? 0 then GetCategory (atoi r) else not_found)
  /\ route_other "GET" ("/api/foods/" ++ r)
    = (if atoi r >? 0 then GetFood (atoi r) else not_found).
Proof.
  destruct r as [|c r]; [split; reflexivity|].
  split.
  - unfold route_other.
    rewrite (extract_id_from_path_app "/api/categories/" (String c r)).
    rewrite (has_prefix_app "/api/categories/" (String c r)).
    change (streq ("/api/categories/" ++ String c r) "/health") with false.
    change (streq ("/api/categories/" ++ String c r) "/api/categories") with false.
    change (streq ("/api/categories/" ++ String c r) "/api/foods") with false.
    change (has_prefix "/api/foods/" ("/api/categories/" ++ String c r)) with false.
    change (extract_template_id ("/api/categories/" ++ String c r)) with (-1).
    change (String.eqb (String c r) "") with false.
    cbn [andb streq String.eqb Ascii.eqb Bool.eqb].
    destruct (atoi (String c r) >? 0); reflexivity.
  - unfold route_other.
    rewrite (extract_id_from_path_app "/api/foods/" (String c r)).
    rewrite (has_prefix_app "/api/foods/" (String c r)).
    change (streq ("/api/foods/" ++ String c r) "/health") with false.
    change (streq ("/api/foods/" ++ String c r) "/api/categories") with false.
    change (has_prefix "/api/categories/" ("/api/foods/" ++ String c r)) with false.
    change (streq ("/api/foods/" ++ String c r) "/api/foods") with false.
    change (extract_template_id ("/api/foods/" ++ String c r)) with (-1).
    change (String.eqb (String c r) "") with false.
    cbn [andb streq String.eqb Ascii.eqb Bool.eqb].
    destruct (atoi (String c r) >? 0); reflexivity.
Qed.

Lemma all_chars_app (p : ascii -> bool) (a b : string) :
  all_chars p a = true -> all_chars p b = true -> all_chars p (a ++ b) = true.
Proof.
  intros Ha Hb. induction a as [|c a IH]; cbn [append all_chars] in *; [exact Hb|].
  apply andb_true_iff in Ha as [Hc Ha]. now rewrite Hc, IH.
Qed.

(** [strtol] converts whenever its input begins with an integer text. *)
Lemma strtol_converts (t rest : string) (n : Z) :
  integer_text t n -> converted (strtol (t ++ rest)) = true.
Proof.
  intros [blanks sign digits Hb Hs Hne Hd].
  destruct (read_digits_inv rest 0 0) as (more & rest' & -> & Hmore & Hrest & _).
  assert (Ht : integer_text (blanks ++ sign ++ (digits ++ more))
                 (clamp_long (signed sign (decimal 0 (digits ++ more))))).
  { apply integer_text_intro; [exact Hb | exact Hs | | now apply all_chars_app].
    destruct digits; [now elim Hne | discriminate]. }
  pose proof (strtol_sound _ rest' _ Ht Hrest) as E.
  rewrite !append_assoc in E. rewrite !append_assoc.
  now rewrite E.
Qed.

(** Without a conversion [strtol] reports 0. *)
Lemma strtol_unconverted (s : string) :
  converted (strtol s) = false -> value (strtol s) = 0.
Proof.
  unfold strtol.
  destruct (match skip_spaces s with
            | String c s' =>
                if Ascii.eqb c "-" then (true, s')
                else if Ascii.eqb c "+" then (false, s') else (false, skip_spaces s)
            | EmptyString => (false, skip_spaces s)
            end) as [negative body].
  destruct (read_digits 0 0 body) as [[magnitude ndigits] rest].
  destruct ndigits; [reflexivity | discriminate].
Qed.

Lemma atoi_leading_number (t rest : string) (n : Z) :
  integer_text t n -> starts_with isdigit rest = false ->
  - 2 ^ 31 <= n < 2 ^ 31 ->
  atoi (t ++ rest) = n.
Proof.
  intros Ht Hrest Hn. unfold atoi.
  rewrite (strtol_sound t rest n Ht Hrest). cbn [value].
  now apply to_int_small.
Qed.

Lemma atoi_no_number (r : string) :
  (forall t rest n, r = (t ++ rest)%string -> ~ integer_text t n) ->
  atoi r = 0.
Proof.
  intros Hnone. unfold atoi.
  destruct (converted (strtol r)) eqn:Hconv.
  - destruct (strtol_complete r Hconv) as (t & E & Ht & _).
    now elim (Hnone t _ _ E Ht).
  - now rewrite (strtol_unconverted r Hconv).
Qed.

(** C4, amended: for GET /api/categories/{id} and GET /api/foods/{id} the
    remainder after the prefix is read for a leading number: blanks, an
    optional sign, then the longest run of digits; what follows the
    digits is ignored. When that number fits an [int], the route matches
    exactly when the number is positive, with the number as the id, and
    a zero or negative number ends in the 404 "Not found" response; so
    does a remainder that does not begin with a number. Whatever the
    remainder, the outcome is the handler with a positive id or the 404
    response. *)
Theorem id_route_leading_number (r : string) :
  (forall t rest n,
     r = (t ++ rest)%string -> integer_text t n ->
     starts_with isdigit rest = false ->
     - 2 ^ 31 <= n < 2 ^ 31 ->
     route_other "GET" ("/api/categories/" ++ r)
       = (if n >? 0 then GetCategory n else not_found)
     /\ route_other "GET" ("/api/foods/" ++ r)
       = (if n >? 0 then GetFood n else not_found))
  /\ ((forall t rest n, r = (t ++ rest)%string -> ~ integer_text t n) ->
      route_other "GET" ("/api/categories/" ++ r) = not_found
      /\ route_other "GET" ("/api/foods/" ++ r) = not_found)
  /\ ((exists id, id > 0 /\ route_other "GET" ("/api/categories/" ++ r) = GetCategory id)
      \/ route_other "GET" ("/api/categories/" ++ r) = not_found)
  /\ ((exists id, id > 0 /\ route_other "GET" ("/api/foods/" ++ r) = GetFood id)
      \/ route_other "GET" ("/api/foods/" ++ r) = not_found).
Proof.
  destruct (id_route_by_atoi r) as [Hc Hf].
  split; [|split; [|split]].
  - intros t rest n -> Ht Hrest Hn.
    rewrite Hc, Hf, (atoi_leading_number t rest n Ht Hrest Hn). now split.
  - intros Hnone. rewrite Hc, Hf, (atoi_no_number r Hnone). now split.
  - rewrite Hc. destruct (atoi r >? 0) eqn:Hpos; [left | now right].
    exists (atoi r). split; [|reflexivity]. apply Z.gtb_lt in Hpos. lia.
  - rewrite Hf. destruct (atoi r >? 0) eqn:Hpos; [left | now right].
    exists (atoi r). split; [|reflexivity]. apply Z.gtb_lt in Hpos. lia.
Qed.

Lemma id_route_leading_number_witness :
  route_other "GET" "/api/categories/12abc" = GetCategory 12
  /\ route_other "GET" "/api/foods/ +7" = GetFood 7
  /\ route_other "GET" "/api/categories/-5" = not_found
  /\ route_other "GET" "/api/foods/0" = not_found
  /\ route_other "GET" "/api/categories/abc" = not_found
  /\ route_other "GET" "/api/foods/abc" = not_found.
Proof.
  split; [|split; [|split; [|split]]].
  - apply (proj1 (id_route_leading_number "12abc") "12" "abc" 12 eq_refl);
      [|reflexivity|lia].
    exact (integer_text_intro "" "" "12" eq_refl eq_refl ltac:(discriminate) eq_refl).
  - apply (proj1 (id_route_leading_number " +7") " +7" "" 7 eq_refl);
      [|reflexivity|lia].
    exact (integer_text_intro " " "+" "7" eq_refl eq_refl ltac:(discriminate) eq_refl).
  - apply (proj1 (id_route_leading_number "-5") "-5" "" (-5) eq_refl);
      [|reflexivity|lia].
    exact (integer_text_intro "" "-" "5" eq_refl eq_refl ltac:(discriminate) eq_refl).
  - apply (proj1 (id_route_leading_number "0") "0" "" 0 eq_refl);
      [|reflexivity|lia].
    exact (integer_text_intro "" "" "0" eq_refl eq_refl ltac:(discriminate) eq_refl).
  - apply (proj1 (proj2 (id_route_leading_number "abc"))).
    intros t rest n E Ht.
    pose proof (strtol_converts t rest n Ht) as Hconv.
    rewrite <- E in Hconv. discriminate Hconv.
Defined.

Lemma template_route_by_extract (r : string) :
  route_other "GET" ("/api/templates/" ++ r)
    = (if extract_template_id ("/api/templates/" ++ r) >? 0
       then GetTemplateFull (extract_template_id ("/api/templates/" ++ r))
       else not_found).
Proof.
  unfold route_other.
  change (streq ("/api/templates/" ++ r) "/health") with false.
  change (streq ("/api/templates/" ++ r) "/api/categories") with false.
  change (has_prefix "/api/categories/" ("/api/templates/" ++ r)) with false.
  change (streq ("/api/templates/" ++ r) "/api/foods") with false.
  change (has_prefix "/api/foods/" ("/api/templates/" ++ r)) with false.
  change (streq "GET" "GET") with true.
  cbn [andb].
  destruct (extract_template_id ("/api/templates/" ++ r) >? 0); reflexivity.
Qed.

Lemma extract_template_id_app (r : string) :
  extract_template_id ("/api/templates/" ++ r)
    = (if negb (converted (strtol r)) || negb (streq (endstr (strtol r)) "/full")
       then -1 else to_int (value (strtol r))).
Proof.
  unfold extract_template_id.
  now rewrite (has_prefix_app "/api/templates/" r), (after_prefix_app "/api/templates/" r).
Qed.

(** C7: under the prefix /api/templates/, a GET request reaches the
    template-full handler exactly when the remainder is an integer text
    followed at once by /full and the id, taken as an [int], is
    positive; every other remainder ends in the 404 response. *)
Theorem template_route_matches (r : string) :
  (forall t n, r = (t ++ "/full")%string -> integer_text t n ->
     route_other "GET" ("/api/templates/" ++ r)
       = (if to_int n >? 0 then GetTemplateFull (to_int n) else not_found))
  /\ ((forall t n, r = (t ++ "/full")%string -> ~ integer_text t n) ->
     route_other "GET" ("/api/templates/" ++ r) = not_found).
Proof.
  split.
  - intros t n -> Ht.
    rewrite template_route_by_extract, extract_template_id_app.
    rewrite (strtol_sound t "/full" n Ht eq_refl).
    reflexivity.
  - intros Hnone.
    rewrite template_route_by_extract, extract_template_id_app.
    destruct (converted (strtol r)) eqn:Hconv; [|reflexivity].
    destruct (streq (endstr (strtol r)) "/full") eqn:Hend; [|reflexivity].
    exfalso.
    destruct (strtol_complete r Hconv) as (t & E & Ht & _).
    apply String.eqb_eq in Hend. rewrite Hend in E.
    exact (Hnone t _ E Ht).
Qed.

Lemma short_text_has_no_suffix (t : string) : "abc" <> (t ++ "/full")%string.
Proof.
  intros E. apply (f_equal String.length) in E.
  rewrite length_append in E. simpl in E. lia.
Qed.

Lemma template_route_matches_witness :
  route_other "GET" "/api/templates/5/full" = GetTemplateFull 5
  /\ route_other "GET" "/api/templates/abc" = not_found.
Proof.
  split.
  - apply (proj1 (template_route_matches "5/full") "5" 5 eq_refl).
    exact (integer_text_intro "" "" "5" eq_refl eq_refl
             ltac:(discriminate) eq_refl).
  - apply (proj2 (template_route_matches "abc")).
    intros t n E _. exact (short_text_has_no_suffix t E).
Defined.

End RouterFacts.

(* ===================================================================== *)
(** * GET /api/foods: the limit parameter                                *)
(* ===================================================================== *)

Module FoodsFacts.
Import LibC LibCFacts CJson Db Http Routes Spec.

Lemma substring_short (s : string) (n : nat) :
  (String.length s <= n)%nat -> substring 0 n s = s.
Proof.
  revert n. induction s as [|c s IH]; intros n H.
  - now destruct n.
  - destruct n as [|n]; simpl in *; [lia|].
    rewrite IH by lia. reflexivity.
Qed.

Lemma substring_length_le (s : string) (n : nat) :
  (String.length (substring 0 n s) <= n)%nat.
Proof.
  revert n. induction s as [|c s IH]; intros n.
  - destruct n; simpl; lia.
  - destruct n as [|n]; simpl; [lia|]. specialize (IH n). lia.
Qed.

Lemma snprintf_length (size : nat) (text : string) :
  (String.length (snprintf size text) <= size - 1)%nat.
Proof. apply substring_length_le. Qed.

Lemma foods_where_length (category_id_str search : option string) :
  (String.length (foods_where category_id_str search) <= 511)%nat.
Proof.
  unfold foods_where.
  destruct category_id_str as [c|]; destruct search as [pat|];
    try destruct (0 <? Z.of_nat (String.length pat));
    try (pose proof (snprintf_length 512
           (" WHERE category_id = " ++ fmt_d (atoi c))); lia);
    try (simpl; lia).
  - rewrite length_append.
    set (w := snprintf 512 (" WHERE category_id = " ++ fmt_d (atoi c))).
    pose proof (snprintf_length 512 (" WHERE category_id = " ++ fmt_d (atoi c))) as Hw.
    fold w in Hw.
    pose proof (snprintf_length (512 - String.length w) (" AND name LIKE '%" ++ pat ++ "%'")).
    lia.
  - pose proof (snprintf_length 512 (" WHERE name LIKE '%" ++ pat ++ "%'")). lia.
Qed.

Lemma foods_limit_fallback (s : string) :
  atoi s <= 0 \/ 1000 < atoi s -> foods_limit (Some s) = 100.
Proof.
  intros H. unfold foods_limit.
  destruct (atoi s <=? 0) eqn:lo; [reflexivity|].
  destruct (atoi s >? 1000) eqn:hi; [reflexivity|].
  apply Z.leb_gt in lo. rewrite Z.gtb_ltb in hi. apply Z.ltb_ge in hi. lia.
Qed.

Section Foods.
Context {lib : MySQL}.

Lemma handle_list_foods_limit (args : string -> option string) (a b : option string) :
  foods_limit a = foods_limit b ->
  forall st, handle_list_foods (with_limit args a) st = handle_list_foods (with_limit args b) st.
Proof.
  intros E st. unfold handle_list_foods, foods_query.
  change (with_limit args a "limit") with a.
  change (with_limit args b "limit") with b.
  change (with_limit args a "category_id") with (args "category_id").
  change (with_limit args b "category_id") with (args "category_id").
  change (with_limit args a "search") with (args "search").
  change (with_limit args b "search") with (args "search").
  now rewrite E.
Qed.

(** C5: GET /api/foods uses the limit 100 when the parameter is absent,
    and whatever the parameter holds the limit used lies in 1..1000;
    with limit=0, limit=-5, limit=5000 or limit=abc, and with any value
    that [atoi] reads as a number outside 1..1000, the handler runs
    exactly as it does without the parameter (same query, same response,
    for every database state), so no such value produces an error of its
    own; the query sent in that case is the full statement ending in
    LIMIT 100. *)
Theorem foods_limit_defaults (args : string -> option string) (st : db_state) :
  foods_limit None = 100
  /\ (forall limit_str, 1 <= foods_limit limit_str <= 1000)
  /\ (forall s, In s ["0"; "-5"; "5000"; "abc"] ->
        handle_list_foods (with_limit args (Some s)) st
          = handle_list_foods (with_limit args None) st)
  /\ (forall s, atoi s <= 0 \/ 1000 < atoi s ->
        handle_list_foods (with_limit args (Some s)) st
          = handle_list_foods (with_limit args None) st)
  /\ foods_query (args "category_id") (args "search") None
       = ("SELECT id, name, category_id, calories_per_100g, protein_per_100g, "
          ++ "carbs_per_100g, fat_per_100g FROM food_items"
          ++ foods_where (args "category_id") (args "search")
          ++ " ORDER BY name LIMIT 100")%string.
Proof.
  split; [reflexivity|]. split; [|split; [|split]].
  - intros [s|]; [|cbn; lia]. unfold foods_limit.
    destruct (atoi s <=? 0) eqn:lo; [cbn; lia|].
    destruct (atoi s >? 1000) eqn:hi; [cbn; lia|].
    apply Z.leb_gt in lo. rewrite Z.gtb_ltb in hi. apply Z.ltb_ge in hi.
    cbn [orb]. lia.
  - intros s Hs. apply handle_list_foods_limit.
    simpl in Hs. destruct Hs as [<-|[<-|[<-|[<-|[]]]]]; reflexivity.
  - intros s Hs. apply handle_list_foods_limit.
    now rewrite (foods_limit_fallback s Hs).
  - unfold foods_query, snprintf.
    change (fmt_d (foods_limit None)) with "100"%string.
    apply substring_short.
    pose proof (foods_where_length (args "category_id") (args "search")) as Hw.
    rewrite !length_append.
    change (String.length ("SELECT id, name, category_id, calories_per_100g, protein_per_100g, "))
      with 67%nat.
    change (String.length "carbs_per_100g, fat_per_100g FROM food_items") with 44%nat.
    change (String.length " ORDER BY name LIMIT 100") with 24%nat.
    change (1024 - 1)%nat with 1023%nat.
    lia.
Qed.

End Foods.

Lemma foods_limit_defaults_witness :
  handle_list_foods (lib := accepting_engine) (with_limit no_args (Some "5000")) (Some "")
    = handle_list_foods (lib := accepting_engine) (with_limit no_args None) (Some "")
  /\ handle_list_foods (lib := accepting_engine) (with_limit no_args (Some "-7")) (Some "")
    = handle_list_foods (lib := accepting_engine) (with_limit no_args None) (Some "").
Proof.
  pose proof (foods_limit_defaults (lib := accepting_engine) no_args (Some ""%string))
    as (_ & _ & Hlisted & Hrange & _).
  split.
  - apply Hlisted. simpl. auto.
  - apply Hrange. left. vm_compute. discriminate.
Defined.

End FoodsFacts.

(* ===================================================================== *)
(** * The body collector of POST requests                                *)
(* ===================================================================== *)

Module CollectorFacts.
Import LibC LibCFacts Http Main Spec.

Lemma size_add_small (a b : Z) :
  0 <= a <= MAX_POST_SIZE -> 0 < b < 2 ^ 63 -> size_add a b = a + b.
Proof.
  intros Ha Hb. unfold size_add, SIZE_MODULUS, MAX_POST_SIZE in *.
  apply Z.mod_small. lia.
Qed.

Lemma dispatch_first (url data : string) (alloc_ok : bool) :
  fst (dispatch "POST" url data alloc_ok None)
    = if alloc_ok then (Yes, Some (mk_connection_info None 0)) else (No, None).
Proof. unfold dispatch. cbn. now destruct alloc_ok. Qed.

Lemma dispatch_chunk (url c : string) (alloc_ok : bool) (ci : connection_info) :
  sized c -> 0 <= post_data_len ci <= MAX_POST_SIZE ->
  fst (dispatch "POST" url c alloc_ok (Some ci))
    = if post_data_len ci + chunk_size c >? MAX_POST_SIZE then (too_large, None)
      else if alloc_ok then (Yes, Some (append_chunk ci c))
      else (No, None).
Proof.
  intros Hc Hci. unfold dispatch, sized, chunk_size in *.
  change (streq "POST" "OPTIONS") with false.
  change (streq "POST" "POST") with true. cbv iota.
  replace (Z.of_nat (String.length c) >? 0) with true
    by (symmetry; rewrite Z.gtb_ltb; apply Z.ltb_lt; lia).
  rewrite size_add_small by assumption.
  destruct (post_data_len ci + Z.of_nat (String.length c) >? MAX_POST_SIZE);
    [reflexivity|].
  destruct alloc_ok; reflexivity.
Qed.

Lemma dispatch_final (url : string) (alloc_ok : bool) (ci : connection_info) :
  fst (dispatch "POST" url "" alloc_ok (Some ci)) = (route_post url ci, None).
Proof. reflexivity. Qed.

Lemma run_calls_cons (method url data : string) (ok : bool)
  (calls : list (string * bool)) (con_cls : option connection_info) :
  run_calls method url ((data, ok) :: calls) con_cls
    = match fst (dispatch method url data ok con_cls) with
      | (Yes, con_cls') =>
          let (trace, final) := run_calls method url calls con_cls' in
          (Yes :: trace, final)
      | (action, con_cls') => ([action], con_cls')
      end.
Proof.
  cbn [run_calls].
  destruct (dispatch method url data ok con_cls) as [[action con_cls'] size'].
  cbn [fst]. destruct action; reflexivity.
Qed.

Lemma total_size_cons (c : string) (chunks : list string) :
  total_size (c :: chunks) = chunk_size c + total_size chunks.
Proof. reflexivity. Qed.

Lemma total_size_nonneg (chunks : list string) : 0 <= total_size chunks.
Proof.
  induction chunks as [|c l IH]; simpl; unfold chunk_size; lia.
Qed.

(** Chunks that fit are taken in one by one, each answered by a bare
    MHD_YES, when no allocation fails. *)
Lemma run_chunks_fit (url : string) (pre : list string) :
  forall (n : nat) (rest : list string) (ci : connection_info),
    Forall sized pre ->
    0 <= post_data_len ci ->
    post_data_len ci + total_size pre <= MAX_POST_SIZE ->
    run_calls "POST" url (number_calls n always (pre ++ rest)) (Some ci)
      = (let (trace, final) :=
           run_calls "POST" url (number_calls (n + List.length pre) always rest)
             (Some (fold_left append_chunk pre ci)) in
         (repeat Yes (List.length pre) ++ trace, final)).
Proof.
  induction pre as [|c pre IH]; intros n rest ci Hs Hlo Hhi.
  - cbn. rewrite Nat.add_0_r.
    now destruct (run_calls "POST" url (number_calls n always rest) (Some ci)).
  - inversion Hs as [|? ? Hc Hpre]; subst.
    rewrite total_size_cons in *. cbn [app number_calls] in *.
    pose proof (total_size_nonneg pre) as Hnn.
    assert (Hsz : 0 < chunk_size c < 2 ^ 63) by exact Hc.
    rewrite run_calls_cons, dispatch_chunk by (assumption || lia).
    replace (post_data_len ci + chunk_size c >? MAX_POST_SIZE) with false
      by (symmetry; rewrite Z.gtb_ltb; apply Z.ltb_ge; lia).
    cbn [always fold_left List.length repeat].
    rewrite (IH (S n) rest (append_chunk ci c)); cbn [append_chunk post_data_len];
      try assumption; try lia.
    rewrite Nat.add_succ_r.
    now destruct (run_calls "POST" url _ _).
Qed.

(** Whatever the allocations do, a body whose chunk [c] crosses the cap
    never reaches a route handler, and the state is gone at the end. *)
Lemma run_chunks_overflow (url c : string) (alloc : nat -> bool) (post : list string)
  (pre : list string) :
  forall (n : nat) (ci : connection_info),
    Forall sized pre -> sized c ->
    0 <= post_data_len ci ->
    post_data_len ci + total_size pre <= MAX_POST_SIZE ->
    post_data_len ci + total_size pre + chunk_size c > MAX_POST_SIZE ->
    snd (run_calls "POST" url (number_calls n alloc (pre ++ c :: post)) (Some ci)) = None
    /\ Forall (fun a => is_bulk_insert a = false)
         (fst (run_calls "POST" url (number_calls n alloc (pre ++ c :: post)) (Some ci))).
Proof.
  induction pre as [|d pre IH]; intros n ci Hs Hc Hlo Hfit Hover.
  - change (total_size []) with 0 in *. cbn [app number_calls] in *.
    rewrite run_calls_cons, dispatch_chunk by (assumption || lia).
    replace (post_data_len ci + chunk_size c >? MAX_POST_SIZE) with true
      by (symmetry; rewrite Z.gtb_ltb; apply Z.ltb_lt; lia).
    cbn. split; [reflexivity|]. repeat constructor.
  - inversion Hs as [|? ? Hd Hpre]; subst.
    rewrite total_size_cons in *. cbn [app number_calls] in *.
    pose proof (total_size_nonneg pre) as Hnn.
    assert (Hsz : 0 < chunk_size d < 2 ^ 63) by exact Hd.
    rewrite run_calls_cons, dispatch_chunk by (assumption || lia).
    replace (post_data_len ci + chunk_size d >? MAX_POST_SIZE) with false
      by (symmetry; rewrite Z.gtb_ltb; apply Z.ltb_ge; lia).
    destruct (alloc n).
    + specialize (IH (S n) (append_chunk ci d) Hpre Hc).
      cbn [append_chunk post_data_len] in IH.
      destruct IH as [Hfin Htr]; try lia.
      destruct (run_calls "POST" url _ _) as [trace final].
      cbn [fst snd] in *. split; [assumption|]. now constructor.
    + cbn. split; [reflexivity|]. repeat constructor.
Qed.

Lemma collected_size (chunks : list string) (ci : connection_info) :
  post_data_len (fold_left append_chunk chunks ci)
    = post_data_len ci + total_size chunks.
Proof.
  revert ci. induction chunks as [|c l IH]; intros ci; cbn [fold_left].
  - change (total_size []) with 0. lia.
  - rewrite IH, total_size_cons. cbn [append_chunk post_data_len]. lia.
Qed.

Lemma collected_buffer (chunks : list string) (ci : connection_info) :
  buffer (fold_left append_chunk chunks ci)
    = (buffer ci ++ fold_right append "" chunks)%string.
Proof.
  revert ci. induction chunks as [|c l IH]; intros ci; cbn [fold_left fold_right].
  - clear. induction (buffer ci) as [|x b IH]; simpl; [reflexivity | now rewrite <- IH].
  - rewrite IH. unfold buffer at 1. cbn [append_chunk post_data].
    now rewrite append_assoc.
Qed.

(** The whole exchange of a POST whose chunk [c] is the first to cross
    the cap, allocations succeeding. *)
Lemma exchange_overflow (url c : string) (pre post : list string) :
  Forall sized pre -> sized c ->
  total_size pre <= MAX_POST_SIZE ->
  total_size pre + chunk_size c > MAX_POST_SIZE ->
  exchange "POST" url (pre ++ c :: post) always
    = (repeat Yes (S (List.length pre)) ++ [too_large], None).
Proof.
  intros Hs Hc Hfit Hover. unfold exchange.
  cbn [number_calls]. rewrite run_calls_cons, dispatch_first. cbn [always].
  rewrite <- app_assoc.
  rewrite (run_chunks_fit url pre 1 ((c :: post) ++ [""]) (mk_connection_info None 0))
    by (cbn [post_data_len]; (assumption || lia)).
  cbn [app number_calls]. rewrite run_calls_cons, dispatch_chunk.
  - rewrite collected_size. cbn [post_data_len].
    replace (0 + total_size pre + chunk_size c >? MAX_POST_SIZE) with true
      by (symmetry; rewrite Z.gtb_ltb; apply Z.ltb_lt; lia).
    reflexivity.
  - assumption.
  - rewrite collected_size. cbn [post_data_len].
    pose proof (total_size_nonneg pre). lia.
Qed.

(** A body longer than the cap has a first chunk that crosses it. *)
Lemma first_crossing (chunks : list string) :
  forall base,
    base <= MAX_POST_SIZE ->
    base + total_size chunks > MAX_POST_SIZE ->
    exists pre c post,
      chunks = pre ++ c :: post
      /\ base + total_size pre <= MAX_POST_SIZE
      /\ base + total_size pre + chunk_size c > MAX_POST_SIZE.
Proof.
  induction chunks as [|c chunks IH]; intros base Hbase Hover.
  - change (total_size []) with 0 in Hover. lia.
  - rewrite total_size_cons in Hover.
    destruct (Z_le_gt_dec (base + chunk_size c) MAX_POST_SIZE) as [Hfit|Hcross].
    + destruct (IH (base + chunk_size c) Hfit ltac:(lia))
        as (pre & c' & post & -> & Hpre & Hc').
      exists (c :: pre), c', post. rewrite total_size_cons.
      repeat split; [lia | lia].
    + exists [], c, chunks. change (total_size []) with 0.
      repeat split; lia.
Qed.

(** C2: a POST body whose chunks add up to more than the cap of 1 MiB
    has a first chunk [c] that would cross the cap; the handler answers
    every invocation before [c] with a bare MHD_YES and the invocation
    carrying [c] with the 413 response, leaving no connection state; and
    whatever the allocations do, no invocation of that request calls the
    bulk-insert handler and no connection state is left. *)
Theorem overflow_is_rejected (url : string) (chunks : list string) :
  Forall sized chunks ->
  total_size chunks > MAX_POST_SIZE ->
  exists pre c post,
    chunks = pre ++ c :: post
    /\ total_size pre <= MAX_POST_SIZE
    /\ total_size pre + chunk_size c > MAX_POST_SIZE
    /\ exchange "POST" url chunks always
         = (repeat Yes (S (List.length pre)) ++ [too_large], None)
    /\ forall alloc,
         snd (exchange "POST" url chunks alloc) = None
         /\ Forall (fun a => is_bulk_insert a = false)
              (fst (exchange "POST" url chunks alloc)).
Proof.
  intros Hs Hover.
  destruct (first_crossing chunks 0 ltac:(unfold MAX_POST_SIZE; lia) ltac:(lia))
    as (pre & c & post & -> & Hfit & Hcross).
  apply Forall_app in Hs as [Hpre Hrest].
  inversion Hrest as [|? ? Hc _]; subst.
  exists pre, c, post.
  split; [reflexivity|]. split; [lia|]. split; [lia|].
  split; [apply exchange_overflow; (assumption || lia)|].
  intros alloc. unfold exchange.
  cbn [number_calls]. rewrite run_calls_cons, dispatch_first.
  destruct (alloc 0%nat).
  - rewrite <- app_assoc. cbn [app].
    destruct (run_chunks_overflow url c alloc (post ++ [""]) pre 1
                (mk_connection_info None 0) Hpre Hc) as [Hfin Htr];
      cbn [post_data_len]; try lia.
    destruct (run_calls "POST" url _ _) as [trace final].
    cbn [fst snd] in *. split; [assumption|]. now constructor.
  - cbn. split; [reflexivity|]. repeat constructor.
Qed.

Lemma filler_size (n : nat) : chunk_size (filler n) = Z.of_nat n.
Proof.
  unfold chunk_size. f_equal.
  induction n as [|n IH]; cbn [filler String.length]; [reflexivity | now rewrite IH].
Qed.

Lemma filler_sized (z : Z) : 0 < z < 2 ^ 63 -> sized (filler (Z.to_nat z)).
Proof. intros H. unfold sized. rewrite filler_size. lia. Qed.

Lemma overflow_is_rejected_witness :
  exists pre c post,
    [filler (Z.to_nat 600000); filler (Z.to_nat 600000)] = pre ++ c :: post
    /\ total_size pre <= MAX_POST_SIZE
    /\ total_size pre + chunk_size c > MAX_POST_SIZE
    /\ exchange "POST" "/api/benchmark/bulk-insert"
         [filler (Z.to_nat 600000); filler (Z.to_nat 600000)] always
         = (repeat Yes (S (List.length pre)) ++ [too_large], None)
    /\ forall alloc,
         snd (exchange "POST" "/api/benchmark/bulk-insert"
                [filler (Z.to_nat 600000); filler (Z.to_nat 600000)] alloc) = None
         /\ Forall (fun a => is_bulk_insert a = false)
              (fst (exchange "POST" "/api/benchmark/bulk-insert"
                      [filler (Z.to_nat 600000); filler (Z.to_nat 600000)] alloc)).
Proof.
  apply (overflow_is_rejected "/api/benchmark/bulk-insert"
           [filler (Z.to_nat 600000); filler (Z.to_nat 600000)]).
  - constructor; [apply filler_sized; lia|].
    constructor; [apply filler_sized; lia | constructor].
  - rewrite !total_size_cons, !filler_size. change (total_size []) with 0.
    unfold MAX_POST_SIZE. lia.
Defined.

(** C10: a POST body is collected before the path is looked at. For any
    path, a body whose chunk [c] is the first to cross the cap gets the
    413 response at that chunk and the connection state is released. For
    a path that is not the bulk-insert route and a body that fits, every
    invocation that carries data is answered by a bare MHD_YES, the
    state then holds the whole body, and only the final invocation
    without data produces the 404 response and releases the state. *)
Theorem collection_precedes_routing (url : string) :
  (forall pre c post,
     Forall sized pre -> sized c ->
     total_size pre <= MAX_POST_SIZE ->
     total_size pre + chunk_size c > MAX_POST_SIZE ->
     exchange "POST" url (pre ++ c :: post) always
       = (repeat Yes (S (List.length pre)) ++ [too_large], None))
  /\ (forall chunks,
        streq url "/api/benchmark/bulk-insert" = false ->
        Forall sized chunks ->
        total_size chunks <= MAX_POST_SIZE ->
        run_calls "POST" url (number_calls 0 always ("" :: chunks)) None
          = (repeat Yes (S (List.length chunks)), Some (collected chunks))
        /\ buffer (collected chunks) = fold_right append "" chunks
        /\ post_data_len (collected chunks) = total_size chunks
        /\ exchange "POST" url chunks always
             = (repeat Yes (S (List.length chunks)) ++ [not_found], None)).
Proof.
  split.
  - intros pre c post. apply exchange_overflow.
  - intros chunks Hurl Hs Hfit.
    assert (Hrun : forall rest,
      run_calls "POST" url (number_calls 0 always ("" :: chunks ++ rest)) None
        = (let (trace, final) :=
             run_calls "POST" url (number_calls (1 + List.length chunks) always rest)
               (Some (collected chunks)) in
           (repeat Yes (S (List.length chunks)) ++ trace, final))).
    { intros rest. cbn [number_calls]. rewrite run_calls_cons, dispatch_first.
      cbn [always].
      rewrite (run_chunks_fit url chunks 1 rest (mk_connection_info None 0))
        by (cbn [post_data_len]; (assumption || lia)).
      fold (collected chunks).
      now destruct (run_calls "POST" url _ _). }
    split; [|split; [|split]].
    + specialize (Hrun []). rewrite app_nil_r in Hrun. rewrite Hrun.
      cbn [number_calls run_calls]. now rewrite app_nil_r.
    + unfold collected. now rewrite collected_buffer.
    + unfold collected. rewrite collected_size. cbn [post_data_len]. lia.
    + unfold exchange. rewrite (Hrun [""]).
      cbn [number_calls]. rewrite run_calls_cons, dispatch_final.
      unfold route_post. rewrite Hurl. reflexivity.
Qed.

Lemma collection_precedes_routing_witness :
  exchange "POST" "/nowhere"
    ([filler (Z.to_nat 600000)] ++ filler (Z.to_nat 600000) :: []) always
    = (repeat Yes 2 ++ [too_large], None)
  /\ exchange "POST" "/nowhere" ["abc"; "de"] always
    = (repeat Yes 3 ++ [not_found], None).
Proof.
  split.
  - apply (proj1 (collection_precedes_routing "/nowhere")
             [filler (Z.to_nat 600000)] (filler (Z.to_nat 600000)) []).
    + constructor; [apply filler_sized; lia | constructor].
    + apply filler_sized; lia.
    + rewrite total_size_cons, filler_size. change (total_size []) with 0.
      unfold MAX_POST_SIZE. lia.
    + rewrite total_size_cons, !filler_size. change (total_size []) with 0.
      unfold MAX_POST_SIZE. lia.
  - apply (proj2 (collection_precedes_routing "/nowhere") ["abc"; "de"]).
    + reflexivity.
    + repeat constructor.
    + vm_compute. discriminate.
Defined.

End CollectorFacts.

(* ===================================================================== *)
(** * The handlers without a database connection                         *)
(* ===================================================================== *)

Module DeadHandleFacts.
Import LibC CJson Db Http Routes Main Spec.


Section DeadHandle.
Context {lib : MySQL}.

Lemma insert_loop_dead (meal_id : Z) (items_arr : option cJSON) (remaining : nat) :
  forall i inserted,
    insert_loop remaining i meal_id items_arr inserted None = Some (inserted, None).
Proof.
  induction remaining as [|n IH]; intros i inserted; cbn [insert_loop].
  - reflexivity.
  - unfold bind, insert_body.
    destruct (item_is_valid (cJSON_GetArrayItem items_arr i)).
    + unfold bind. cbn. apply IH.
    + cbn. apply IH.
Qed.

End DeadHandle.
End DeadHandleFacts.

(* ===================================================================== *)
(** * POST /api/benchmark/bulk-insert                                    *)
(* ===================================================================== *)

Module BulkInsertFacts.
Import LibC LibCFacts ListFacts CJson Db Http Routes Spec.

Lemma item_is_valid_required (item : cJSON) :
  item_is_valid (Some item) = has_required_numbers item.
Proof.
  unfold item_is_valid, has_required_numbers, required_members.
  cbn [forallb]. now rewrite andb_true_r, andb_assoc.
Qed.

Lemma count_applied_cons (o : entry_outcome) (os : list entry_outcome) :
  count_applied (o :: os)
    = (match o with Applied => 1 | _ => 0 end) + count_applied os.
Proof.
  unfold count_applied. cbn [filter].
  destruct o; cbn [List.length]; lia.
Qed.

Section Bulk.
Context {lib : MySQL}.
Hypothesis rows_counted : counts_rows.

(** One turn of the loop does what the specification says of one entry. *)
Lemma insert_body_entry (meal_id : Z) (all : list cJSON) (i : nat) (item : cJSON)
  (inserted : Z) (st : db_state) :
  nth_error all i = Some item ->
  insert_body meal_id (Some (Array all)) i inserted st
    = Some (inserted + (match fst (apply_entry meal_id i item st) with
                        | Applied => 1
                        | _ => 0
                        end),
            snd (apply_entry meal_id i item st)).
Proof.
  intros Hi. unfold insert_body, apply_entry.
  cbn [cJSON_GetArrayItem]. rewrite Hi, item_is_valid_required.
  destruct (has_required_numbers item); [|cbn; now rewrite Z.add_0_r].
  unfold bind, db_execute.
  destruct st as [conn|]; [|cbn; now rewrite Z.add_0_r].
  destruct (mysql_query conn (item_sql meal_id i (Some item))) as [ok conn'] eqn:Eq.
  destruct ok; [|cbn; now rewrite Z.add_0_r].
  pose proof (rows_counted _ _ _ Eq) as Hrows.
  rewrite to_int_small by lia.
  replace (mysql_affected_rows conn' >=? 0) with true
    by (symmetry; apply Z.geb_le; lia).
  reflexivity.
Qed.

Lemma insert_loop_batch (meal_id : Z) (rest : list cJSON) :
  forall (done : list cJSON) (inserted : Z) (st : db_state),
    insert_loop (List.length rest) (List.length done) meal_id
                (Some (Array (done ++ rest))) inserted st
      = Some (inserted
                + count_applied (fst (apply_batch meal_id (List.length done) rest st)),
              snd (apply_batch meal_id (List.length done) rest st)).
Proof.
  induction rest as [|item rest IH]; intros done inserted st.
  - cbn. now rewrite Z.add_0_r.
  - cbn [List.length insert_loop apply_batch]. unfold bind.
    rewrite (insert_body_entry meal_id (done ++ item :: rest) (List.length done) item)
      by apply nth_error_middle.
    destruct (apply_entry meal_id (List.length done) item st) as [o st1].
    specialize (IH (done ++ [item])).
    rewrite <- app_assoc, length_app in IH. cbn [app List.length] in IH.
    rewrite Nat.add_1_r in IH.
    cbn [fst snd]. rewrite IH.
    destruct (apply_batch meal_id (S (List.length done)) rest st1) as [os st2].
    cbn [fst snd]. rewrite count_applied_cons. f_equal. f_equal. lia.
Qed.

(** Exactly the entries lacking a required number are skipped. *)
Lemma apply_batch_skips (meal_id : Z) (items : list cJSON) :
  forall (i : nat) (st : db_state),
    Forall2 (fun item o => o = Skipped <-> has_required_numbers item = false)
            items (fst (apply_batch meal_id i items st)).
Proof.
  induction items as [|item items IH]; intros i st; cbn [apply_batch].
  - constructor.
  - destruct (apply_entry meal_id i item st) as [o st1] eqn:Eo.
    specialize (IH (S i) st1).
    destruct (apply_batch meal_id (S i) items st1) as [os st2].
    cbn [fst] in *. constructor; [|exact IH].
    unfold apply_entry in Eo.
    destruct (has_required_numbers item).
    + destruct st as [conn|].
      * destruct (mysql_query conn _) as [ok conn'].
        injection Eo as <- _. destruct ok; split; discriminate.
      * injection Eo as <- _. split; discriminate.
    + injection Eo as <- _. split; reflexivity.
Qed.


End Bulk.

Lemma accepting_engine_counts_rows : counts_rows (lib := accepting_engine).
Proof. intros conn q conn' _. cbn. lia. Qed.


End BulkInsertFacts.

(* ===================================================================== *)
(** * GET /api/templates/{id}/full                                       *)
(* ===================================================================== *)

Module TemplateFacts.
Import LibC LibCFacts ListFacts CJson Db Http Routes Spec.

Lemma id_cell_has_id (row : MYSQL_ROW) :
  has_id row = true -> id_cell row = Some (the_id row).
Proof.
  unfold has_id, the_id, id_cell. now destruct (cell row 0).
Qed.

Lemma day_object_node (row : MYSQL_ROW) :
  has_id row = true -> day_object row = Some (the_id row, day_node row).
Proof. intros H. unfold day_object. now rewrite (id_cell_has_id row H). Qed.

Lemma meal_object_node (row : MYSQL_ROW) :
  has_id row = true -> meal_object row = Some (the_id row, meal_node row).
Proof. intros H. unfold meal_object. now rewrite (id_cell_has_id row H). Qed.

Lemma item_object_node (row : MYSQL_ROW) :
  has_id row = true -> item_object row = Some (item_node row).
Proof. intros H. unfold item_object. now rewrite (id_cell_has_id row H). Qed.

(** The bounded fetch loop takes the first [bound - count] rows, turns
    each into a node and never looks at the rows after them. *)
Lemma collect_firstn (bound : nat) (make : MYSQL_ROW -> option (Z * cJSON))
  (f : MYSQL_ROW -> Z * cJSON) :
  (forall row, has_id row = true -> make row = Some (f row)) ->
  forall rows count array ids,
    forallb has_id (firstn (bound - count) rows) = true ->
    collect bound make rows count array ids
      = Some (array ++ map (fun row => snd (f row)) (firstn (bound - count) rows),
              ids ++ map (fun row => fst (f row)) (firstn (bound - count) rows),
              (count + List.length (firstn (bound - count) rows))%nat).
Proof.
  intros Hmake. induction rows as [|row rows IH]; intros count array ids Hids.
  - rewrite firstn_nil. cbn. now rewrite !app_nil_r, Nat.add_0_r.
  - cbn [collect]. destruct (Nat.ltb count bound) eqn:Hlt.
    + apply Nat.ltb_lt in Hlt.
      replace (bound - count)%nat with (S (bound - S count)) in * by lia.
      cbn [firstn forallb map List.length] in *.
      apply andb_true_iff in Hids as [Hrow Hrest].
      rewrite (Hmake row Hrow). destruct (f row) as [id obj] eqn:Ef.
      rewrite (IH (S count) (array ++ [obj]) (ids ++ [id]) Hrest).
      cbn [fst snd]. rewrite <- !app_assoc. cbn [app].
      now rewrite Nat.add_succ_r.
    + apply Nat.ltb_ge in Hlt.
      replace (bound - count)%nat with 0%nat by lia.
      cbn. now rewrite !app_nil_r, Nat.add_0_r.
Qed.

(** The unbounded fetch loop takes every row. *)
Lemma fetch_all_map (make : MYSQL_ROW -> option cJSON) (f : MYSQL_ROW -> cJSON) :
  (forall row, has_id row = true -> make row = Some (f row)) ->
  forall rows array,
    forallb has_id rows = true ->
    fetch_all make rows array = Some (array ++ map f rows).
Proof.
  intros Hmake. induction rows as [|row rows IH]; intros array Hids.
  - cbn. now rewrite app_nil_r.
  - cbn [forallb fetch_all map] in *. apply andb_true_iff in Hids as [Hrow Hrest].
    rewrite (Hmake row Hrow), (IH _ Hrest), <- app_assoc. reflexivity.
Qed.

Section Loops.
Context {lib : MySQL}.

Lemma db_query_total (q : string) (st : db_state) :
  exists r st', db_query q st = Some (r, st').
Proof.
  unfold db_query. destruct st as [conn|]; [|now eexists; eexists].
  destruct (mysql_query conn q) as [ok conn1]. destruct ok; [|now eexists; eexists].
  destruct (mysql_store_result conn1) as [result conn2]. now eexists; eexists.
Qed.

Lemma db_query_rows (q : string) (st st' : db_state) (rows : MYSQL_RES) :
  rows_have_ids -> db_query q st = Some (Some rows, st') ->
  forallb has_id rows = true.
Proof.
  intros Hwf. unfold db_query. destruct st as [conn|]; [|discriminate].
  destruct (mysql_query conn q) as [ok conn1]. destruct ok; [|discriminate].
  destruct (mysql_store_result conn1) as [result conn2] eqn:Es.
  intros E. injection E as -> _. exact (Hwf _ _ _ Es).
Qed.

(** A loop whose body rewrites at most the element it is at: the
    elements before and after the range stay, each element in the range
    is related to what replaces it. *)
Lemma for_loop_pointwise (R : cJSON -> cJSON -> Prop)
  (body : nat -> list cJSON -> Prog (list cJSON)) :
  (forall pre a rest st,
     exists b st', body (List.length pre) (pre ++ a :: rest) st
                     = Some (pre ++ b :: rest, st')
                   /\ R a b) ->
  forall suf pre tail st,
    exists suf' st',
      for_loop (List.length suf) (List.length pre) body (pre ++ suf ++ tail) st
        = Some (pre ++ suf' ++ tail, st')
      /\ Forall2 R suf suf'.
Proof.
  intros Hbody. induction suf as [|a suf IH]; intros pre tail st.
  - exists [], st. split; [reflexivity | constructor].
  - cbn [List.length for_loop app]. unfold bind.
    destruct (Hbody pre a (suf ++ tail) st) as (b & st1 & -> & Hab).
    destruct (IH (pre ++ [b]) tail st1) as (suf' & st2 & Hloop & Hsuf).
    rewrite length_app, Nat.add_1_r, <- app_assoc in Hloop. cbn [List.length app] in Hloop.
    exists (b :: suf'), st2. split.
    + rewrite Hloop, <- app_assoc. reflexivity.
    + now constructor.
Qed.

Hypothesis ids_present : rows_have_ids.

Lemma meal_body_failure (meal_ids : list Z) (j : nat) (meals_arr : list cJSON)
  (st st' : db_state) :
  db_query (items_sql (nth j meal_ids 0)) st = Some (None, st') ->
  meal_body meal_ids j meals_arr st = Some (meals_arr, st').
Proof. intros E. unfold meal_body, bind. now rewrite E. Qed.

Lemma day_body_failure (day_ids : list Z) (i : nat) (days_arr : list cJSON)
  (st st' : db_state) :
  db_query (meals_sql (nth i day_ids 0)) st = Some (None, st') ->
  day_body day_ids i days_arr st = Some (days_arr, st').
Proof. intros E. unfold day_body, bind. now rewrite E. Qed.

(** One turn of the items loop always completes and touches only the
    meal it is at. *)
Lemma meal_body_shape (meal_ids : list Z) (pre : list cJSON) (a : cJSON)
  (rest : list cJSON) (st : db_state) :
  exists b st',
    meal_body meal_ids (List.length pre) (pre ++ a :: rest) st
      = Some (pre ++ b :: rest, st')
    /\ meal_step a b.
Proof.
  unfold meal_body, bind. cbn [cJSON_GetArrayItem].
  rewrite nth_error_middle.
  destruct (db_query_total (items_sql (nth (List.length pre) meal_ids 0)) st)
    as (r & st' & E).
  rewrite E. destruct r as [rows|].
  - pose proof (db_query_rows _ _ _ _ ids_present E) as Hrows.
    rewrite (fetch_all_map item_object item_node item_object_node rows _ Hrows).
    cbn [lift ret store_children]. rewrite set_nth_middle.
    eexists. eexists. split; [reflexivity|]. right. now exists rows.
  - exists a, st'. split; [reflexivity | now left].
Qed.

Lemma meal_step_filled (row : MYSQL_ROW) (m : cJSON) :
  meal_step (meal_node row) m -> meal_filled row m.
Proof.
  intros [->|(item_rows & ->)]; [now left|]. right. now exists item_rows.
Qed.

Lemma meal_steps_filled (rows : MYSQL_RES) (meals : list cJSON) :
  Forall2 meal_step (map meal_node rows) meals -> Forall2 meal_filled rows meals.
Proof.
  revert meals. induction rows as [|row rows IH]; intros meals H; inversion H; subst.
  - constructor.
  - constructor; [now apply meal_step_filled | now apply IH].
Qed.

(** One turn of the meals loop always completes and touches only the day
    it is at. *)
Lemma day_body_shape (day_ids : list Z) (pre : list cJSON) (a : cJSON)
  (rest : list cJSON) (st : db_state) :
  exists b st',
    day_body day_ids (List.length pre) (pre ++ a :: rest) st
      = Some (pre ++ b :: rest, st')
    /\ day_step a b.
Proof.
  unfold day_body, bind. cbn [cJSON_GetArrayItem].
  rewrite nth_error_middle.
  destruct (db_query_total (meals_sql (nth (List.length pre) day_ids 0)) st)
    as (r & st1 & E).
  rewrite E. destruct r as [rows|]; [|exists a, st1; split; [reflexivity | now left]].
  pose proof (db_query_rows _ _ _ _ ids_present E) as Hrows.
  set (old := children_of (cJSON_GetObjectItem (Some a) "meals")).
  rewrite (collect_firstn 50 meal_object (fun row => (the_id row, meal_node row))
             meal_object_node rows 0 old [] (forallb_firstn _ _ _ Hrows)).
  cbn [lift ret fst snd app Nat.add]. rewrite Nat.sub_0_r.
  set (new := firstn 50 rows).
  set (count := List.length new).
  set (meals := old ++ map meal_node new).
  assert (Hcount : (count <= List.length meals)%nat).
  { unfold meals, count. rewrite length_app, length_map. lia. }
  destruct (for_loop_pointwise meal_step (meal_body (map the_id new))
              (meal_body_shape (map the_id new))
              (firstn count meals) [] (skipn count meals) st1)
    as (suf' & st2 & Hloop & Hsuf).
  rewrite length_firstn, Nat.min_l in Hloop by exact Hcount.
  cbn [app List.length] in Hloop. rewrite firstn_skipn in Hloop.
  change (map (fun row : MYSQL_ROW => the_id row) new) with (map the_id new).
  rewrite Hloop. cbn [ret store_children]. rewrite set_nth_middle.
  eexists. eexists. split; [reflexivity|]. right.
  exists rows, (suf' ++ skipn count meals). split; [reflexivity|].
  intros Hold. fold new.
  assert (Hmeals : meals = map meal_node new) by (unfold meals, old; now rewrite Hold).
  assert (Hlen : count = List.length meals) by (rewrite Hmeals, length_map; reflexivity).
  rewrite Hlen, firstn_all, Hmeals in Hsuf.
  rewrite Hlen, skipn_all, app_nil_r.
  now apply meal_steps_filled.
Qed.

Lemma day_step_filled (row : MYSQL_ROW) (d : cJSON) :
  day_step (day_node row) d -> day_filled row d.
Proof.
  intros [->|(meal_rows & meals & -> & H)]; [now left|]. right.
  exists meal_rows, meals. split; [reflexivity|]. now apply H.
Qed.

Lemma day_steps_filled (rows : MYSQL_RES) (days : list cJSON) :
  Forall2 day_step (map day_node rows) days -> Forall2 day_filled rows days.
Proof.
  revert days. induction rows as [|row rows IH]; intros days H; inversion H; subst.
  - constructor.
  - constructor; [now apply day_step_filled | now apply IH].
Qed.

Lemma template_members_some (row : MYSQL_ROW) :
  has_id row = true -> exists template, template_members row = Some template.
Proof.
  intros H. unfold template_members. rewrite (id_cell_has_id row H). now eexists.
Qed.

(** Once the template row and the day rows are in, the handler answers
    200 whatever the later statements do; the days of the answer stand
    for the first 100 day rows. *)
Lemma template_full_ok (id : Z) (st st1 st2 : db_state) (row : MYSQL_ROW)
  (more rows : MYSQL_RES) :
  db_query (template_sql id) st = Some (Some (row :: more), st1) ->
  db_query (days_sql id) st1 = Some (Some rows, st2) ->
  exists template days st3,
    handle_get_template_full id st = Some (template_response template days, st3)
    /\ template_members row = Some template
    /\ Forall2 day_filled (firstn 100 rows) days.
Proof.
  intros E1 E2. unfold handle_get_template_full, bind. rewrite E1.
  pose proof (db_query_rows _ _ _ _ ids_present E1) as Hrow.
  cbn [forallb] in Hrow. apply andb_true_iff in Hrow as [Hrow _].
  destruct (template_members_some row Hrow) as (template & Et).
  rewrite Et. cbn [lift ret]. rewrite E2.
  pose proof (db_query_rows _ _ _ _ ids_present E2) as Hrows.
  rewrite (collect_firstn 100 day_object (fun row => (the_id row, day_node row))
             day_object_node rows 0 [] [] (forallb_firstn _ _ _ Hrows)).
  cbn [lift ret fst snd app Nat.add]. rewrite Nat.sub_0_r.
  set (new := firstn 100 rows).
  change (map (fun row : MYSQL_ROW => the_id row) new) with (map the_id new).
  change (map (fun row : MYSQL_ROW => day_node row) new) with (map day_node new).
  destruct (for_loop_pointwise day_step (day_body (map the_id new))
              (day_body_shape (map the_id new)) (map day_node new) [] [] st2)
    as (days & st3 & Hloop & Hdays).
  rewrite length_map, app_nil_r in Hloop. cbn [app List.length] in Hloop.
  rewrite Hloop.
  exists template, (days ++ []), st3. split; [reflexivity|]. split; [reflexivity|].
  rewrite app_nil_r. now apply day_steps_filled.
Qed.

(** C3: the template statement failing gives 500 "Database error"; no
    template row gives 404 "Template not found"; the days statement
    failing gives 500 "Database error"; once both have succeeded the
    answer is 200 with one day per day row (up to the bound), whatever
    happens to the statements for meals and items: when the meals
    statement of a day fails, that day stays as it is and the loop goes
    on with the days after it, and likewise for the items statement of
    a meal. *)
Theorem template_full_failures (id : Z) (st : db_state) :
  (forall st1,
     db_query (template_sql id) st = Some (None, st1) ->
     handle_get_template_full id st
       = Some (send_error_response 500 "Database error", st1))
  /\ (forall st1,
        db_query (template_sql id) st = Some (Some [], st1) ->
        handle_get_template_full id st
          = Some (send_error_response 404 "Template not found", st1))
  /\ (forall row more st1 st2,
        db_query (template_sql id) st = Some (Some (row :: more), st1) ->
        db_query (days_sql id) st1 = Some (None, st2) ->
        handle_get_template_full id st
          = Some (send_error_response 500 "Database error", st2))
  /\ (forall row more st1 rows st2,
        db_query (template_sql id) st = Some (Some (row :: more), st1) ->
        db_query (days_sql id) st1 = Some (Some rows, st2) ->
        exists template days st3,
          handle_get_template_full id st = Some (template_response template days, st3)
          /\ status (template_response template days) = 200
          /\ List.length days = Nat.min 100 (List.length rows))
  /\ (forall day_ids pre a rest st0 st1,
        db_query (meals_sql (nth (List.length pre) day_ids 0)) st0 = Some (None, st1) ->
        exists rest' st2,
          for_loop (S (List.length rest)) (List.length pre) (day_body day_ids)
                   (pre ++ a :: rest) st0
            = Some (pre ++ a :: rest', st2)
          /\ for_loop (List.length rest) (S (List.length pre)) (day_body day_ids)
                      (pre ++ a :: rest) st1
               = Some (pre ++ a :: rest', st2)
          /\ Forall2 day_step rest rest')
  /\ (forall meal_ids pre a rest st0 st1,
        db_query (items_sql (nth (List.length pre) meal_ids 0)) st0 = Some (None, st1) ->
        exists rest' st2,
          for_loop (S (List.length rest)) (List.length pre) (meal_body meal_ids)
                   (pre ++ a :: rest) st0
            = Some (pre ++ a :: rest', st2)
          /\ for_loop (List.length rest) (S (List.length pre)) (meal_body meal_ids)
                      (pre ++ a :: rest) st1
               = Some (pre ++ a :: rest', st2)
          /\ Forall2 meal_step rest rest').
Proof.
  split; [|split; [|split; [|split; [|split]]]].
  - intros st1 E. unfold handle_get_template_full, bind. now rewrite E.
  - intros st1 E. unfold handle_get_template_full, bind. now rewrite E.
  - intros row more st1 st2 E1 E2. unfold handle_get_template_full, bind.
    rewrite E1.
    pose proof (db_query_rows _ _ _ _ ids_present E1) as Hrow.
    cbn [forallb] in Hrow. apply andb_true_iff in Hrow as [Hrow _].
    destruct (template_members_some row Hrow) as (template & Et).
    rewrite Et. cbn [lift ret]. now rewrite E2.
  - intros row more st1 rows st2 E1 E2.
    destruct (template_full_ok id st st1 st2 row more rows E1 E2)
      as (template & days & st3 & Hrun & _ & Hdays).
    exists template, days, st3. split; [exact Hrun|]. split; [reflexivity|].
    rewrite <- (Forall2_length Hdays). apply length_firstn.
  - intros day_ids pre a rest st0 st1 E.
    destruct (for_loop_pointwise day_step (day_body day_ids)
                (day_body_shape day_ids) rest (pre ++ [a]) [] st1)
      as (rest' & st2 & Hloop & Hrest).
    rewrite length_app, Nat.add_1_r, <- !app_assoc, !app_nil_r in Hloop.
    cbn [app List.length] in Hloop.
    exists rest', st2. split; [|split; [exact Hloop | exact Hrest]].
    cbn [for_loop]. unfold bind at 1.
    now rewrite (day_body_failure day_ids _ _ st0 st1 E).
  - intros meal_ids pre a rest st0 st1 E.
    destruct (for_loop_pointwise meal_step (meal_body meal_ids)
                (meal_body_shape meal_ids) rest (pre ++ [a]) [] st1)
      as (rest' & st2 & Hloop & Hrest).
    rewrite length_app, Nat.add_1_r, <- !app_assoc, !app_nil_r in Hloop.
    cbn [app List.length] in Hloop.
    exists rest', st2. split; [|split; [exact Hloop | exact Hrest]].
    cbn [for_loop]. unfold bind at 1.
    now rewrite (meal_body_failure meal_ids _ _ st0 st1 E).
Qed.

(** One turn of the items loop whose statement succeeds: every row of
    the result becomes an item of the meal it is at. *)
Lemma meal_body_rows (meal_ids : list Z) (pre : list cJSON) (a : cJSON)
  (rest : list cJSON) (st st1 : db_state) (rows : MYSQL_RES) :
  db_query (items_sql (nth (List.length pre) meal_ids 0)) st = Some (Some rows, st1) ->
  meal_body meal_ids (List.length pre) (pre ++ a :: rest) st
    = Some (pre ++ set_member a "items"
                     (Array (children_of (cJSON_GetObjectItem (Some a) "items")
                             ++ map item_node rows)) :: rest, st1).
Proof.
  intros E. unfold meal_body, bind. cbn [cJSON_GetArrayItem].
  rewrite nth_error_middle, E.
  pose proof (db_query_rows _ _ _ _ ids_present E) as Hrows.
  rewrite (fetch_all_map item_object item_node item_object_node rows _ Hrows).
  cbn [lift ret store_children]. now rewrite set_nth_middle.
Qed.

(** One turn of the meals loop whose statement succeeds, at a day that
    has no meals yet: the day receives what the items loop makes of the
    nodes of the first 50 rows. *)
Lemma day_body_rows (day_ids : list Z) (pre : list cJSON) (a : cJSON)
  (rest : list cJSON) (st st1 : db_state) (rows : MYSQL_RES) :
  db_query (meals_sql (nth (List.length pre) day_ids 0)) st = Some (Some rows, st1) ->
  children_of (cJSON_GetObjectItem (Some a) "meals") = [] ->
  exists meals st2,
    day_body day_ids (List.length pre) (pre ++ a :: rest) st
      = Some (pre ++ set_member a "meals" (Array meals) :: rest, st2)
    /\ for_loop (List.length (firstn 50 rows)) 0
                (meal_body (map the_id (firstn 50 rows)))
                (map meal_node (firstn 50 rows)) st1
         = Some (meals, st2)
    /\ Forall2 meal_filled (firstn 50 rows) meals.
Proof.
  intros E Hold. unfold day_body, bind. cbn [cJSON_GetArrayItem].
  rewrite nth_error_middle, E, Hold.
  pose proof (db_query_rows _ _ _ _ ids_present E) as Hrows.
  rewrite (collect_firstn 50 meal_object (fun row => (the_id row, meal_node row))
             meal_object_node rows 0 [] [] (forallb_firstn _ _ _ Hrows)).
  cbn [lift ret fst snd app Nat.add]. rewrite Nat.sub_0_r.
  set (new := firstn 50 rows).
  change (map (fun row : MYSQL_ROW => the_id row) new) with (map the_id new).
  change (map (fun row : MYSQL_ROW => meal_node row) new) with (map meal_node new).
  destruct (for_loop_pointwise meal_step (meal_body (map the_id new))
              (meal_body_shape (map the_id new)) (map meal_node new) [] [] st1)
    as (meals & st2 & Hloop & Hmeals).
  rewrite length_map, !app_nil_r in Hloop. cbn [app List.length] in Hloop.
  rewrite Hloop. cbn [ret store_children]. rewrite set_nth_middle.
  exists meals, st2. split; [reflexivity|]. split; [reflexivity|].
  now apply meal_steps_filled.
Qed.

(** Once the template row and the day rows are in, the days of the
    answer are what the meals loop makes of the nodes of the first 100
    day rows. *)
Lemma template_full_days (id : Z) (st st1 st2 : db_state) (row : MYSQL_ROW)
  (more rows : MYSQL_RES) :
  db_query (template_sql id) st = Some (Some (row :: more), st1) ->
  db_query (days_sql id) st1 = Some (Some rows, st2) ->
  exists template days st3,
    handle_get_template_full id st = Some (template_response template days, st3)
    /\ for_loop (List.length (firstn 100 rows)) 0
                (day_body (map the_id (firstn 100 rows)))
                (map day_node (firstn 100 rows)) st2
         = Some (days, st3)
    /\ Forall2 day_filled (firstn 100 rows) days.
Proof.
  intros E1 E2. unfold handle_get_template_full, bind. rewrite E1.
  pose proof (db_query_rows _ _ _ _ ids_present E1) as Hrow.
  cbn [forallb] in Hrow. apply andb_true_iff in Hrow as [Hrow _].
  destruct (template_members_some row Hrow) as (template & Et).
  rewrite Et. cbn [lift ret]. rewrite E2.
  pose proof (db_query_rows _ _ _ _ ids_present E2) as Hrows.
  rewrite (collect_firstn 100 day_object (fun row => (the_id row, day_node row))
             day_object_node rows 0 [] [] (forallb_firstn _ _ _ Hrows)).
  cbn [lift ret fst snd app Nat.add]. rewrite Nat.sub_0_r.
  set (new := firstn 100 rows).
  change (map (fun row : MYSQL_ROW => the_id row) new) with (map the_id new).
  change (map (fun row : MYSQL_ROW => day_node row) new) with (map day_node new).
  destruct (for_loop_pointwise day_step (day_body (map the_id new))
              (day_body_shape (map the_id new)) (map day_node new) [] [] st2)
    as (days & st3 & Hloop & Hdays).
  rewrite length_map, !app_nil_r in Hloop. cbn [app List.length] in Hloop.
  rewrite Hloop.
  exists template, days, st3. split; [reflexivity|]. split; [reflexivity|].
  now apply day_steps_filled.
Qed.


End Loops.

Lemma catalog_rows_have_ids : rows_have_ids (lib := catalog_engine).
Proof.
  intros conn result conn' H. cbn in H. injection H as H _.
  unfold catalog_table in H.
  repeat match type of H with
         | (if ?c then _ else _) = _ => destruct c
         end;
    injection H as <-; vm_compute; reflexivity.
Qed.

Lemma template_full_failures_witness :
  handle_get_template_full (lib := catalog_engine) 3 (Some "")
    = Some (send_error_response 500 "Database error", Some (template_sql 3))
  /\ handle_get_template_full (lib := catalog_engine) 2 (Some "")
    = Some (send_error_response 404 "Template not found", Some (template_sql 2))
  /\ handle_get_template_full (lib := catalog_engine) 4 (Some "")
    = Some (send_error_response 500 "Database error", Some (days_sql 4))
  /\ (exists template days st3,
        handle_get_template_full (lib := catalog_engine) 1 (Some "")
          = Some (template_response template days, st3)
        /\ status (template_response template days) = 200
        /\ List.length days = Nat.min 100 (List.length (map day_row (seq 1 101))))
  /\ (exists rest' st2,
        for_loop (lib := catalog_engine) 2 0 (day_body [1; 2])
                 ([] ++ day_node (day_row 1) :: [day_node (day_row 2)]) (Some "")
          = Some ([] ++ day_node (day_row 1) :: rest', st2)
        /\ for_loop (lib := catalog_engine) 1 1 (day_body [1; 2])
                    ([] ++ day_node (day_row 1) :: [day_node (day_row 2)])
                    (Some (meals_sql 1))
             = Some ([] ++ day_node (day_row 1) :: rest', st2)
        /\ Forall2 day_step [day_node (day_row 2)] rest')
  /\ (exists rest' st2,
        for_loop (lib := catalog_engine) 1 0 (meal_body [8])
                 ([] ++ meal_node (meal_row "8") :: []) (Some "")
          = Some ([] ++ meal_node (meal_row "8") :: rest', st2)
        /\ for_loop (lib := catalog_engine) 0 1 (meal_body [8])
                    ([] ++ meal_node (meal_row "8") :: []) (Some (items_sql 8))
             = Some ([] ++ meal_node (meal_row "8") :: rest', st2)
        /\ Forall2 meal_step [] rest').
Proof.
  split; [|split; [|split; [|split; [|split]]]].
  - apply (proj1 (template_full_failures (lib := catalog_engine)
                    catalog_rows_have_ids 3 (Some ""))).
    vm_compute. reflexivity.
  - apply (proj1 (proj2 (template_full_failures (lib := catalog_engine)
                    catalog_rows_have_ids 2 (Some "")))).
    vm_compute. reflexivity.
  - apply (proj1 (proj2 (proj2 (template_full_failures (lib := catalog_engine)
                    catalog_rows_have_ids 4 (Some ""))))
             template_row [] (Some (template_sql 4))).
    + vm_compute. reflexivity.
    + vm_compute. reflexivity.
  - apply (proj1 (proj2 (proj2 (proj2 (template_full_failures (lib := catalog_engine)
                    catalog_rows_have_ids 1 (Some "")))))
             template_row [] (Some (template_sql 1)) (map day_row (seq 1 101))
             (Some (days_sql 1))).
    + vm_compute. reflexivity.
    + vm_compute. reflexivity.
  - apply (proj1 (proj2 (proj2 (proj2 (proj2 (template_full_failures
                    (lib := catalog_engine) catalog_rows_have_ids 1 (Some ""))))))
             [1; 2] [] (day_node (day_row 1)) [day_node (day_row 2)]
             (Some ""%string) (Some (meals_sql 1))).
    vm_compute. reflexivity.
  - apply (proj2 (proj2 (proj2 (proj2 (proj2 (template_full_failures
                    (lib := catalog_engine) catalog_rows_have_ids 1 (Some ""))))))
             [8] [] (meal_node (meal_row "8")) []
             (Some ""%string) (Some (items_sql 8))).
    vm_compute. reflexivity.
Defined.

Lemma crowded_rows_have_ids : rows_have_ids (lib := crowded_engine).
Proof.
  intros conn result conn' H. cbn in H. injection H as H _.
  unfold crowded_table in H.
  repeat match type of H with
         | (if ?c then _ else _) = _ => destruct c
         end;
    injection H as <-; vm_compute; reflexivity.
Qed.


End TemplateFacts.

(* ===================================================================== *)
(** * The mutex around the shared handle                                 *)
(* ===================================================================== *)

Module DbLockFacts.
Import Db DbLock Spec.

Section Exclusion.
Context {lib : MySQL}.

Lemma move_same (w : world) (t : nat) (p : point) : move w t p t = p.
Proof. unfold move. now rewrite Nat.eqb_refl. Qed.

Lemma move_other (w : world) (t u : nat) (p : point) :
  u <> t -> move w t p u = at_point w u.
Proof. intros H. unfold move. apply Nat.eqb_neq in H. now rewrite H. Qed.

Lemma holder_is (w : world) (t : nat) :
  exclusive w -> in_section (at_point w t) = true -> mutex w = Some t.
Proof.
  unfold exclusive. intros Hex Ht. destruct (mutex w) as [h|].
  - f_equal. symmetry. now apply Hex.
  - rewrite Hex in Ht. discriminate.
Qed.

Lemma nobody_pending (w : world) (t : nat) (pending : option nat) :
  exclusive w -> awaiting w pending ->
  in_section (at_point w t) = true ->
  (forall op, at_point w t <> AtFetch op) ->
  pending = None.
Proof.
  intros Hex Haw Ht Hnot. destruct pending as [u|]; [|reflexivity].
  exfalso. destruct (proj2 (Haw u) eq_refl) as [op Hu].
  pose proof (holder_is w t Hex Ht) as Hm.
  assert (Hu' : in_section (at_point w u) = true) by now rewrite Hu.
  pose proof (holder_is w u Hex Hu') as Hm'.
  rewrite Hm in Hm'. injection Hm' as ->. exact (Hnot op Hu).
Qed.

(** Thread [t], inside the section, moves to another point inside it. *)
Lemma exclusive_inside (w : world) (t : nat) (p : point) (conn : db_state) :
  exclusive w -> in_section (at_point w t) = true -> in_section p = true ->
  exclusive (mk_world (mutex w) conn (move w t p)).
Proof.
  intros Hex Ht Hp. pose proof (holder_is w t Hex Ht) as Hm.
  unfold exclusive in *. cbn [mutex at_point]. rewrite Hm in *.
  intros u. destruct (Nat.eq_dec u t) as [->|Hne].
  - rewrite move_same. now split.
  - rewrite move_other by assumption. apply Hex.
Qed.

Lemma awaiting_moved (w : world) (t : nat) (p : point) (conn : db_state)
  (m : option nat) (pending : option nat) :
  awaiting w pending ->
  (forall op, at_point w t <> AtFetch op) ->
  (forall op, p <> AtFetch op) ->
  awaiting (mk_world m conn (move w t p)) pending.
Proof.
  intros Haw Hold Hnew u. cbn [at_point].
  destruct (Nat.eq_dec u t) as [->|Hne].
  - rewrite move_same. split.
    + intros [op E]. now elim (Hnew op).
    + intros E. apply Haw in E as [op E]. now elim (Hold op).
  - rewrite move_other by assumption. apply Haw.
Qed.

(** One statement keeps the invariant and extends a serial history by a
    serial piece. *)
Lemma step_invariant (w : world) (t : nat) (pending : option nat) :
  exclusive w -> awaiting w pending ->
  exists pending',
    exclusive (fst (step w t))
    /\ awaiting (fst (step w t)) pending'
    /\ forall rest, serial pending' rest = true ->
                    serial pending (snd (step w t) ++ rest) = true.
Proof.
  intros Hex Haw. unfold step.
  destruct (at_point w t) as [last|op q|op q|op q|op|ret] eqn:Ept.
  - exists pending. cbn. auto.
  - destruct (mutex w) as [h|] eqn:Em; [exists pending; cbn; auto|].
    exists pending. cbn [fst snd app]. split; [|split; [|auto]].
    + unfold exclusive in *. rewrite Em in Hex. cbn [mutex at_point].
      intros u. destruct (Nat.eq_dec u t) as [->|Hne].
      * rewrite move_same. now split.
      * rewrite move_other by assumption. rewrite Hex. split; [discriminate|].
        intros ->. now elim Hne.
    + apply awaiting_moved; [assumption | rewrite Ept | ]; discriminate.
  - assert (Ht : in_section (at_point w t) = true) by now rewrite Ept.
    destruct (db_conn w) as [conn|]; exists pending; cbn [fst snd app];
      (split; [|split; [|auto]]);
      try (apply exclusive_inside; [assumption | assumption | reflexivity]);
      (apply awaiting_moved; [assumption | rewrite Ept | ]; discriminate).
  - assert (Ht : in_section (at_point w t) = true) by now rewrite Ept.
    destruct (db_conn w) as [conn|]; [|exists pending; cbn; auto].
    assert (Hnone : pending = None).
    { apply (nobody_pending w t pending Hex Haw Ht). rewrite Ept. discriminate. }
    subst pending.
    destruct (mysql_query conn q) as [ok conn1]. cbn [fst snd app].
    destruct ok.
    + exists (Some t). split; [|split].
      * apply exclusive_inside; [assumption | assumption | reflexivity].
      * intros u. cbn [at_point]. destruct (Nat.eq_dec u t) as [->|Hne].
        -- rewrite move_same. split; [reflexivity | now exists op].
        -- rewrite move_other by assumption. split.
           ++ intros Hu. apply Haw in Hu. discriminate.
           ++ intros E. injection E as ->. now elim Hne.
      * intros rest Hrest. exact Hrest.
    + exists None. split; [|split].
      * apply exclusive_inside; [assumption | assumption | reflexivity].
      * apply awaiting_moved; [assumption | rewrite Ept | ]; discriminate.
      * intros rest Hrest. exact Hrest.
  - assert (Ht : in_section (at_point w t) = true) by now rewrite Ept.
    destruct (db_conn w) as [conn|]; [|exists pending; cbn; auto].
    assert (Hpend : pending = Some t) by (apply Haw; now exists op).
    subst pending.
    assert (Hothers : forall u, u <> t -> forall op', at_point w u <> AtFetch op').
    { intros u Hne op' Hu. assert (E : Some t = Some u) by (apply Haw; now exists op').
      injection E as ->. now elim Hne. }
    exists None.
    assert (Hgoal : forall c ret,
      exclusive (mk_world (mutex w) c (move w t (AtUnlock ret)))
      /\ awaiting (mk_world (mutex w) c (move w t (AtUnlock ret))) None
      /\ forall rest, serial None rest = true ->
                      serial (Some t) ([Fetched t] ++ rest) = true).
    { intros c ret. split; [|split].
      - apply exclusive_inside; [assumption | assumption | reflexivity].
      - intros u. cbn [at_point]. destruct (Nat.eq_dec u t) as [->|Hne].
        + rewrite move_same. split; [intros [? ?]|]; discriminate.
        + rewrite move_other by assumption. split; [|discriminate].
          intros [op' Hu]. now elim (Hothers u Hne op').
      - intros rest Hrest. cbn. now rewrite Nat.eqb_refl. }
    destruct op.
    + destruct (mysql_store_result conn) as [result conn2]. apply Hgoal.
    + apply Hgoal.
  - assert (Ht : in_section (at_point w t) = true) by now rewrite Ept.
    pose proof (holder_is w t Hex Ht) as Hm.
    exists pending. cbn [fst snd app]. split; [|split; [|auto]].
    + unfold exclusive in *. rewrite Hm in Hex. cbn [mutex at_point].
      intros u. destruct (Nat.eq_dec u t) as [->|Hne].
      * now rewrite move_same.
      * rewrite move_other by assumption.
        destruct (in_section (at_point w u)) eqn:Hu; [|reflexivity].
        apply Hex in Hu. now elim Hne.
    + apply awaiting_moved; [assumption | rewrite Ept | ]; discriminate.
Qed.

Lemma call_invariant (w : world) (t : nat) (op : operation) (q : string)
  (pending : option nat) :
  exclusive w -> awaiting w pending ->
  exclusive (call w t op q) /\ awaiting (call w t op q) pending.
Proof.
  intros Hex Haw. unfold call.
  destruct (at_point w t) as [last| | | | |] eqn:Ept; auto.
  split.
  - unfold exclusive in *. cbn [mutex at_point].
    destruct (mutex w) as [h|]; intros u;
      (destruct (Nat.eq_dec u t) as [->|Hne];
       [rewrite move_same; specialize (Hex t); rewrite Ept in Hex; exact Hex
       | rewrite move_other by assumption; apply Hex]).
  - apply awaiting_moved; [assumption | rewrite Ept | ]; discriminate.
Qed.

Lemma run_invariant (schedule : list turn) :
  forall (w : world) (pending : option nat),
    exclusive w -> awaiting w pending ->
    exclusive (fst (run schedule w))
    /\ serial pending (snd (run schedule w)) = true.
Proof.
  induction schedule as [|turn schedule IH]; intros w pending Hex Haw.
  - cbn. auto.
  - destruct turn as [t op q|t]; cbn [run].
    + destruct (call_invariant w t op q pending Hex Haw) as [Hex' Haw'].
      exact (IH _ _ Hex' Haw').
    + destruct (step_invariant w t pending Hex Haw) as (p' & Hex' & Haw' & Hser).
      destruct (step w t) as [w1 e1]. cbn [fst snd] in *.
      destruct (IH w1 p' Hex' Haw') as [Hex2 Hser2].
      destruct (run schedule w1) as [w2 e2]. cbn [fst snd] in *.
      split; [assumption | now apply Hser].
Qed.

Lemma start_invariant (conn : db_state) :
  exclusive (start conn) /\ awaiting (start conn) None.
Proof.
  split.
  - intros t. reflexivity.
  - intros t. cbn. split; [intros [op E]|]; discriminate.
Qed.

(** C1: however the worker threads are scheduled, at any moment at most
    one of them is between the lock and the unlock of [db_query] or
    [db_execute], and on the session every accepted send is followed at
    once by the fetch of the same call: no other call sends or fetches
    in between, so the calls follow one another one at a time. *)
Theorem calls_are_serialized (conn : db_state) (schedule : list turn) :
  (forall t u,
     in_section (at_point (fst (run schedule (start conn))) t) = true ->
     in_section (at_point (fst (run schedule (start conn))) u) = true ->
     t = u)
  /\ serial None (snd (run schedule (start conn))) = true.
Proof.
  destruct (start_invariant conn) as [Hex Haw].
  destruct (run_invariant schedule (start conn) None Hex Haw) as [Hex' Hser].
  split; [|exact Hser].
  intros t u Ht Hu.
  pose proof (holder_is _ t Hex' Ht) as Hmt.
  pose proof (holder_is _ u Hex' Hu) as Hmu.
  rewrite Hmt in Hmu. now injection Hmu.
Qed.

Lemma run_step (t : nat) (schedule : list turn) (w : world) :
  fst (run (Step t :: schedule) w) = fst (run schedule (fst (step w t))).
Proof.
  cbn [run]. destruct (step w t) as [w1 e1]. cbn [fst].
  now destruct (run schedule w1) as [w2 e2].
Qed.

Lemma step_lock (w : world) (t : nat) (op : operation) (q : string) :
  at_point w t = AtLock op q -> mutex w = None ->
  at_point (fst (step w t)) t = AtCheck op q
  /\ mutex (fst (step w t)) = Some t
  /\ db_conn (fst (step w t)) = db_conn w.
Proof. intros Hp Hm. unfold step. rewrite Hp, Hm. cbn [fst at_point mutex db_conn]. now rewrite move_same. Qed.

Lemma step_check (w : world) (t : nat) (op : operation) (q : string) :
  at_point w t = AtCheck op q ->
  at_point (fst (step w t)) t
    = match db_conn w with
      | None => AtUnlock (failure op)
      | Some _ => AtSend op q
      end
  /\ mutex (fst (step w t)) = mutex w
  /\ db_conn (fst (step w t)) = db_conn w.
Proof.
  intros Hp. unfold step. rewrite Hp.
  destruct (db_conn w); cbn [fst at_point mutex db_conn]; now rewrite move_same.
Qed.

Lemma step_send (w : world) (t : nat) (op : operation) (q : string) (conn : MYSQL) :
  at_point w t = AtSend op q -> db_conn w = Some conn ->
  at_point (fst (step w t)) t
    = (if fst (mysql_query conn q) then AtFetch op else AtUnlock (failure op))
  /\ mutex (fst (step w t)) = mutex w
  /\ db_conn (fst (step w t)) = Some (snd (mysql_query conn q)).
Proof.
  intros Hp Hc. unfold step. rewrite Hp, Hc.
  destruct (mysql_query conn q) as [ok conn1]. cbn [fst at_point mutex db_conn]. now rewrite move_same.
Qed.

Lemma step_fetch (w : world) (t : nat) (op : operation) (conn : MYSQL) :
  at_point w t = AtFetch op -> db_conn w = Some conn ->
  at_point (fst (step w t)) t
    = AtUnlock (match op with
                | Query => Rows (fst (mysql_store_result conn))
                | Execute => Affected (LibC.to_int (mysql_affected_rows conn))
                end)
  /\ mutex (fst (step w t)) = mutex w
  /\ db_conn (fst (step w t))
     = Some (match op with
             | Query => snd (mysql_store_result conn)
             | Execute => conn
             end).
Proof.
  intros Hp Hc. unfold step. rewrite Hp, Hc. destruct op.
  - destruct (mysql_store_result conn) as [result conn2]. cbn [fst at_point mutex db_conn]. now rewrite move_same.
  - cbn [fst at_point mutex db_conn]. now rewrite move_same.
Qed.

Lemma step_unlock (w : world) (t : nat) (ret : returned) :
  at_point w t = AtUnlock ret ->
  at_point (fst (step w t)) t = Outside (Some ret)
  /\ mutex (fst (step w t)) = None
  /\ db_conn (fst (step w t)) = db_conn w.
Proof. intros Hp. unfold step. rewrite Hp. cbn [fst at_point mutex db_conn]. now rewrite move_same. Qed.

Lemma step_outside (w : world) (t : nat) (last : option returned) :
  at_point w t = Outside last -> fst (step w t) = w.
Proof. intros Hp. unfold step. now rewrite Hp. Qed.

Lemma run_idle (t : nat) (n : nat) (w : world) (last : option returned) :
  at_point w t = Outside last -> fst (run (repeat (Step t) n) w) = w.
Proof.
  intros Hp. induction n as [|n IH]; [reflexivity|].
  cbn [repeat]. now rewrite run_step, (step_outside w t last Hp).
Qed.

Lemma run_from_unlock (t : nat) (n : nat) (w : world) (ret : returned) :
  at_point w t = AtUnlock ret ->
  finished (fst (run (repeat (Step t) (S n)) w)) t ret (db_conn w).
Proof.
  intros Hp. cbn [repeat]. rewrite run_step.
  destruct (step_unlock w t ret Hp) as (P & M & C).
  rewrite (run_idle t n _ _ P). unfold finished. auto.
Qed.

Lemma run_from_fetch (t : nat) (n : nat) (w : world) (op : operation) (conn : MYSQL) :
  at_point w t = AtFetch op -> db_conn w = Some conn ->
  finished (fst (run (repeat (Step t) (S (S n))) w)) t
    (match op with
     | Query => Rows (fst (mysql_store_result conn))
     | Execute => Affected (LibC.to_int (mysql_affected_rows conn))
     end)
    (Some (match op with
           | Query => snd (mysql_store_result conn)
           | Execute => conn
           end)).
Proof.
  intros Hp Hc. cbn [repeat]. rewrite run_step.
  destruct (step_fetch w t op conn Hp Hc) as (P & M & C).
  pose proof (run_from_unlock t n _ _ P) as H. cbn [repeat] in H.
  now rewrite C in H.
Qed.

Lemma sequential_connected (op : operation) (q : string) (conn : MYSQL) :
  sequential op q (Some conn)
    = Some (if fst (mysql_query conn q)
            then (match op with
                  | Query => Rows (fst (mysql_store_result (snd (mysql_query conn q))))
                  | Execute =>
                      Affected (LibC.to_int (mysql_affected_rows (snd (mysql_query conn q))))
                  end,
                  Some (match op with
                        | Query => snd (mysql_store_result (snd (mysql_query conn q)))
                        | Execute => snd (mysql_query conn q)
                        end))
            else (failure op, Some (snd (mysql_query conn q)))).
Proof.
  unfold sequential, db_query, db_execute.
  destruct (mysql_query conn q) as [ok conn1]. cbn [fst snd].
  destruct op, ok; cbn [option_map fst snd failure]; try reflexivity.
  now destruct (mysql_store_result conn1).
Qed.

Lemma run_from_send (t : nat) (n : nat) (w : world) (op : operation) (q : string)
  (conn : MYSQL) :
  at_point w t = AtSend op q -> db_conn w = Some conn ->
  exists ret st',
    sequential op q (Some conn) = Some (ret, st')
    /\ finished (fst (run (repeat (Step t) (S (S (S n)))) w)) t ret st'.
Proof.
  intros Hp Hc. rewrite sequential_connected.
  cbn [repeat]. rewrite run_step.
  destruct (step_send w t op q conn Hp Hc) as (P & M & C).
  destruct (fst (mysql_query conn q)).
  - eexists. eexists. split; [reflexivity|].
    pose proof (run_from_fetch t n _ op _ P C) as H. cbn [repeat] in H. exact H.
  - eexists. eexists. split; [reflexivity|].
    pose proof (run_from_unlock t (S n) _ _ P) as H. cbn [repeat] in H.
    now rewrite C in H.
Qed.

Lemma run_from_check (t : nat) (n : nat) (w : world) (op : operation) (q : string) :
  at_point w t = AtCheck op q ->
  exists ret st',
    sequential op q (db_conn w) = Some (ret, st')
    /\ finished (fst (run (repeat (Step t) (S (S (S (S n))))) w)) t ret st'.
Proof.
  intros Hp. cbn [repeat]. rewrite run_step.
  destruct (step_check w t op q Hp) as (P & M & C).
  destruct (db_conn w) as [conn|] eqn:Ec.
  - destruct (run_from_send t n _ op q conn P C) as (ret & st' & Hseq & Hfin).
    exists ret, st'. split; [exact Hseq|]. cbn [repeat] in Hfin. exact Hfin.
  - exists (failure op), None. split; [now destruct op|].
    pose proof (run_from_unlock t (S (S n)) _ _ P) as H. cbn [repeat] in H.
    now rewrite C in H.
Qed.

(** A worker that runs one call with nobody in its way does what the
    sequential [db_query] and [db_execute] do, and leaves the mutex
    free. *)
Lemma solo_call (t : nat) (op : operation) (q : string) (w : world) :
  at_point w t = AtLock op q -> mutex w = None ->
  exists ret st',
    sequential op q (db_conn w) = Some (ret, st')
    /\ finished (fst (run (repeat (Step t) 5) w)) t ret st'.
Proof.
  intros Hp Hm. cbn [repeat]. rewrite run_step.
  destruct (step_lock w t op q Hp Hm) as (P & M & C).
  destruct (run_from_check t 0 _ op q P) as (ret & st' & Hseq & Hfin).
  exists ret, st'. rewrite <- C. split; [exact Hseq|].
  cbn [repeat] in Hfin. exact Hfin.
Qed.

End Exclusion.

Lemma calls_are_serialized_witness :
  0%nat = 0%nat
  /\ serial None (snd (run (lib := accepting_engine) contended (start fresh_session)))
     = true.
Proof.
  split.
  - apply (proj1 (calls_are_serialized (lib := accepting_engine) fresh_session contended));
      vm_compute; reflexivity.
  - apply (proj2 (calls_are_serialized (lib := accepting_engine) fresh_session contended)).
Defined.

End DbLockFacts.

(* ===================================================================== *)
(** * More on routing                                                    *)
(* ===================================================================== *)

Module RoutingMore.
Import LibC LibCFacts Http Main Spec.

Lemma prefix_split (p u : string) :
  has_prefix p u = true -> u = (p ++ after_prefix p u)%string.
Proof.
  unfold has_prefix, after_prefix. revert u.
  induction p as [|a p IH]; intros u H.
  - cbn. rewrite Nat.sub_0_r. now rewrite substring_all.
  - destruct u as [|b u]; [discriminate|]. cbn in H.
    destruct (ascii_dec a b) as [->|]; [|discriminate].
    cbn. f_equal. exact (IH u H).
Qed.

Lemma to_int_bounds (x : Z) : - 2 ^ 31 <= to_int x < 2 ^ 31.
Proof.
  unfold to_int.
  pose proof (Z.mod_pos_bound (x + 2 ^ 31) (2 ^ 32) ltac:(lia)). lia.
Qed.

Lemma id_route_facts (p u : string) :
  has_prefix p u = true ->
  (extract_id_from_path u p >? 0) = true ->
  exists r, u = (p ++ r)%string
            /\ extract_id_from_path u p = atoi r
            /\ 0 < atoi r < 2 ^ 31.
Proof.
  intros Hp Hpos. exists (after_prefix p u).
  split; [now apply prefix_split|].
  unfold extract_id_from_path in *. rewrite Hp in *. cbn [negb] in *.
  rewrite Z.gtb_ltb in Hpos. apply Z.ltb_lt in Hpos.
  destruct (after_prefix p u) as [|c r] eqn:E; [lia|].
  split; [reflexivity|]. pose proof (to_int_bounds (value (strtol (String c r)))).
  unfold atoi in *. lia.
Qed.

Lemma template_route_facts (u : string) :
  (extract_template_id u >? 0) = true ->
  exists t n, u = ("/api/templates/" ++ t ++ "/full")%string
              /\ integer_text t n
              /\ extract_template_id u = to_int n
              /\ 0 < to_int n < 2 ^ 31.
Proof.
  intros Hpos. rewrite Z.gtb_ltb in Hpos. apply Z.ltb_lt in Hpos.
  unfold extract_template_id in *.
  destruct (has_prefix "/api/templates/" u) eqn:Hp; cbn [negb] in *; [|lia].
  set (r := after_prefix "/api/templates/" u) in *.
  destruct (converted (strtol r)) eqn:Hc; cbn [negb orb] in *; [|lia].
  destruct (streq (endstr (strtol r)) "/full") eqn:He; cbn [negb] in *; [|lia].
  destruct (strtol_complete r Hc) as (t & E & Ht & _).
  apply String.eqb_eq in He. rewrite He in E.
  exists t, (value (strtol r)). split; [|split; [exact Ht|split; [reflexivity|]]].
  - rewrite (prefix_split _ _ Hp). fold r. now rewrite E.
  - pose proof (to_int_bounds (value (strtol r))). lia.
Qed.

(** X1: every action the router takes for a request that is neither
    OPTIONS nor POST is justified by the path: the three literal routes
    are taken only for GET and exactly their path, a parameterized route
    only for GET, its prefix and an id that [atoi] (or [strtol] followed by
    /full) reads from the rest, positive and within an [int]; anything
    else is the 404 response, and the router never asks for more data,
    refuses the connection or reaches the bulk-insert handler. *)
Theorem route_other_table (method url : string) :
  match route_other method url with
  | Health => method = "GET" /\ url = "/health"
  | ListCategories => method = "GET" /\ url = "/api/categories"
  | ListFoods => method = "GET" /\ url = "/api/foods"
  | GetCategory id =>
      method = "GET"
      /\ exists r, url = ("/api/categories/" ++ r)%string /\ id = atoi r
                   /\ 0 < id < 2 ^ 31
  | GetFood id =>
      method = "GET"
      /\ exists r, url = ("/api/foods/" ++ r)%string /\ id = atoi r
                   /\ 0 < id < 2 ^ 31
  | GetTemplateFull id =>
      method = "GET"
      /\ exists t n, url = ("/api/templates/" ++ t ++ "/full")%string
                     /\ integer_text t n /\ id = to_int n /\ 0 < id < 2 ^ 31
  | Send r => r = send_error_response 404 "Not found"
  | Yes | No | BulkInsert _ _ => False
  end.
Proof.
  unfold route_other. cbv zeta.
  destruct (streq method "GET") eqn:Hg.
  2: { rewrite !andb_false_r. reflexivity. }
  apply String.eqb_eq in Hg. subst method. rewrite !andb_true_r.
  destruct (streq url "/health") eqn:H1.
  { apply String.eqb_eq in H1. auto. }
  destruct (streq url "/api/categories") eqn:H2.
  { apply String.eqb_eq in H2. auto. }
  assert (Hfoods :
    match
      (if streq url "/api/foods" then ListFoods
       else
         match
           (if has_prefix "/api/foods/" url
            then if extract_id_from_path url "/api/foods/" >? 0
                 then Some (GetFood (extract_id_from_path url "/api/foods/"))
                 else None
            else None)
         with
         | Some action => action
         | None =>
             match
               (if extract_template_id url >? 0
                then Some (GetTemplateFull (extract_template_id url))
                else None)
             with
             | Some action => action
             | None => Send (send_error_response 404 "Not found")
             end
         end)
    with
    | Health => "GET" = "GET" /\ url = "/health"
    | ListCategories => "GET" = "GET" /\ url = "/api/categories"
    | ListFoods => "GET" = "GET" /\ url = "/api/foods"
    | GetCategory id =>
        "GET" = "GET"
        /\ exists r, url = ("/api/categories/" ++ r)%string /\ id = atoi r
                     /\ 0 < id < 2 ^ 31
    | GetFood id =>
        "GET" = "GET"
        /\ exists r, url = ("/api/foods/" ++ r)%string /\ id = atoi r
                     /\ 0 < id < 2 ^ 31
    | GetTemplateFull id =>
        "GET" = "GET"
        /\ exists t n, url = ("/api/templates/" ++ t ++ "/full")%string
                       /\ integer_text t n /\ id = to_int n /\ 0 < id < 2 ^ 31
    | Send r => r = send_error_response 404 "Not found"
    | Yes | No | BulkInsert _ _ => False
    end).
  { destruct (streq url "/api/foods") eqn:H3.
    { apply String.eqb_eq in H3. auto. }
    assert (Htemplate :
      match
        match
          (if extract_template_id url >? 0
           then Some (GetTemplateFull (extract_template_id url))
           else None)
        with
        | Some action => action
        | None => Send (send_error_response 404 "Not found")
        end
      with
      | GetTemplateFull id =>
          "GET" = "GET"
          /\ exists t n, url = ("/api/templates/" ++ t ++ "/full")%string
                         /\ integer_text t n /\ id = to_int n /\ 0 < id < 2 ^ 31
      | Send r => r = send_error_response 404 "Not found"
      | _ => False
      end).
    { destruct (extract_template_id url >? 0) eqn:H6; [|reflexivity].
      split; [reflexivity|].
      destruct (template_route_facts url H6) as (t & n & E & Ht & Eid & Hr).
      exists t, n. rewrite Eid. auto. }
    destruct (has_prefix "/api/foods/" url) eqn:H4.
    - destruct (extract_id_from_path url "/api/foods/" >? 0) eqn:H5.
      + split; [reflexivity|].
        destruct (id_route_facts _ _ H4 H5) as (r & E & Eid & Hr).
        exists r. rewrite Eid. auto.
      + destruct (extract_template_id url >? 0); exact Htemplate.
    - destruct (extract_template_id url >? 0); exact Htemplate. }
  destruct (has_prefix "/api/categories/" url) eqn:H3.
  - destruct (extract_id_from_path url "/api/categories/" >? 0) eqn:H4.
    + split; [reflexivity|].
      destruct (id_route_facts _ _ H3 H4) as (r & E & Eid & Hr).
      exists r. rewrite Eid. auto.
    + exact Hfoods.
  - exact Hfoods.
Qed.

(** X2: a request whose method is none of OPTIONS, POST and GET is
    answered 404 "Not found" whatever its path, its data and the state of
    the connection, and the connection state is left as it was. *)
Theorem unknown_method_not_found (method url upload_data : string) (alloc_ok : bool)
  (con_cls : option connection_info) :
  method <> "OPTIONS" -> method <> "POST" -> method <> "GET" ->
  dispatch method url upload_data alloc_ok con_cls
    = (not_found, con_cls, Z.of_nat (String.length upload_data)).
Proof.
  intros Ho Hp Hg. unfold dispatch, streq.
  apply String.eqb_neq in Ho, Hp, Hg. rewrite Ho, Hp.
  unfold route_other, streq. rewrite Hg, !andb_false_r. reflexivity.
Qed.

Lemma unknown_method_not_found_witness :
  dispatch "DELETE" "/api/foods/7" "" true None = (not_found, None, 0).
Proof.
  apply (unknown_method_not_found "DELETE" "/api/foods/7" "" true None);
    discriminate.
Defined.

End RoutingMore.

(* ===================================================================== *)
(** * More on the body collector and the responses                       *)
(* ===================================================================== *)

Module CollectorMore.
Import LibC LibCFacts Http Main Spec More CollectorFacts.

Lemma chunk_size_append (a b : string) :
  chunk_size (a ++ b) = chunk_size a + chunk_size b.
Proof. unfold chunk_size. rewrite length_append. lia. Qed.

Lemma total_size_app (a b : list string) :
  total_size (a ++ b) = total_size a + total_size b.
Proof.
  induction a as [|c a IH]; [reflexivity|].
  cbn [app]. rewrite !total_size_cons, IH. lia.
Qed.

Lemma total_size_joined (chunks : list string) :
  total_size chunks = chunk_size (joined chunks).
Proof.
  induction chunks as [|c l IH]; [reflexivity|].
  rewrite total_size_cons. cbn [joined fold_right].
  rewrite chunk_size_append. unfold joined in IH. lia.
Qed.

(** X3: the collector's accounting. If the connection state is absent or
    agrees with its buffer (recorded length = buffer length, at most
    1 MiB), then after any invocation of the handler the state is again
    absent or in agreement, and a state that survives the invocation is
    the old one unchanged or the old one with exactly the presented
    bytes appended. *)
Theorem collector_accounting (method url upload_data : string) (alloc_ok : bool)
  (con_cls : option connection_info) :
  tracked con_cls ->
  chunk_size upload_data < 2 ^ 63 ->
  let con_cls' := snd (fst (dispatch method url upload_data alloc_ok con_cls)) in
  tracked con_cls'
  /\ forall ci', con_cls' = Some ci' ->
       match con_cls with
       | Some ci => ci' = ci \/ ci' = append_chunk ci upload_data
       | None => ci' = mk_connection_info None 0
       end.
Proof.
  intros Htr Hsz. unfold dispatch. fold (chunk_size upload_data).
  destruct (streq method "OPTIONS"); cbn [fst snd].
  { split; [exact Htr|]. intros ci' E. rewrite E. now left. }
  destruct (streq method "POST"); cbn [fst snd].
  2: { split; [exact Htr|]. intros ci' E. rewrite E. now left. }
  destruct con_cls as [ci|].
  - destruct Htr as [Hlen Hcap].
    assert (Hnn : 0 <= chunk_size upload_data) by (unfold chunk_size; lia).
    destruct (chunk_size upload_data >? 0) eqn:Hpos; cbn [fst snd].
    2: { split; [exact I|]. discriminate. }
    rewrite Z.gtb_ltb in Hpos. apply Z.ltb_lt in Hpos.
    assert (Hlo : 0 <= post_data_len ci) by (rewrite Hlen; unfold chunk_size; lia).
    rewrite size_add_small by (split; lia).
    destruct (post_data_len ci + chunk_size upload_data >? MAX_POST_SIZE) eqn:Hover;
      cbn [fst snd].
    { split; [exact I|]. discriminate. }
    rewrite Z.gtb_ltb in Hover. apply Z.ltb_ge in Hover.
    destruct alloc_ok; cbn [fst snd].
    + split.
      * split; [|exact Hover]. cbn [post_data_len]. unfold buffer at 1.
        cbn [post_data]. fold (buffer ci). rewrite chunk_size_append. lia.
      * intros ci' E. injection E as <-. now right.
    + split; [exact I|]. discriminate.
  - destruct alloc_ok; cbn [fst snd].
    + split.
      * split; cbn; [reflexivity | unfold MAX_POST_SIZE; lia].
      * intros ci' E. now injection E as <-.
    + split; [exact I|]. discriminate.
Qed.

Lemma collector_accounting_witness :
  tracked (snd (fst (dispatch "POST" "/x" "abc" true (Some (collected ["de"])))))
  /\ forall ci',
       snd (fst (dispatch "POST" "/x" "abc" true (Some (collected ["de"])))) = Some ci' ->
       ci' = collected ["de"] \/ ci' = append_chunk (collected ["de"]) "abc".
Proof.
  apply (collector_accounting "POST" "/x" "abc" true (Some (collected ["de"]))).
  - split; vm_compute; [reflexivity | discriminate].
  - vm_compute. reflexivity.
Defined.

Lemma route_post_buffer (url : string) (ci : connection_info) :
  route_post url ci
    = if streq url "/api/benchmark/bulk-insert"
      then BulkInsert (c_string (buffer ci)) (post_data_len ci)
      else not_found.
Proof.
  unfold route_post, buffer. destruct (streq url _); [|reflexivity].
  now destruct (post_data ci).
Qed.

Lemma c_string_plain (s : string) :
  all_chars not_nul s = true -> c_string s = s.
Proof.
  induction s as [|c s IH]; [reflexivity|].
  cbn [all_chars c_string]. unfold not_nul at 1. intros H.
  apply andb_true_iff in H as [Hc Hs]. apply negb_true_iff in Hc.
  rewrite Hc. now rewrite IH.
Qed.

(** X4: a POST to /api/benchmark/bulk-insert whose chunks fit under the
    cap reaches the bulk-insert handler once, on the final invocation,
    with the chunks joined in order (as a C string: up to the first NUL
    byte, so whole when the body has none) and the total length; how the
    body was cut into chunks makes no difference, and the connection
    state is released. *)
Theorem body_is_reassembled (chunks : list string) :
  Forall sized chunks ->
  total_size chunks <= MAX_POST_SIZE ->
  exchange "POST" "/api/benchmark/bulk-insert" chunks always
    = (repeat Yes (S (List.length chunks))
       ++ [BulkInsert (c_string (joined chunks)) (chunk_size (joined chunks))],
       None)
  /\ (all_chars not_nul (joined chunks) = true ->
      c_string (joined chunks) = joined chunks)
  /\ (forall chunks',
        Forall sized chunks' -> joined chunks' = joined chunks ->
        snd (exchange "POST" "/api/benchmark/bulk-insert" chunks' always) = None
        /\ last (fst (exchange "POST" "/api/benchmark/bulk-insert" chunks' always)) Yes
           = last (fst (exchange "POST" "/api/benchmark/bulk-insert" chunks always)) Yes).
Proof.
  assert (Hrun : forall l,
    Forall sized l -> total_size l <= MAX_POST_SIZE ->
    exchange "POST" "/api/benchmark/bulk-insert" l always
      = (repeat Yes (S (List.length l))
         ++ [BulkInsert (c_string (joined l)) (chunk_size (joined l))], None)).
  { intros l Hs Hfit. unfold exchange.
    cbn [number_calls]. rewrite run_calls_cons, dispatch_first. cbn [always].
    rewrite (run_chunks_fit "/api/benchmark/bulk-insert" l 1 [""]
               (mk_connection_info None 0))
      by (cbn [post_data_len]; (assumption || lia)).
    cbn [number_calls]. rewrite run_calls_cons, dispatch_final, route_post_buffer.
    change (streq "/api/benchmark/bulk-insert" "/api/benchmark/bulk-insert") with true.
    cbv iota. rewrite collected_buffer, collected_size.
    cbn [post_data_len buffer post_data append Z.add].
    rewrite total_size_joined. reflexivity. }
  intros Hs Hfit. split; [exact (Hrun chunks Hs Hfit)|].
  split; [apply c_string_plain|].
  intros chunks' Hs' Hj.
  assert (Hfit' : total_size chunks' <= MAX_POST_SIZE)
    by (rewrite total_size_joined, Hj, <- total_size_joined; exact Hfit).
  rewrite (Hrun chunks' Hs' Hfit'), (Hrun chunks Hs Hfit). cbn [fst snd].
  split; [reflexivity|]. rewrite !last_last. now rewrite Hj.
Qed.

Lemma body_is_reassembled_witness :
  exchange "POST" "/api/benchmark/bulk-insert" ["{}"; "  "] always
    = (repeat Yes 3 ++ [BulkInsert (c_string (joined ["{}"; "  "]))
                                   (chunk_size (joined ["{}"; "  "]))], None)
  /\ c_string (joined ["{}"; "  "]) = joined ["{}"; "  "].
Proof.
  destruct (body_is_reassembled ["{}"; "  "]) as (Hrun & Hplain & _).
  - repeat constructor.
  - vm_compute. discriminate.
  - split; [exact Hrun | apply Hplain; reflexivity].
Defined.

(** Chunks that fit are taken in while the allocations succeed. *)
Lemma run_chunks_fit_alloc (url : string) (alloc : nat -> bool) (pre : list string) :
  forall (n : nat) (rest : list string) (ci : connection_info),
    Forall sized pre ->
    0 <= post_data_len ci ->
    post_data_len ci + total_size pre <= MAX_POST_SIZE ->
    (forall i, (n <= i < n + List.length pre)%nat -> alloc i = true) ->
    run_calls "POST" url (number_calls n alloc (pre ++ rest)) (Some ci)
      = (let (trace, final) :=
           run_calls "POST" url (number_calls (n + List.length pre) alloc rest)
             (Some (fold_left append_chunk pre ci)) in
         (repeat Yes (List.length pre) ++ trace, final)).
Proof.
  induction pre as [|c pre IH]; intros n rest ci Hs Hlo Hhi Hall.
  - cbn. rewrite Nat.add_0_r.
    now destruct (run_calls "POST" url (number_calls n alloc rest) (Some ci)).
  - inversion Hs as [|? ? Hc Hpre]; subst.
    rewrite total_size_cons in *. cbn [app number_calls List.length] in *.
    pose proof (total_size_nonneg pre) as Hnn.
    assert (Hsz : 0 < chunk_size c < 2 ^ 63) by exact Hc.
    rewrite run_calls_cons, dispatch_chunk by (assumption || lia).
    replace (post_data_len ci + chunk_size c >? MAX_POST_SIZE) with false
      by (symmetry; rewrite Z.gtb_ltb; apply Z.ltb_ge; lia).
    rewrite (Hall n) by lia.
    cbn [fold_left repeat].
    rewrite (IH (S n) rest (append_chunk ci c)); cbn [append_chunk post_data_len];
      try assumption; try lia.
    + rewrite Nat.add_succ_r. now destruct (run_calls "POST" url _ _).
    + intros i Hi. apply Hall. lia.
Qed.

(** X5: when the body fits and the first allocation to fail is the one
    of invocation [k] (the initial [calloc] for [k = 0], the [realloc]
    for chunk [k] otherwise), the invocations before it return a bare
    MHD_YES, invocation [k] returns MHD_NO with no response queued and
    no route handler called, and the connection state is released. *)
Theorem allocation_failure_aborts (url : string) (chunks : list string)
  (alloc : nat -> bool) (k : nat) :
  Forall sized chunks ->
  total_size chunks <= MAX_POST_SIZE ->
  (k <= List.length chunks)%nat ->
  (forall i, (i < k)%nat -> alloc i = true) ->
  alloc k = false ->
  exchange "POST" url chunks alloc = (repeat Yes k ++ [No], None).
Proof.
  intros Hs Hfit Hk Hbefore Hfail. unfold exchange.
  cbn [number_calls]. rewrite run_calls_cons, dispatch_first.
  destruct k as [|j].
  - now rewrite Hfail.
  - rewrite (Hbefore 0%nat) by lia.
    assert (Hsplit : chunks = firstn j chunks ++ skipn j chunks)
      by (symmetry; apply firstn_skipn).
    assert (Hlen : List.length (firstn j chunks) = j)
      by (rewrite length_firstn; lia).
    destruct (skipn j chunks) as [|c post] eqn:Eskip.
    { apply (f_equal (@List.length string)) in Hsplit.
      rewrite length_app, Hlen in Hsplit. cbn in Hsplit. lia. }
    remember (firstn j chunks) as pre eqn:Epre. clear Epre Eskip.
    subst chunks.
    apply Forall_app in Hs as [Hpre Hrest].
    apply Forall_inv in Hrest as Hc.
    rewrite total_size_app, total_size_cons in Hfit.
    pose proof (total_size_nonneg pre) as Hnn1.
    pose proof (total_size_nonneg post) as Hnn2.
    assert (Hsz : 0 < chunk_size c < 2 ^ 63) by exact Hc.
    rewrite <- app_assoc.
    rewrite (run_chunks_fit_alloc url alloc pre 1 ((c :: post) ++ [""])
               (mk_connection_info None 0))
      by (cbn [post_data_len]; try assumption; try lia;
          intros i Hi; apply Hbefore; lia).
    cbn [app number_calls]. rewrite run_calls_cons, dispatch_chunk.
    + rewrite collected_size. cbn [post_data_len].
      replace (0 + total_size pre + chunk_size c >? MAX_POST_SIZE) with false
        by (symmetry; rewrite Z.gtb_ltb; apply Z.ltb_ge; lia).
      replace (1 + List.length pre)%nat with (S j) by lia.
      rewrite Hfail. cbn [repeat app].
      now rewrite Hlen.
    + assumption.
    + rewrite collected_size. cbn [post_data_len]. lia.
Qed.

Lemma allocation_failure_aborts_witness :
  exchange "POST" "/api/benchmark/bulk-insert" ["ab"; "cd"]
           (fun i => negb (Nat.eqb i 2))
    = (repeat Yes 2 ++ [No], None).
Proof.
  apply (allocation_failure_aborts "/api/benchmark/bulk-insert" ["ab"; "cd"]
           (fun i => negb (Nat.eqb i 2)) 2).
  - repeat constructor.
  - vm_compute. discriminate.
  - simpl. lia.
  - intros i Hi. destruct i as [|[|i]]; [reflexivity | reflexivity | lia].
  - reflexivity.
Defined.

(** X6: [send_error_response] never puts more than the 511 characters
    its buffer holds into a body, keeps the status it is given, and
    sends the whole envelope whenever the message has at most 480
    characters, which covers every message the server uses. *)
Theorem error_response_fits (status_code : Z) (message : string) :
  status (send_error_response status_code message) = status_code
  /\ exists text,
       body (send_error_response status_code message) = Text text
       /\ (String.length text <= 511)%nat
       /\ ((String.length message <= 480)%nat -> text = error_envelope message)
       /\ Forall (fun m => (String.length m <= 480)%nat)
            ["Database error"; "Not found"; "Template not found";
             "Category not found"; "Food not found"; "Request body too large";
             "Missing request body"; "Invalid JSON"; "Invalid request format"].
Proof.
  split; [reflexivity|].
  exists (snprintf 512 (error_envelope message)).
  split; [reflexivity|]. split; [apply FoodsFacts.snprintf_length|]. split.
  - intros Hlen. unfold snprintf. apply FoodsFacts.substring_short.
    unfold error_envelope. rewrite !length_append.
    change (String.length dquote) with 1%nat. cbn [String.length]. lia.
  - repeat constructor; cbn; lia.
Qed.

Lemma error_response_fits_witness :
  exists text,
    body (send_error_response 500 "Database error") = Text text
    /\ text = error_envelope "Database error".
Proof.
  destruct (error_response_fits 500 "Database error")
    as (_ & text & Hbody & _ & Hwhole & _).
  exists text. split; [exact Hbody|]. apply Hwhole. cbn. lia.
Defined.

End CollectorMore.

(* ===================================================================== *)
(** * More on the read handlers                                          *)
(* ===================================================================== *)

Module ReadersMore.
Import LibC LibCFacts ListFacts CJson Db Http Routes Spec More.

Lemma category_object_node (row : MYSQL_ROW) :
  has_id row = true ->
  option_map Object (category_members row) = Some (category_node row).
Proof.
  intros H. unfold category_members.
  now rewrite (TemplateFacts.id_cell_has_id row H).
Qed.

Lemma food_object_node (row : MYSQL_ROW) :
  has_id row = true ->
  option_map Object (food_members row) = Some (food_node row).
Proof.
  intros H. unfold food_members.
  now rewrite (TemplateFacts.id_cell_has_id row H).
Qed.

Lemma list_response_count (key : string) (items : list cJSON) :
  Z.of_nat (List.length items) < 2 ^ 31 ->
  list_response key items = list_of key items.
Proof.
  intros H. unfold list_response, list_of. cbn [cJSON_GetArraySize].
  now rewrite to_int_small by lia.
Qed.

Section Readers.
Context {lib : MySQL}.

(** X7: the two list handlers answer 500 when the statement fails and
    otherwise 200 with one node per row of the result, in the order of
    the rows, and a count equal to the number of rows (rows carry an id;
    fewer than 2^31 of them). *)
Theorem list_handlers_count (args : string -> option string) (st : db_state) :
  (forall st1,
     db_query categories_sql st = Some (None, st1) ->
     handle_list_categories st = Some (send_error_response 500 "Database error", st1))
  /\ (forall rows st1,
        db_query categories_sql st = Some (Some rows, st1) ->
        forallb has_id rows = true ->
        Z.of_nat (List.length rows) < 2 ^ 31 ->
        handle_list_categories st
          = Some (list_of "categories" (map category_node rows), st1))
  /\ (forall st1,
        db_query (foods_query (args "category_id") (args "search") (args "limit")) st
          = Some (None, st1) ->
        handle_list_foods args st
          = Some (send_error_response 500 "Database error", st1))
  /\ (forall rows st1,
        db_query (foods_query (args "category_id") (args "search") (args "limit")) st
          = Some (Some rows, st1) ->
        forallb has_id rows = true ->
        Z.of_nat (List.length rows) < 2 ^ 31 ->
        handle_list_foods args st = Some (list_of "foods" (map food_node rows), st1)).
Proof.
  split; [|split; [|split]].
  - intros st1 E. unfold handle_list_categories, bind.
    fold categories_sql. now rewrite E.
  - intros rows st1 E Hids Hlen. unfold handle_list_categories, bind.
    fold categories_sql. rewrite E.
    rewrite (TemplateFacts.fetch_all_map _ category_node category_object_node rows []
               Hids).
    cbn [lift ret app]. rewrite list_response_count by now rewrite length_map.
    reflexivity.
  - intros st1 E. unfold handle_list_foods, bind. now rewrite E.
  - intros rows st1 E Hids Hlen. unfold handle_list_foods, bind. rewrite E.
    rewrite (TemplateFacts.fetch_all_map _ food_node food_object_node rows [] Hids).
    cbn [lift ret app]. rewrite list_response_count by now rewrite length_map.
    reflexivity.
Qed.

(** X8: the two lookup handlers answer 500 when the statement fails,
    404 (with the message of the resource) when the result has no row,
    and otherwise 200 with the node of the first row alone, whatever
    rows follow it. *)
Theorem lookup_handlers (id : Z) (st : db_state) :
  (forall st1,
     db_query (category_sql id) st = Some (None, st1) ->
     handle_get_category id st = Some (send_error_response 500 "Database error", st1))
  /\ (forall st1,
        db_query (category_sql id) st = Some (Some [], st1) ->
        handle_get_category id st
          = Some (send_error_response 404 "Category not found", st1))
  /\ (forall row more st1,
        db_query (category_sql id) st = Some (Some (row :: more), st1) ->
        has_id row = true ->
        handle_get_category id st
          = Some (single_response "category" (category_node row), st1))
  /\ (forall st1,
        db_query (food_sql id) st = Some (None, st1) ->
        handle_get_food id st = Some (send_error_response 500 "Database error", st1))
  /\ (forall st1,
        db_query (food_sql id) st = Some (Some [], st1) ->
        handle_get_food id st = Some (send_error_response 404 "Food not found", st1))
  /\ (forall row more st1,
        db_query (food_sql id) st = Some (Some (row :: more), st1) ->
        has_id row = true ->
        handle_get_food id st = Some (single_response "food" (food_node row), st1)).
Proof.
  repeat split.
  - intros st1 E. unfold handle_get_category, bind. fold (category_sql id). now rewrite E.
  - intros st1 E. unfold handle_get_category, bind. fold (category_sql id). now rewrite E.
  - intros row more st1 E Hid. unfold handle_get_category, bind.
    fold (category_sql id). rewrite E. unfold category_members.
    now rewrite (TemplateFacts.id_cell_has_id row Hid).
  - intros st1 E. unfold handle_get_food, bind. fold (food_sql id). now rewrite E.
  - intros st1 E. unfold handle_get_food, bind. fold (food_sql id). now rewrite E.
  - intros row more st1 E Hid. unfold handle_get_food, bind.
    fold (food_sql id). rewrite E. unfold food_members.
    now rewrite (TemplateFacts.id_cell_has_id row Hid).
Qed.

End Readers.

Lemma list_handlers_count_witness :
  handle_list_categories (lib := pantry) (Some "")
    = Some (list_of "categories" (map category_node category_rows), Some categories_sql)
  /\ handle_list_foods (lib := pantry) no_args (Some "")
    = Some (list_of "foods" (map food_node food_rows),
            Some (foods_query None None None)).
Proof.
  destruct (list_handlers_count (lib := pantry) no_args (Some ""%string))
    as (_ & Hcat & _ & Hfood).
  split.
  - apply Hcat; vm_compute; reflexivity.
  - apply Hfood; vm_compute; reflexivity.
Defined.

Lemma lookup_handlers_witness :
  handle_get_category (lib := pantry) 9 (Some "")
    = Some (send_error_response 500 "Database error", Some (category_sql 9))
  /\ handle_get_category (lib := pantry) 7 (Some "")
    = Some (send_error_response 404 "Category not found", Some (category_sql 7))
  /\ handle_get_category (lib := pantry) 1 (Some "")
    = Some (single_response "category" (category_node (hd [] category_rows)),
            Some (category_sql 1))
  /\ handle_get_food (lib := pantry) 5 (Some "")
    = Some (single_response "food" (food_node (hd [] food_rows)), Some (food_sql 5)).
Proof.
  split; [|split; [|split]].
  - apply (proj1 (lookup_handlers (lib := pantry) 9 (Some ""%string))).
    vm_compute. reflexivity.
  - apply (proj1 (proj2 (lookup_handlers (lib := pantry) 7 (Some ""%string)))).
    vm_compute. reflexivity.
  - apply (proj1 (proj2 (proj2 (lookup_handlers (lib := pantry) 1 (Some ""%string))))
             _ []); vm_compute; reflexivity.
  - apply (proj2 (proj2 (proj2 (proj2 (proj2
             (lookup_handlers (lib := pantry) 5 (Some ""%string))))))
             _ []); vm_compute; reflexivity.
Defined.

Lemma fmt_d_limit_length (n : Z) :
  1 <= n <= 1000 -> (String.length (fmt_d n) <= 4)%nat.
Proof.
  intros H.
  assert (Hall : forallb (fun k => Nat.leb (String.length (fmt_d (Z.of_nat k))) 4)
                         (seq 0 1001) = true) by (vm_compute; reflexivity).
  rewrite forallb_forall in Hall.
  specialize (Hall (Z.to_nat n)). rewrite Z2Nat.id in Hall by lia.
  apply Nat.leb_le, Hall, in_seq. lia.
Qed.


(** X10: the search text goes into the statement as it is, between
    [LIKE '%] and [%'], with no character escaped or removed; an empty
    search text is the same as none. (The lengths are those for which
    the 512-character buffer does not cut the clause.) *)
Theorem search_is_verbatim (pat : string) :
  (forall c, foods_where c (Some "") = foods_where c None)
  /\ ((0 < String.length pat <= 490)%nat ->
      foods_where None (Some pat) = (" WHERE name LIKE '%" ++ pat ++ "%'")%string)
  /\ (forall c,
        (0 < String.length pat)%nat ->
        (String.length (category_clause c) + String.length pat + 19 <= 511)%nat ->
        foods_where (Some c) (Some pat)
          = (category_clause c ++ " AND name LIKE '%" ++ pat ++ "%'")%string).
Proof.
  split; [|split].
  - intros [c|]; reflexivity.
  - intros [Hpos Hlen]. unfold foods_where.
    replace (0 <? Z.of_nat (String.length pat)) with true
      by (symmetry; apply Z.ltb_lt; lia).
    unfold snprintf. apply FoodsFacts.substring_short.
    rewrite !length_append. cbn [String.length]. lia.
  - intros c Hpos Hlen. unfold foods_where. fold (category_clause c).
    replace (0 <? Z.of_nat (String.length pat)) with true
      by (symmetry; apply Z.ltb_lt; lia).
    assert (Hw : snprintf 512 (category_clause c) = category_clause c).
    { unfold snprintf. apply FoodsFacts.substring_short. lia. }
    rewrite Hw. f_equal.
    unfold snprintf. apply FoodsFacts.substring_short.
    rewrite !length_append. cbn [String.length]. lia.
Qed.

Lemma search_is_verbatim_witness :
  foods_where None (Some "a' OR '1'='1")
    = (" WHERE name LIKE '%" ++ "a' OR '1'='1" ++ "%'")%string
  /\ foods_where (Some "3") (Some "a' OR '1'='1")
    = (category_clause "3" ++ " AND name LIKE '%" ++ "a' OR '1'='1" ++ "%'")%string.
Proof.
  destruct (search_is_verbatim "a' OR '1'='1") as (_ & Hsearch & Hboth).
  split.
  - apply Hsearch. cbn. lia.
  - apply Hboth; vm_compute; lia.
Defined.

End ReadersMore.

(* ===================================================================== *)
(** * More on the bulk writer                                            *)
(* ===================================================================== *)

Module BulkMore.
Import LibC LibCFacts ListFacts CJson Db Http Routes Spec More.

Section AnySession.
Context {lib : MySQL}.

Lemma insert_body_bounds (meal_id : Z) (items_arr : option cJSON) (i : nat)
  (inserted : Z) (st : db_state) :
  exists inserted' st',
    insert_body meal_id items_arr i inserted st = Some (inserted', st')
    /\ inserted <= inserted' <= inserted + 1.
Proof.
  unfold insert_body.
  destruct (item_is_valid (cJSON_GetArrayItem items_arr i)).
  - unfold bind, db_execute. destruct st as [conn|].
    + destruct (mysql_query conn _) as [ok conn1]. destruct ok.
      * destruct (to_int (mysql_affected_rows conn1) >=? 0);
          eexists; eexists; (split; [reflexivity | lia]).
      * cbn. eexists; eexists; (split; [reflexivity | lia]).
    + cbn. eexists; eexists; (split; [reflexivity | lia]).
  - eexists; eexists; (split; [reflexivity | lia]).
Qed.

Lemma insert_loop_bounds (meal_id : Z) (items_arr : option cJSON) (remaining : nat) :
  forall i inserted st,
    exists inserted' st',
      insert_loop remaining i meal_id items_arr inserted st = Some (inserted', st')
      /\ inserted <= inserted' <= inserted + Z.of_nat remaining.
Proof.
  induction remaining as [|n IH]; intros i inserted st.
  - exists inserted, st. split; [reflexivity | lia].
  - cbn [insert_loop]. unfold bind.
    destruct (insert_body_bounds meal_id items_arr i inserted st)
      as (ins1 & st1 & -> & H1).
    destruct (IH (S i) ins1 st1) as (ins2 & st2 & -> & H2).
    exists ins2, st2. split; [reflexivity | lia].
Qed.


End AnySession.

Lemma recorder_counts_rows : counts_rows (lib := recorder).
Proof. intros conn q conn' _. cbn. lia. Qed.

Lemma recorder_batch (meal_id : Z) (items : list cJSON) :
  forall (i : nat) (log : list string),
    count_applied (fst (apply_batch (lib := recorder) meal_id i items (Some log)))
      = count_valid items
    /\ snd (apply_batch (lib := recorder) meal_id i items (Some log))
       = Some (log ++ batch_statements meal_id i items).
Proof.
  induction items as [|item items IH]; intros i log.
  - cbn. now rewrite app_nil_r.
  - cbn [apply_batch batch_statements]. unfold apply_entry, count_valid.
    cbn [filter].
    destruct (has_required_numbers item).
    + cbn [mysql_query recorder].
      specialize (IH (S i) (log ++ [item_sql meal_id i (Some item)])).
      destruct (apply_batch meal_id (S i) items _) as [os st2]. cbn [fst snd] in *.
      destruct IH as [Hc Hs]. rewrite BulkInsertFacts.count_applied_cons, Hc, Hs.
      unfold count_valid. cbn [List.length]. rewrite <- app_assoc. split; [lia|reflexivity].
    + specialize (IH (S i) log).
      destruct (apply_batch meal_id (S i) items _) as [os st2]. cbn [fst snd] in *.
      destruct IH as [Hc Hs]. rewrite BulkInsertFacts.count_applied_cons, Hc, Hs.
      unfold count_valid. split; [lia|reflexivity].
Qed.



End BulkMore.

(* ===================================================================== *)
(** * The template aggregate on a database that answers by the statement *)
(* ===================================================================== *)

Module TemplateMore.
Import LibC LibCFacts ListFacts CJson Db Http Routes Spec More.

Lemma nth_middle_ids (before : MYSQL_RES) (row : MYSQL_ROW) (rows : MYSQL_RES)
  (n : nat) :
  n = List.length before ->
  nth n (map the_id (before ++ row :: rows)) 0 = the_id row.
Proof.
  intros ->. rewrite map_app. cbn [map].
  rewrite app_nth2 by (rewrite length_map; lia).
  now rewrite length_map, Nat.sub_diag.
Qed.

Section Table.
Variable fails : string -> bool.
Variable table : string -> option MYSQL_RES.
Variable affected : Z.
Hypothesis ids_present : table_has_ids table.

Lemma db_query_table (q s : string) :
  db_query (lib := table_engine fails table affected) q (Some s) = Some (answer fails table q, Some q).
Proof.
  unfold db_query, answer. cbn [mysql_query mysql_store_result table_engine].
  now destruct (fails q).
Qed.

Lemma answer_ids (q : string) (rows : MYSQL_RES) :
  answer fails table q = Some rows -> forallb has_id rows = true.
Proof.
  unfold answer. destruct (fails q); [discriminate|]. apply ids_present.
Qed.

(** A loop over the nodes of [rows] whose body turns the node of each
    row into its filled form turns them all, in order. *)
Lemma for_loop_rows (node full : MYSQL_ROW -> cJSON)
  (body : list Z -> nat -> list cJSON -> Prog (lib := table_engine fails table affected) (list cJSON)) :
  (forall ids pre row rest s,
     nth (List.length pre) ids 0 = the_id row ->
     exists s', body ids (List.length pre) (pre ++ node row :: rest) (Some s)
                  = Some (pre ++ full row :: rest, Some s')) ->
  forall rows before pre tail s,
    List.length pre = List.length before ->
    exists s',
      for_loop (lib := table_engine fails table affected) (List.length rows) (List.length pre)
               (body (map the_id (before ++ rows)))
               (pre ++ map node rows ++ tail) (Some s)
        = Some (pre ++ map full rows ++ tail, Some s').
Proof.
  intros Hbody. induction rows as [|row rows IH]; intros before pre tail s Hlen.
  - exists s. reflexivity.
  - cbn [List.length for_loop map app]. unfold bind.
    destruct (Hbody (map the_id (before ++ row :: rows)) pre row
                (map node rows ++ tail) s
                (nth_middle_ids before row rows _ Hlen)) as (s1 & ->).
    destruct (IH (before ++ [row]) (pre ++ [full row]) tail s1) as (s2 & Hloop).
    { rewrite !length_app. cbn. lia. }
    rewrite length_app, Nat.add_1_r, <- !app_assoc in Hloop.
    cbn [app] in Hloop.
    exists s2. exact Hloop.
Qed.

Lemma meal_body_table (ids : list Z) (pre : list cJSON) (row : MYSQL_ROW)
  (rest : list cJSON) (s : string) :
  nth (List.length pre) ids 0 = the_id row ->
  exists s',
    meal_body (lib := table_engine fails table affected) ids (List.length pre) (pre ++ meal_node row :: rest) (Some s)
      = Some (pre ++ meal_full fails table row :: rest, Some s').
Proof.
  intros Hid. unfold meal_body, bind. cbn [cJSON_GetArrayItem].
  rewrite nth_error_middle, Hid, db_query_table. unfold meal_full.
  destruct (answer fails table (items_sql (the_id row))) as [rows|] eqn:Ea.
  - change (children_of (cJSON_GetObjectItem (Some (meal_node row)) "items"))
      with (@nil cJSON).
    rewrite (TemplateFacts.fetch_all_map item_object item_node
               TemplateFacts.item_object_node rows [] (answer_ids _ _ Ea)).
    cbn [lift ret app store_children]. rewrite set_nth_middle.
    now eexists.
  - now eexists.
Qed.

Lemma day_body_table (ids : list Z) (pre : list cJSON) (row : MYSQL_ROW)
  (rest : list cJSON) (s : string) :
  nth (List.length pre) ids 0 = the_id row ->
  exists s',
    day_body (lib := table_engine fails table affected) ids (List.length pre) (pre ++ day_node row :: rest) (Some s)
      = Some (pre ++ day_full fails table row :: rest, Some s').
Proof.
  intros Hid. unfold day_body, bind. cbn [cJSON_GetArrayItem].
  rewrite nth_error_middle, Hid, db_query_table. unfold day_full.
  destruct (answer fails table (meals_sql (the_id row))) as [rows|] eqn:Ea;
    [|now eexists].
  change (children_of (cJSON_GetObjectItem (Some (day_node row)) "meals"))
    with (@nil cJSON).
  rewrite (TemplateFacts.collect_firstn 50 meal_object
             (fun row => (the_id row, meal_node row))
             TemplateFacts.meal_object_node rows 0 [] []
             (forallb_firstn _ _ _ (answer_ids _ _ Ea))).
  cbn [lift ret fst snd app Nat.add]. rewrite Nat.sub_0_r.
  set (new := firstn 50 rows).
  change (map (fun row : MYSQL_ROW => the_id row) new) with (map the_id new).
  change (map (fun row : MYSQL_ROW => meal_node row) new) with (map meal_node new).
  destruct (for_loop_rows meal_node (meal_full fails table) (meal_body (lib := table_engine fails table affected))
              meal_body_table
              new [] [] [] (meals_sql (the_id row)) eq_refl) as (s1 & Hloop).
  cbn [app List.length] in Hloop. rewrite !app_nil_r in Hloop.
  match goal with
  | |- context [match ?run with Some _ => _ | None => _ end] =>
      replace run with (Some (map (meal_full fails table) new, Some s1))
        by (symmetry; exact Hloop)
  end.
  cbn [ret store_children]. rewrite set_nth_middle.
  now eexists.
Qed.

Lemma template_members_node (row : MYSQL_ROW) :
  has_id row = true -> template_members row = Some (template_node_members row).
Proof.
  intros H. unfold template_members.
  now rewrite (TemplateFacts.id_cell_has_id row H).
Qed.


End Table.

Lemma catalog_table_has_ids : table_has_ids catalog_table.
Proof.
  intros q rows H. unfold catalog_table in H.
  repeat match type of H with
         | (if ?c then _ else _) = _ => destruct c
         end;
    injection H as <-; vm_compute; reflexivity.
Qed.


End TemplateMore.

(* ===================================================================== *)
(** * The handle between opening and closing; the configuration          *)
(* ===================================================================== *)

Module LifeMore.
Import LibC LibCFacts CJson Db Http Routes Spec More.

Section Keeps.
Context {lib : MySQL}.

Lemma keeps_ret {A : Type} (a : A) : keeps_handle (ret a).
Proof. intros st a' st' E. injection E as _ <-. tauto. Qed.

Lemma keeps_bind {A B : Type} (m : Prog A) (k : A -> Prog B) :
  keeps_handle m -> (forall a, keeps_handle (k a)) -> keeps_handle (bind m k).
Proof.
  intros Hm Hk st b st' E. unfold bind in E.
  destruct (m st) as [[a st1]|] eqn:Em; [|discriminate].
  pose proof (Hm _ _ _ Em). pose proof (Hk a _ _ _ E). tauto.
Qed.

Lemma keeps_lift {A : Type} (o : option A) : keeps_handle (lift o).
Proof. destruct o; [apply keeps_ret | intros st a st' E; discriminate]. Qed.

Lemma keeps_db_query (q : string) : keeps_handle (db_query q).
Proof.
  intros st r st' E. unfold db_query in E. destruct st as [conn|].
  - destruct (mysql_query conn q) as [ok conn1]. destruct ok.
    + destruct (mysql_store_result conn1). injection E as _ <-. split; discriminate.
    + injection E as _ <-. split; discriminate.
  - injection E as _ <-. tauto.
Qed.

Lemma keeps_db_execute (q : string) : keeps_handle (db_execute q).
Proof.
  intros st r st' E. unfold db_execute in E. destruct st as [conn|].
  - destruct (mysql_query conn q) as [ok conn1].
    destruct ok; injection E as _ <-; split; discriminate.
  - injection E as _ <-. tauto.
Qed.

Lemma keeps_for_loop (body : nat -> list cJSON -> Prog (list cJSON)) :
  (forall i array, keeps_handle (body i array)) ->
  forall remaining i array, keeps_handle (for_loop remaining i body array).
Proof.
  intros Hbody. induction remaining as [|n IH]; intros i array; cbn [for_loop].
  - apply keeps_ret.
  - apply keeps_bind; [apply Hbody | intros a; apply IH].
Qed.

Lemma keeps_meal_body (meal_ids : list Z) (j : nat) (meals_arr : list cJSON) :
  keeps_handle (meal_body meal_ids j meals_arr).
Proof.
  unfold meal_body. apply keeps_bind; [apply keeps_db_query|].
  intros [rows|]; [|apply keeps_ret].
  apply keeps_bind; [apply keeps_lift | intros a; apply keeps_ret].
Qed.

Lemma keeps_day_body (day_ids : list Z) (i : nat) (days_arr : list cJSON) :
  keeps_handle (day_body day_ids i days_arr).
Proof.
  unfold day_body. apply keeps_bind; [apply keeps_db_query|].
  intros [rows|]; [|apply keeps_ret].
  apply keeps_bind; [apply keeps_lift|]. intros [[meals meal_ids] meal_count].
  apply keeps_bind; [|intros a; apply keeps_ret].
  apply keeps_for_loop. apply keeps_meal_body.
Qed.

Lemma keeps_insert_loop (meal_id : Z) (items_arr : option cJSON) (remaining : nat) :
  forall i inserted, keeps_handle (insert_loop remaining i meal_id items_arr inserted).
Proof.
  induction remaining as [|n IH]; intros i inserted; cbn [insert_loop].
  - apply keeps_ret.
  - apply keeps_bind; [|intros a; apply IH].
    unfold insert_body. destruct (item_is_valid _); [|apply keeps_ret].
    apply keeps_bind; [apply keeps_db_execute|].
    intros a. destruct (a >=? 0); apply keeps_ret.
Qed.

Context {connector : DbLife.Connector}.

(** X14: the handle is connected or null, and only [db_init] and
    [db_cleanup] decide which. [db_init] returns 0 exactly when it leaves
    the handle connected (and -1 otherwise); [db_cleanup] always leaves
    it null, after which [db_query] and [db_execute] report not
    connected; and no route handler ever turns a null handle into a
    connected one or a connected one into null. *)
Theorem handle_is_stable :
  (forall config,
     (fst (DbLife.db_init config) = 0 /\ snd (DbLife.db_init config) <> None)
     \/ (fst (DbLife.db_init config) = -1 /\ snd (DbLife.db_init config) = None))
  /\ (forall st q,
        db_query q (DbLife.db_cleanup st) = Some (None, None)
        /\ db_execute q (DbLife.db_cleanup st) = Some (-1, None)
        /\ DbLife.db_cleanup (DbLife.db_cleanup st) = DbLife.db_cleanup st)
  /\ keeps_handle handle_list_categories
  /\ (forall id, keeps_handle (handle_get_category id))
  /\ (forall args, keeps_handle (handle_list_foods args))
  /\ (forall id, keeps_handle (handle_get_food id))
  /\ (forall id, keeps_handle (handle_get_template_full id))
  /\ (forall parse post_data, keeps_handle (handle_bulk_insert parse post_data)).
Proof.
  split; [|split; [|split; [|split; [|split; [|split; [|split]]]]]].
  - intros config. unfold DbLife.db_init.
    destruct DbLife.mysql_init as [handle|]; [|now right].
    destruct (DbLife.mysql_real_connect handle config); [left|right]; cbn; split;
      (reflexivity || discriminate).
  - intros st q. now destruct st.
  - unfold handle_list_categories. apply keeps_bind; [apply keeps_db_query|].
    intros [rows|]; [|apply keeps_ret].
    apply keeps_bind; [apply keeps_lift | intros a; apply keeps_ret].
  - intros id. unfold handle_get_category. apply keeps_bind; [apply keeps_db_query|].
    intros [[|row more]|]; try apply keeps_ret.
    apply keeps_bind; [apply keeps_lift | intros a; apply keeps_ret].
  - intros args. unfold handle_list_foods. apply keeps_bind; [apply keeps_db_query|].
    intros [rows|]; [|apply keeps_ret].
    apply keeps_bind; [apply keeps_lift | intros a; apply keeps_ret].
  - intros id. unfold handle_get_food. apply keeps_bind; [apply keeps_db_query|].
    intros [[|row more]|]; try apply keeps_ret.
    apply keeps_bind; [apply keeps_lift | intros a; apply keeps_ret].
  - intros id. unfold handle_get_template_full.
    apply keeps_bind; [apply keeps_db_query|].
    intros [[|row more]|]; try apply keeps_ret.
    apply keeps_bind; [apply keeps_lift|]. intros template.
    apply keeps_bind; [apply keeps_db_query|].
    intros [rows|]; [|apply keeps_ret].
    apply keeps_bind; [apply keeps_lift|]. intros [[days day_ids] day_count].
    apply keeps_bind; [|intros a; apply keeps_ret].
    apply keeps_for_loop. apply keeps_day_body.
  - intros parse post_data. unfold handle_bulk_insert.
    destruct post_data as [text|]; [|apply keeps_ret].
    destruct (parse text) as [doc|]; [|apply keeps_ret].
    destruct (negb _ || negb _); [apply keeps_ret|].
    apply keeps_bind; [apply keeps_insert_loop | intros a; apply keeps_ret].
Qed.

End Keeps.

Lemma handle_is_stable_witness :
  fst (DbLife.db_init (connector := default_port_only)
         (snd (Config.load_config (fun _ => None)))) = 0
  /\ (Some categories_sql = None <-> Some ""%string = None).
Proof.
  pose proof (handle_is_stable (lib := pantry) (connector := default_port_only))
    as (Hinit & _ & Hcat & _).
  split.
  - destruct (Hinit (snd (Config.load_config (fun _ => None)))) as [[H _]|[_ H]];
      [exact H | discriminate H].
  - symmetry.
    apply (Hcat (Some ""%string)
             (list_of "categories" (map category_node category_rows))
             (Some categories_sql)).
    vm_compute. reflexivity.
Defined.

(** X15: [load_config] always succeeds; a variable set to the empty
    string counts as unset; host, user and database name are never
    empty; and a port is the default when its variable is unset or
    empty and otherwise whatever [atoi] reads from the value, with no
    check that it is a port at all (text without a leading number
    gives 0). *)
Theorem config_from_environment (getenv : string -> option string) :
  fst (Config.load_config getenv) = 0
  /\ Config.load_config (Config.without_empty getenv) = Config.load_config getenv
  /\ Config.db_host (snd (Config.load_config getenv)) <> ""
  /\ Config.db_user (snd (Config.load_config getenv)) <> ""
  /\ Config.db_name (snd (Config.load_config getenv)) <> ""
  /\ (forall value,
        getenv "PORT" = Some value -> value <> "" ->
        Config.server_port (snd (Config.load_config getenv)) = atoi value
        /\ (converted (strtol value) = false ->
            Config.server_port (snd (Config.load_config getenv)) = 0))
  /\ (getenv "PORT" = None \/ getenv "PORT" = Some "" ->
      Config.server_port (snd (Config.load_config getenv)) = 8080)
  /\ (forall value,
        getenv "DB_PORT" = Some value -> value <> "" ->
        Config.db_port (snd (Config.load_config getenv)) = atoi value)
  /\ (getenv "DB_PORT" = None \/ getenv "DB_PORT" = Some "" ->
      Config.db_port (snd (Config.load_config getenv)) = 3306).
Proof.
  assert (Hstr : forall name d,
    Config.get_env_or_default (Config.without_empty getenv) name d
      = Config.get_env_or_default getenv name d).
  { intros name d. unfold Config.get_env_or_default, Config.without_empty.
    destruct (getenv name) as [[|c v]|]; reflexivity. }
  assert (Hint : forall name d,
    Config.get_env_int_or_default (Config.without_empty getenv) name d
      = Config.get_env_int_or_default getenv name d).
  { intros name d. unfold Config.get_env_int_or_default, Config.without_empty.
    destruct (getenv name) as [[|c v]|]; reflexivity. }
  assert (Hne : forall name d,
    d <> "" -> Config.get_env_or_default getenv name d <> "").
  { intros name d Hd. unfold Config.get_env_or_default.
    destruct (getenv name) as [[|c v]|]; (assumption || discriminate). }
  assert (Hset : forall name d value,
    getenv name = Some value -> value <> "" ->
    Config.get_env_int_or_default getenv name d = atoi value).
  { intros name d value E Hv. unfold Config.get_env_int_or_default. rewrite E.
    destruct value; [now elim Hv | reflexivity]. }
  assert (Hunset : forall name d,
    getenv name = None \/ getenv name = Some "" ->
    Config.get_env_int_or_default getenv name d = d).
  { intros name d [E|E]; unfold Config.get_env_int_or_default; now rewrite E. }
  unfold Config.load_config. cbn [fst snd Config.db_host Config.db_user
    Config.db_name Config.server_port Config.db_port].
  split; [reflexivity|]. split; [now rewrite !Hstr, !Hint|].
  split; [apply Hne; discriminate|]. split; [apply Hne; discriminate|].
  split; [apply Hne; discriminate|].
  split; [|split; [apply Hunset|split; [apply Hset | apply Hunset]]].
  intros value E Hv. rewrite (Hset _ _ _ E Hv). split; [reflexivity|].
  intros Hconv. unfold atoi, strtol in *.
  destruct (match skip_spaces value with
            | String c s' =>
                if Ascii.eqb c "-" then (true, s')
                else if Ascii.eqb c "+" then (false, s') else (false, skip_spaces value)
            | EmptyString => (false, skip_spaces value)
            end) as [negative rest].
  destruct (read_digits 0 0 rest) as [[magnitude ndigits] rest'].
  destruct ndigits; [reflexivity | discriminate].
Qed.

Lemma config_from_environment_witness :
  Config.server_port
    (snd (Config.load_config (fun name => if String.eqb name "PORT" then Some "http" else None)))
    = 0
  /\ Config.db_port
       (snd (Config.load_config (fun name => if String.eqb name "PORT" then Some "http" else None)))
     = 3306.
Proof.
  pose proof (config_from_environment
                (fun name => if String.eqb name "PORT" then Some "http" else None))
    as (_ & _ & _ & _ & _ & Hport & _ & _ & Hdb).
  split.
  - apply (Hport "http"); [reflexivity | discriminate | reflexivity].
  - apply Hdb. now left.
Defined.

End LifeMore.

(* ===================================================================== *)
(** * More on the mutex: one call among the others                       *)
(* ===================================================================== *)

Module LockMore.
Import Db DbLock DbLockFacts Spec More.

Section Isolation.
Context {lib : MySQL}.

Lemma step_other_point (w : world) (t u : nat) :
  u <> t -> at_point (fst (step w u)) t = at_point w t.
Proof.
  intros Hne. assert (Hmove : forall p, move w u p t = at_point w t)
    by (intros p; apply move_other; congruence).
  unfold step.
  destruct (at_point w u) as [last|op q|op q|op q|op|ret]; try reflexivity.
  - destruct (mutex w); [reflexivity | apply Hmove].
  - destruct (db_conn w); apply Hmove.
  - destruct (db_conn w) as [conn|]; [|reflexivity].
    destruct (mysql_query conn q) as [ok conn1]. apply Hmove.
  - destruct (db_conn w) as [conn|]; [|reflexivity].
    destruct op; [destruct (mysql_store_result conn)|]; apply Hmove.
  - apply Hmove.
Qed.

Lemma call_other_point (w : world) (t u : nat) (op : operation) (q : string) :
  u <> t -> at_point (call w u op q) t = at_point w t.
Proof.
  intros Hne. unfold call.
  destruct (at_point w u); try reflexivity. cbn [at_point].
  apply move_other. congruence.
Qed.

(** While [t] is inside, another thread's statement changes nothing. *)
Lemma step_other_blocked (w : world) (t u : nat) :
  u <> t -> exclusive w -> in_section (at_point w t) = true ->
  fst (step w u) = w.
Proof.
  intros Hne Hex Ht. pose proof (holder_is w t Hex Ht) as Hm.
  assert (Hu : in_section (at_point w u) = false).
  { unfold exclusive in Hex. rewrite Hm in Hex.
    destruct (in_section (at_point w u)) eqn:E; [|reflexivity].
    apply Hex in E. now elim Hne. }
  unfold step. destruct (at_point w u); try discriminate; [reflexivity|].
  now rewrite Hm.
Qed.

Lemma call_other_guarded (w : world) (t u : nat) (op : operation) (q : string) :
  u <> t -> guarded w t -> guarded (call w u op q) t.
Proof.
  intros Hne Hg Ht. rewrite call_other_point in Ht by assumption.
  specialize (Hg Ht). pose proof (holder_is w t Hg Ht) as Hm.
  unfold call. destruct (at_point w u) as [last| | | | |] eqn:Eu; try exact Hg.
  unfold exclusive in *. cbn [mutex at_point]. rewrite Hm in *.
  intros v. destruct (Nat.eq_dec v u) as [->|Hv].
  - rewrite move_same. specialize (Hg u). rewrite Eu in Hg. exact Hg.
  - rewrite move_other by assumption. apply Hg.
Qed.

Lemma on_track_same_point (w w' : world) (t : nat) (ret : returned) :
  at_point w' t = at_point w t -> db_conn w' = db_conn w ->
  on_track w t ret -> on_track w' t ret.
Proof. unfold on_track. intros -> ->. auto. Qed.

Lemma on_track_outside (w w' : world) (t : nat) (ret : returned) :
  at_point w' t = at_point w t -> in_section (at_point w t) = false ->
  on_track w t ret -> on_track w' t ret.
Proof.
  unfold on_track. intros -> Hout.
  destruct (at_point w t); try discriminate; auto.
Qed.

(** One statement of [t] itself keeps it on track and brings it closer
    to the end of its call. *)
Lemma step_own_progress (w : world) (t : nat) (ret : returned) :
  on_track w t ret -> guarded w t ->
  on_track (fst (step w t)) t ret
  /\ guarded (fst (step w t)) t
  /\ (need (at_point (fst (step w t)) t) <= pred (need (at_point w t)))%nat.
Proof.
  intros Hon Hg. unfold on_track in Hon.
  destruct (at_point w t) as [last|op q|op q|op q|op|r] eqn:Ept; try now elim Hon.
  - rewrite (step_outside w t last Ept). unfold on_track. rewrite Ept.
    split; [exact Hon|]. split; [exact Hg|]. cbn. lia.
  - assert (Ht : in_section (at_point w t) = true) by now rewrite Ept.
    destruct (step_check w t op q Ept) as (P & M & C).
    destruct Hon as (st' & Hseq).
    split; [|split].
    + unfold on_track. rewrite P, C. destruct (db_conn w) as [conn|].
      * exists conn, st'. auto.
      * destruct op; cbn in Hseq; now injection Hseq as <- _.
    + intros _. unfold step. rewrite Ept.
      destruct (db_conn w); cbn [fst];
        apply exclusive_inside; auto.
    + rewrite P. destruct (db_conn w); cbn; lia.
  - assert (Ht : in_section (at_point w t) = true) by now rewrite Ept.
    destruct Hon as (conn & st' & Hc & Hseq).
    destruct (step_send w t op q conn Ept Hc) as (P & M & C).
    rewrite sequential_connected in Hseq.
    split; [|split].
    + unfold on_track. rewrite P, C.
      destruct (fst (mysql_query conn q)).
      * exists (snd (mysql_query conn q)). split; [reflexivity|].
        now injection Hseq as <- _.
      * now injection Hseq as <- _.
    + intros _. unfold step. rewrite Ept, Hc.
      destruct (mysql_query conn q) as [ok conn1]. cbn [fst].
      apply exclusive_inside; auto. now destruct ok.
    + rewrite P. destruct (fst (mysql_query conn q)); cbn; lia.
  - assert (Ht : in_section (at_point w t) = true) by now rewrite Ept.
    destruct Hon as (conn & Hc & ->).
    destruct (step_fetch w t op conn Ept Hc) as (P & M & C).
    split; [|split].
    + unfold on_track. now rewrite P.
    + intros _. unfold step. rewrite Ept, Hc.
      destruct op; [destruct (mysql_store_result conn)|]; cbn [fst];
        apply exclusive_inside; auto.
    + rewrite P. cbn. lia.
  - destruct (step_unlock w t r Ept) as (P & M & C).
    split; [|split].
    + unfold on_track. now rewrite P.
    + intros Hin. rewrite P in Hin. discriminate.
    + rewrite P. cbn. lia.
Qed.

Lemma run_on_track (t : nat) (ret : returned) (schedule : list turn) :
  forall w,
    calls_not t schedule = true ->
    on_track w t ret -> guarded w t ->
    (need (at_point w t) <= steps_of t schedule)%nat ->
    at_point (fst (run schedule w)) t = Outside (Some ret).
Proof.
  induction schedule as [|turn schedule IH]; intros w Hcalls Hon Hg Hneed.
  - cbn in *. unfold on_track in Hon.
    destruct (at_point w t) as [[r|]| | | | |]; cbn in Hneed; try lia;
      try (now subst); try (now elim Hon).
  - cbn [calls_not forallb] in Hcalls. apply andb_true_iff in Hcalls as [Hturn Hcalls].
    destruct turn as [u op q|u].
    + apply negb_true_iff, Nat.eqb_neq in Hturn. cbn [run].
      apply IH; [exact Hcalls| | |].
      * apply (on_track_same_point w); [now apply call_other_point| |exact Hon].
        unfold call. now destruct (at_point w u).
      * now apply call_other_guarded.
      * rewrite call_other_point by assumption. exact Hneed.
    + rewrite run_step. unfold steps_of in Hneed. cbn [filter] in Hneed.
      destruct (Nat.eqb u t) eqn:Eut.
      * apply Nat.eqb_eq in Eut. subst u.
        destruct (step_own_progress w t ret Hon Hg) as (Hon' & Hg' & Hless).
        apply IH; [exact Hcalls | exact Hon' | exact Hg' |].
        cbn [List.length] in Hneed. unfold steps_of. lia.
      * apply Nat.eqb_neq in Eut.
        destruct (in_section (at_point w t)) eqn:Ht.
        -- rewrite (step_other_blocked w t u Eut (Hg Ht) Ht).
           now apply IH.
        -- apply IH; [exact Hcalls | | |].
           ++ apply (on_track_outside w);
                [now apply step_other_point | exact Ht | exact Hon].
           ++ intros Hin. rewrite step_other_point in Hin by assumption.
              rewrite Ht in Hin. discriminate.
           ++ rewrite step_other_point by assumption. exact Hneed.
Qed.

(** X16: a call is served as if it were alone. Once a worker holds the
    mutex in [db_query] or [db_execute], then in every schedule in which
    it gets four statements of its own and starts no new call, whatever
    the other workers call or attempt in between, it hands back exactly
    what the sequential function computes on the session as it was when
    the lock was taken. *)
Theorem call_is_isolated (t : nat) (op : operation) (q : string) (w : world)
  (schedule : list turn) :
  exclusive w ->
  at_point w t = AtCheck op q ->
  calls_not t schedule = true ->
  (4 <= steps_of t schedule)%nat ->
  exists ret st',
    sequential op q (db_conn w) = Some (ret, st')
    /\ at_point (fst (run schedule w)) t = Outside (Some ret).
Proof.
  intros Hex Hp Hcalls Hsteps.
  assert (Hseq : exists ret st', sequential op q (db_conn w) = Some (ret, st')).
  { destruct (db_conn w) as [conn|].
    - rewrite sequential_connected. destruct (fst (mysql_query conn q)); now eexists; eexists.
    - destruct op; now eexists; eexists. }
  destruct Hseq as (ret & st' & Hseq). exists ret, st'. split; [exact Hseq|].
  apply run_on_track; [exact Hcalls | | |].
  - unfold on_track. rewrite Hp. now exists st'.
  - intros _. exact Hex.
  - rewrite Hp. exact Hsteps.
Qed.

(** X17: every path through [db_query] and [db_execute] gives the mutex
    back. A worker at the lock with the mutex free, running five
    statements with nobody in its way, is outside again with the value
    and the session of the sequential function, and the mutex is free:
    also when the handle is null and when the statement fails. *)
Theorem lone_call_releases (t : nat) (op : operation) (q : string) (w : world) :
  at_point w t = AtLock op q -> mutex w = None ->
  exists ret st',
    sequential op q (db_conn w) = Some (ret, st')
    /\ finished (fst (run (repeat (Step t) 5) w)) t ret st'.
Proof. apply solo_call. Qed.

End Isolation.

Lemma call_is_isolated_witness :
  exists ret st',
    sequential (lib := accepting_engine) Query "SELECT 1" (Some ""%string)
      = Some (ret, st')
    /\ at_point
         (fst (run (lib := accepting_engine)
                 [Call 1 Execute "DELETE FROM t"; Step 0; Step 1; Step 0; Step 1;
                  Step 0; Call 2 Query "SELECT 2"; Step 2; Step 0; Step 1]
                 (fst (step (call (start fresh_session) 0 Query "SELECT 1") 0))))
         0
       = Outside (Some ret).
Proof.
  apply (call_is_isolated (lib := accepting_engine) 0 Query "SELECT 1"
           (fst (step (call (start fresh_session) 0 Query "SELECT 1") 0))).
  - intros u. destruct u as [|u]; cbn; [tauto|]. split; [discriminate|].
    intros E. discriminate E.
  - reflexivity.
  - reflexivity.
  - cbn. lia.
Defined.

Lemma lone_call_releases_witness :
  exists ret st',
    sequential (lib := accepting_engine) Execute "DELETE FROM t" (Some ""%string)
      = Some (ret, st')
    /\ finished (fst (run (lib := accepting_engine) (repeat (Step 3) 5)
                        (call (start fresh_session) 3 Execute "DELETE FROM t")))
                3 ret st'.
Proof.
  apply (lone_call_releases (lib := accepting_engine) 3 Execute "DELETE FROM t"
           (call (start fresh_session) 3 Execute "DELETE FROM t"));
    reflexivity.
Defined.

End LockMore.
